(** * aniniscale: dominant-colour downscaling

    A shallow embedding of [src/main.cpp] and the properties of its tile
    reducer ([work]), of the section planner and of the driver ([main]).

    Conventions.
    - [unsigned int] is a [Z] in [0, 2^32) and every arithmetic result is
      reduced by [wrap]; an [int] that the program keeps positive is a plain
      [Z], converted by [wrap] where it meets an unsigned operand (signed
      overflow, undefined in C++, is read as wrapping there).  The factors
      are the [int]s that [atoi] returns, in [-2^31, 2^31).
    - A pixel buffer is a [list Z] of samples in [0, 256), row-major and
      band-interleaved.  Reading past its end yields [0]; the program does not
      do so on the inputs the properties are about.
    - [std::map<unsigned, unsigned>] is a [gmap Z Z]; [operator[]] on an absent
      key reads as [0].  The result map keyed by section coordinates is a
      [gmap (Z * Z) (list Z)], walked in the order of the nested loops.
    - A [while] loop takes a bound on its rounds and reports [Exhausted] when
      the bound is hit; the properties show that [rounds H] rounds are enough.
    - libvips is outside the program: images are records, [extract_area],
      [insert] and [new_from_memory] are modelled after their documentation,
      opening a file may fail (an uncaught [VError]), saving is taken to
      succeed.
    - The worker threads only share the task queue, and every task writes
      the buffer of its own section, so [main] runs the pool as one worker
      taking the queue front to back ([run_pool_order_irrelevant] shows that
      the order is immaterial).  The pool itself, with its threads, its mutex
      and its console output, is a step relation of its own ([pool_step]);
      [pool_result_is_sequential] ties the two together.
    - The progress reports take the readings of [std::time(0)] as arguments;
      the estimate computed in [double] is left open ([eta_of]). *)

From Stdlib Require Import ZArith List Lia Bool String Ascii.
From stdpp Require Import base option list gmap strings relations.
From coqutil Require Import Z.bitblast.

Local Open Scope Z_scope.

(** ** Machine integers *)

Module U32.

Definition modulus : Z := 2 ^ 32.

(** Reduction of a mathematical integer to an [unsigned int]. *)
Definition wrap (z : Z) : Z := z mod modulus.

Definition in_range (z : Z) : Prop := 0 <= z < modulus.

End U32.

Import U32.

(** ** Images (the part of [vips::VImage] the program relies on) *)

Record VImage := mkImage {
  im_width : Z;
  im_height : Z;
  im_bands : Z;
  im_data : list Z
}.

(** [p[i]] on a sample buffer. *)
Definition sample (p : list Z) (i : Z) : Z :=
  if i <? 0 then 0 else nth (Z.to_nat i) p 0.

(** The sample of band [b] of the pixel in column [x], row [y]. *)
Definition pixel_sample (img : VImage) (x y b : Z) : Z :=
  sample (im_data img) ((y * im_width img + x) * im_bands img + b).

(** Row-major, band-interleaved enumeration of a [w] x [h] buffer. *)
Definition raster (w h bands : Z) (f : Z -> Z -> Z -> Z) : list Z :=
  j ← seqZ 0 h; i ← seqZ 0 w; b ← seqZ 0 bands; [f i j b].

(** [img.extract_area(left, top, w, h)]: a contiguous copy of the rectangle.
    libvips refuses a rectangle that is not inside the image; the program only
    asks for rectangles inside it (see [section_rect_exact]). *)
Definition extract_area (img : VImage) (left top w h : Z) : VImage :=
  mkImage w h (im_bands img)
    (raster w h (im_bands img) (fun i j b => pixel_sample img (left + i) (top + j) b)).

(** [VImage::new_from_memory(data, size, w, h, bands, format)]. *)
Definition new_from_memory (data : list Z) (w h bands : Z) : VImage :=
  mkImage w h bands data.

(** [main.insert(sub, x, y)] without [expand]: the result has the size of
    [main]; inside the placed rectangle it shows [sub]. *)
Definition insert_image (main sub : VImage) (x y : Z) : VImage :=
  mkImage (im_width main) (im_height main) (im_bands main)
    (raster (im_width main) (im_height main) (im_bands main)
       (fun i j b =>
          if (x <=? i) && (i <? x + im_width sub) && (y <=? j) && (j <? y + im_height sub)
          then pixel_sample sub (i - x) (j - y) b
          else pixel_sample main i j b)).

(** ** Global state set by [main] and read by [work] *)

Record globals := mkGlobals {
  x_factor : Z;
  y_factor : Z;
  bandCount : Z
}.

(** ** The tile reducer *)

(** [colors], [dominant] and [domCount] of the inner loop of [work]. *)
Record votes := mkVotes {
  colors : gmap Z Z;
  dominant : Z;
  domCount : Z
}.

Definition no_votes : votes := mkVotes ∅ 0 0.

(** [colors[color]], which reads [0] for a key that was never inserted. *)
Definition count_of (m : gmap Z Z) (color : Z) : Z := default 0 (m !! color).

(** The key of pixel [i]:
    [color |= pixels[i * bandCount + b] << ((bandCount - 1 - b) * 8)]
    for [b = 0 .. bandCount - 1].  With more than four bands the shift count
    reaches 32, which C++ leaves undefined; the bits shifted out are dropped
    here, which need not be what a compiled program does.  Every property
    that depends on the value of a key is stated for at most four bands. *)
Definition color_at (g : globals) (pixels : list Z) (i : Z) : Z :=
  fold_left
    (fun color b =>
       Z.lor color
         (wrap (Z.shiftl (sample pixels (wrap (i * bandCount g + b)))
                         ((bandCount g - 1 - b) * 8))))
    (seqZ 0 (bandCount g)) 0.

(** The effect of one pixel on the three variables, the [break] left aside. *)
Definition cast_vote (color : Z) (st : votes) : votes :=
  let n := wrap (count_of (colors st) color + 1) in
  let colors' := <[color := n]> (colors st) in
  if domCount st <? n then mkVotes colors' color n
  else mkVotes colors' (dominant st) (domCount st).

(** The loop over the pixels of a tile:
    [colors[color] += 1;
     if (domCount < colors[color])
       { domCount = colors[color]; dominant = color; if (domCount >= win) break; }]. *)
Fixpoint scan (win : Z) (cs : list Z) (st : votes) : votes :=
  match cs with
  | [] => st
  | color :: rest =>
      let n := wrap (count_of (colors st) color + 1) in
      let colors' := <[color := n]> (colors st) in
      if domCount st <? n then
        let st' := mkVotes colors' color n in
        if win <=? n then st' else scan win rest st'
      else scan win rest (mkVotes colors' (dominant st) (domCount st))
  end.

(** [size = x_factor * y_factor] and [win = size / 2]. *)
Definition tile_size (g : globals) : Z := wrap (x_factor g * y_factor g).
Definition win_of (g : globals) : Z := tile_size g / 2.

(** The keys of the tile's pixels in the order the loop visits them. *)
Definition tile_colors (g : globals) (pixels : list Z) : list Z :=
  color_at g pixels <$> seqZ 0 (tile_size g).

Definition find_dominant (g : globals) (pixels : list Z) : Z :=
  dominant (scan (win_of g) (tile_colors g pixels) no_votes).

(** [(dominant >> ((bandCount - 1 - b) * 8)) & 0xFF].  As for [color_at],
    a shift by 32 bits or more (more than four bands) is undefined in C++
    and reads as 0 here; the properties about bands are stated for at most
    four bands. *)
Definition band_of (g : globals) (key b : Z) : Z :=
  Z.land (Z.shiftr key ((bandCount g - 1 - b) * 8)) 255.

(** [out[i] = v] on a [std::vector]; an index past the end is undefined in
    C++ and leaves the buffer unchanged here. *)
Definition store (out : list Z) (i v : Z) : list Z := <[Z.to_nat i := v]> out.

(** The painting loop: [out[(y * x_tiles + x) * bandCount + b] = band b]. *)
Definition paint (g : globals) (x_tiles x y key : Z) (out : list Z) : list Z :=
  fold_left
    (fun o b => store o (wrap ((y * x_tiles + x) * bandCount g + b))
                        (band_of g key b))
    (seqZ 0 (bandCount g)) out.

(** The tile at tile coordinates [(x, y)]. *)
Definition tile_pixels (g : globals) (img : VImage) (x y : Z) : list Z :=
  im_data (extract_area img (wrap (x * x_factor g)) (wrap (y * y_factor g))
             (x_factor g) (y_factor g)).

(** [work(img, out)].  The [int] factors are converted to [unsigned int]
    where they meet an unsigned operand; [main] lets [work] run with factors
    of at least 1 only, so the two divisions never see a zero. *)
Definition work (g : globals) (img : VImage) (out : list Z) : list Z :=
  let width := wrap (im_width img) in
  let height := wrap (im_height img) in
  let x_tiles := width / wrap (x_factor g) in
  let y_tiles := height / wrap (y_factor g) in
  fold_left
    (fun o x =>
       fold_left
         (fun o' y => paint g x_tiles x y (find_dominant g (tile_pixels g img x y)) o')
         (seqZ 0 y_tiles) o)
    (seqZ 0 x_tiles) out.

(** ** Outcomes of the driver *)

Inductive fault := DivideByZero | UncaughtVError.

(** A computation that may fault, or that the model may cut short for lack
    of fuel in a loop. *)
Inductive res (A : Type) :=
| Ok (a : A)
| Fail (f : fault)
| Exhausted.
Arguments Ok {A} a.
Arguments Fail {A} f.
Arguments Exhausted {A}.

#[global] Instance res_bind : MBind res := fun A B k m =>
  match m with
  | Ok a => k a
  | Fail f => Fail f
  | Exhausted => Exhausted
  end.

(** Unsigned division; dividing by zero traps. *)
Definition udiv (a b : Z) : res Z :=
  if b =? 0 then Fail DivideByZero else Ok (a / b).

(** [while (cond(s)) s = body(s);] with a bound on the number of rounds. *)
Fixpoint while {S : Type} (fuel : nat) (cond : S -> bool) (body : S -> S) (s : S) : res S :=
  if cond s then
    match fuel with
    | O => Exhausted
    | Datatypes.S fuel' => while fuel' cond body (body s)
    end
  else Ok s.

(** ** The section planner (the arithmetic of [main]) *)

Record plan := mkPlan {
  workerCount : Z;
  x_tiles : Z;
  y_tiles : Z;
  x_section : Z;
  y_section : Z;
  x_sectionSize : Z;
  y_sectionSize : Z;
  x_sectionCount : Z;
  y_sectionCount : Z
}.

(** [if (workerCount % 2 != 0) workerCount += workerCount % 2;] *)
Definition make_even (workerCount : Z) : Z :=
  if negb (workerCount mod 2 =? 0) then wrap (workerCount + workerCount mod 2)
  else workerCount.

(** [while (workerCount > x_tiles || workerCount > y_tiles) workerCount -= 2;] *)
Definition cut_workers (fuel : nat) (workerCount xt yt : Z) : res Z :=
  while fuel (fun w => (xt <? w) || (yt <? w)) (fun w => wrap (w - 2)) workerCount.

(** [if (0 == workerCount) workerCount = 1;] *)
Definition bring_back_one (workerCount : Z) : Z :=
  if 0 =? workerCount then 1 else workerCount.

(** The worker count for hardware concurrency [H]. *)
Definition plan_workers (fuel : nat) (H xt yt : Z) : res Z :=
  w ← cut_workers fuel (make_even (wrap H)) xt yt;
  Ok (bring_back_one w).

(** [while (section > max_sections) section /= 2;] *)
Definition cap_section (fuel : nat) (section max_sections : Z) : res Z :=
  while fuel (fun s => max_sections <? s) (fun s => s / 2) section.

Definition planner (fuel : nat) (g : globals) (H img_width img_height : Z) : res plan :=
  let width := wrap img_width in
  let height := wrap img_height in
  let xt := width / wrap (x_factor g) in
  let yt := height / wrap (y_factor g) in
  let max_x_sections := wrap (x_factor g * x_factor g) in
  let max_y_sections := wrap (y_factor g * y_factor g) in
  wc ← plan_workers fuel H xt yt;
  xs0 ← udiv xt wc;
  ys0 ← udiv yt wc;
  xs ← cap_section fuel xs0 max_x_sections;
  ys ← cap_section fuel ys0 max_y_sections;
  let xss := wrap (xs * x_factor g) in
  let yss := wrap (ys * y_factor g) in
  xsc ← udiv width xss;
  ysc ← udiv height yss;
  Ok (mkPlan wc xt yt xs ys xss yss xsc ysc).

(** ** The driver *)

(** [atoi], which the C library implements as [(int) strtol(s, NULL, 10)].
    [strtol] skips leading white space, reads an optional sign and the decimal
    digits that follow, ignores what comes after them and saturates at the
    ends of [long] (64 bits); the conversion to [int] keeps the low 32 bits,
    so ["2147483648"] reads as [-2147483648] and ["-2147483649"] as
    [2147483647]. *)
Definition is_space (c : ascii) : bool :=
  let n := nat_of_ascii c in
  ((9 <=? n) && (n <=? 13))%nat || (n =? 32)%nat.

Definition digit_of (c : ascii) : option Z :=
  let n := Z.of_nat (nat_of_ascii c) in
  if (48 <=? n) && (n <=? 57) then Some (n - 48) else None.

Fixpoint skip_spaces (s : string) : string :=
  match s with
  | String c r => if is_space c then skip_spaces r else s
  | EmptyString => s
  end.

Fixpoint digits (s : string) (acc : Z) : Z :=
  match s with
  | String c r =>
      match digit_of c with
      | Some d => digits r (10 * acc + d)
      | None => acc
      end
  | EmptyString => acc
  end.

(** The number that is written at the start of [s]. *)
Definition decimal (s : string) : Z :=
  match skip_spaces s with
  | String "-" r => - digits r 0
  | String "+" r => digits r 0
  | r => digits r 0
  end.

Definition LONG_MIN : Z := - 2 ^ 63.
Definition LONG_MAX : Z := 2 ^ 63 - 1.

Definition strtol (s : string) : Z := Z.max LONG_MIN (Z.min LONG_MAX (decimal s)).

(** The conversion of a [long] to [int]. *)
Definition to_int (z : Z) : Z := (z + 2 ^ 31) mod 2 ^ 32 - 2 ^ 31.

Definition atoi (s : string) : Z := to_int (strtol s).

(** What the program observes of its surroundings. *)
Record Env := mkEnv {
  vips_init_fails : bool;                (* VIPS_INIT(argv[0]) != 0 *)
  hardware_concurrency : Z;              (* std::thread::hardware_concurrency() *)
  files : string -> option VImage        (* VImage::new_from_file *)
}.

(** What the program does to images, in program order. *)
Inductive event :=
| Opened (path : string)
| Extracted (left top w h : Z)
| Reduced (x_task y_task : Z)
| Saved (path : string) (img : VImage).

Inductive outcome :=
| Exit (code : Z)
| Crash (f : fault)
| OutOfFuel.

Record run := mkRun {
  events : list event;
  result : outcome
}.

(** [argv[i]]. *)
Definition arg (argv : list string) (i : nat) : string := nth i argv EmptyString.

(** The coordinates of the sections, in the order of the two nested loops
    (which is also the iteration order of the [std::map] keyed by them). *)
Definition section_coords (p : plan) : list (Z * Z) :=
  x_task ← seqZ 0 (x_sectionCount p); y_task ← seqZ 0 (y_sectionCount p); [(x_task, y_task)].

(** "Allocate all needed memory". *)
Definition allocate (g : globals) (p : plan) : gmap (Z * Z) (list Z) :=
  fold_left
    (fun result c =>
       <[c := replicate (Z.to_nat (wrap (x_section p * y_section p * bandCount g))) 0]> result)
    (section_coords p) ∅.

(** The area a section's task captures. *)
Definition section_rect (p : plan) (c : Z * Z) : Z * Z * Z * Z :=
  (wrap (c.1 * x_sectionSize p), wrap (c.2 * y_sectionSize p),
   x_sectionSize p, y_sectionSize p).

Definition section_area (p : plan) (img : VImage) (c : Z * Z) : VImage :=
  let '(l, t, w, h) := section_rect p c in extract_area img l t w h.

(** One task: [work(area, result[coords])]. *)
Definition run_task (g : globals) (p : plan) (img : VImage)
    (result : gmap (Z * Z) (list Z)) (c : Z * Z) : gmap (Z * Z) (list Z) :=
  <[c := work g (section_area p img c) (default [] (result !! c))]> result.

(** The pool drains its queue; every task runs once. *)
Definition run_pool (g : globals) (p : plan) (img : VImage)
    (queue : list (Z * Z)) (result : gmap (Z * Z) (list Z)) : gmap (Z * Z) (list Z) :=
  fold_left (run_task g p img) queue result.

(** "Go through worker results and place them in resulting image". *)
Definition assemble (g : globals) (p : plan) (result : gmap (Z * Z) (list Z)) : VImage :=
  let outBuffer := replicate (Z.to_nat (wrap (x_tiles p * y_tiles p * bandCount g))) 0 in
  fold_left
    (fun out c =>
       let block := new_from_memory (default [] (result !! c))
                      (x_section p) (y_section p) (bandCount g) in
       insert_image out block (wrap (c.1 * x_section p)) (wrap (c.2 * y_section p)))
    (section_coords p)
    (new_from_memory outBuffer (x_tiles p) (y_tiles p) (bandCount g)).

Definition section_events (p : plan) : list event :=
  ((fun c => let '(l, t, w, h) := section_rect p c in Extracted l t w h)
     <$> section_coords p)
  ++ ((fun c => Reduced c.1 c.2) <$> section_coords p).

Definition main (fuel : nat) (env : Env) (argv : list string) : run :=
  if vips_init_fails env then mkRun [] (Exit (-1)) else
  if Z.of_nat (length argv) <? 5 then mkRun [] (Exit (-1)) else
  let xf := atoi (arg argv 1) in
  let yf := atoi (arg argv 2) in
  if (xf <? 1) || (yf <? 1) then mkRun [] (Exit (-1)) else
  match files env (arg argv 3) with
  | None => mkRun [] (Crash UncaughtVError)
  | Some img =>
      let g := mkGlobals xf yf (im_bands img) in
      if (xf =? 1) && (yf =? 1)
      then mkRun [Opened (arg argv 3); Saved (arg argv 4) img] (Exit 0)
      else
        match planner fuel g (hardware_concurrency env) (im_width img) (im_height img) with
        | Exhausted => mkRun [Opened (arg argv 3)] OutOfFuel
        | Fail f => mkRun [Opened (arg argv 3)] (Crash f)
        | Ok p =>
            let result := run_pool g p img (section_coords p) (allocate g p) in
            let out := assemble g p result in
            mkRun (Opened (arg argv 3) :: section_events p ++ [Saved (arg argv 4) out])
                  (Exit 0)
        end
  end.

(** * Vocabulary of the properties *)

(** Number of pixels of colour [c] among [l]. *)
Definition occ (c : Z) (l : list Z) : Z := Z.of_nat (count_occ Z.eq_dec l c).

(** The votes after the pixels [l], had the loop no [break]. *)
Definition tally_from (st : votes) (l : list Z) : votes :=
  fold_left (fun s c => cast_vote c s) l st.

(** The same from the initial values of the loop variables. *)
Definition tally (l : list Z) : votes := tally_from no_votes l.

(** What the three loop variables mean after the pixels [l] have voted. *)
Record tally_inv (l : list Z) (st : votes) : Prop := {
  inv_counts : forall c, count_of (colors st) c = occ c l;
  inv_max : forall c, occ c l <= domCount st;
  inv_first :
    (l = [] /\ domCount st = 0) \/
    (exists p q, l = p ++ dominant st :: q
                 /\ occ (dominant st) p + 1 = domCount st
                 /\ forall c, occ c p < domCount st)
}.

(** A sample is one [unsigned char]. *)
Definition is_byte (v : Z) : Prop := 0 <= v < 256.

(** A number of rounds that lets every loop of the planner run to its end. *)
Definition rounds (H : Z) : nat := Z.to_nat (wrap H / 2 + 33).

(** The worker count as a function of [H] and the tile counts. *)
Definition workers_for (H xt yt : Z) : Z :=
  let e := make_even (wrap H) in
  bring_back_one (if e <=? Z.min xt yt then e else 2 * (Z.min xt yt / 2)).

(** The conditions under which [main] goes past its checks and the
    identity shortcut. *)
Record reaches_planner (env : Env) (argv : list string) (img : VImage) : Prop := {
  rp_init : vips_init_fails env = false;
  rp_argc : (5 <= length argv)%nat;
  rp_x : 1 <= atoi (arg argv 1);
  rp_y : 1 <= atoi (arg argv 2);
  rp_open : files env (arg argv 3) = Some img;
  rp_not_identity : ~ (atoi (arg argv 1) = 1 /\ atoi (arg argv 2) = 1)
}.

(** The globals as [main] sets them. *)
Definition globals_of (argv : list string) (img : VImage) : globals :=
  mkGlobals (atoi (arg argv 1)) (atoi (arg argv 2)) (im_bands img).

(** The events that cut or reduce pixels. *)
Definition image_work (e : event) : bool :=
  match e with
  | Extracted _ _ _ _ | Reduced _ _ => true
  | Opened _ | Saved _ _ => false
  end.

(** What a plan is made of, for an image and factors in the range of [int]. *)
Record plan_facts (g : globals) (width height : Z) (p : plan) : Prop := {
  pf_workers : 1 <= workerCount p;
  pf_x_tiles : x_tiles p = width / x_factor g;
  pf_y_tiles : y_tiles p = height / y_factor g;
  pf_x_section : 0 <= x_section p <= x_tiles p;
  pf_y_section : 0 <= y_section p <= y_tiles p;
  pf_x_size : x_sectionSize p = x_section p * x_factor g;
  pf_y_size : y_sectionSize p = y_section p * y_factor g;
  pf_x_size_pos : 0 < x_sectionSize p;
  pf_y_size_pos : 0 < y_sectionSize p;
  pf_x_count : x_sectionCount p = width / x_sectionSize p;
  pf_y_count : y_sectionCount p = height / y_sectionSize p
}.



(** * Sample inputs *)

(** A command line with the given factors. *)
Definition argv_of (xf yf : string) : list string :=
  ["aniniscale"; xf; yf; "in.png"; "out.png"]%string.

(** A single-band 3 x 1 image, one tile for factors 3 x 1, on one hardware
    thread. *)
Definition img_7_9_9 : VImage := mkImage 3 1 1 [7; 9; 9].

Definition env_7_9_9 : Env :=
  mkEnv false 1 (fun path => if String.eqb path "in.png" then Some img_7_9_9 else None).

(** The 4 x 4 single-band image of four 2 x 2 blocks, on [H] hardware threads. *)
Definition img44 : VImage :=
  mkImage 4 4 1 [1;1;2;2; 1;1;2;2; 3;3;4;4; 3;3;4;4].

Definition env44 (H : Z) : Env :=
  mkEnv false H (fun path => if String.eqb path "in.png" then Some img44 else None).

(** A 10 x 2 image reduced with factors 2 x 1 on two hardware threads:
    five tiles per row, but two sections of two tiles each. *)
Definition img_10x2 : VImage :=
  mkImage 10 2 1 [1;1;2;2;3;3;4;4;5;5; 6;6;7;7;8;8;9;9;5;5].

Definition env_10x2 : Env :=
  mkEnv false 2 (fun path => if String.eqb path "in.png" then Some img_10x2 else None).

(** The plan the planner makes for it. *)
Definition plan_10x2 : plan := mkPlan 2 5 2 2 1 4 1 2 2.

(** * Progress reports and the worker pool *)

(** ** Time stamps and their display *)

(** [startTime], [lastReport] and [etaReport].  A [time_t] is a count of
    seconds, taken as an integer. *)
Record timers := mkTimers {
  startTime : Z;
  lastReport : Z;
  etaReport : Z
}.

(** The fields of [struct tm] that the format ["%H:%M:%S"] reads. *)
Record tm := mkTm {
  tm_hour : Z;
  tm_min : Z;
  tm_sec : Z
}.

(** [gmtime]: the time of day, in UTC, of a count of seconds since the epoch. *)
Definition gmtime (t : Z) : tm :=
  mkTm (t mod 86400 / 3600) (t mod 3600 / 60) (t mod 60).

Definition digit_char (d : Z) : ascii := ascii_of_nat (48 + Z.to_nat d).

(** A field of two decimal digits, as [%H], [%M] and [%S] print it. *)
Definition two_digits (n : Z) : string :=
  String (digit_char (n / 10)) (String (digit_char (n mod 10)) EmptyString).

(** [strftime(buffer, maxsize, "%H:%M:%S", tm)]: the text, when it fits the
    buffer together with its terminator; otherwise the call returns 0 and
    there is no text. *)
Definition strftime_HMS (maxsize : nat) (t : tm) : option string :=
  let text := two_digits (tm_hour t) +:+ ":" +:+ two_digits (tm_min t)
              +:+ ":" +:+ two_digits (tm_sec t) in
  if (String.length text <? maxsize)%nat then Some text else None.

(** [<< std::setfill(fill) << std::setw(width) << text]: the text padded on
    the left to [width] characters. *)
Definition setw (width : nat) (fill : ascii) (text : string) : string :=
  string_of_list_ascii (replicate (width - String.length text) fill) +:+ text.

(** The three lines of a report around [label] and the formatted time. *)
Definition report_box (width : nat) (label buffer : string) : list string :=
  ["/" +:+ setw width "-" "\";
   label +:+ buffer +:+ " |";
   "\" +:+ setw width "-" "/"]%string.

Definition conversion_failure : string := "Failed to convert data ¯\_(ツ)_/¯".

(** [ReportElapsedTime()].  [now] and [now'] are what its two calls of
    [std::time(0)] return; the result is the new time stamps and the lines
    printed. *)
Definition ReportElapsedTime (now now' : Z) (st : timers) : timers * list string :=
  if now - lastReport st <? 5 then (st, [])
  else
    let st' := mkTimers (startTime st) now' (etaReport st) in
    let elapsed := lastReport st' - startTime st' in
    match strftime_HMS 9 (gmtime elapsed) with
    | Some buffer => (st', report_box 25 "| Time elapsed: " buffer)
    | None => (st', [conversion_failure])
    end.

(** [EstimateTimeLeft(pixelsLeft)].  The estimate itself is computed in
    [double] and converted to [unsigned int]; [eta_of done elapsed left]
    stands for
    [static_cast<unsigned int>((double)left / ((double)done / (double)elapsed))]
    and is left open. *)
Definition EstimateTimeLeft (eta_of : Z -> Z -> Z -> Z) (totalPixels : Z)
    (now now' : Z) (pixelsLeft : Z) (st : timers) : timers * list string :=
  if now - etaReport st <? 5 then (st, [])
  else
    let st' := mkTimers (startTime st) (lastReport st) now' in
    let elapsed := etaReport st' - startTime st' in
    let eta := eta_of (wrap (totalPixels - pixelsLeft)) elapsed pixelsLeft in
    match strftime_HMS 9 (gmtime eta) with
    | Some buffer => (st', report_box 16 "| ETA: " buffer)
    | None => (st', [conversion_failure])
    end.

(** ** WorkerPool *)

(** A [Task] is a [std::function<void()>]; here it is the effect of the call
    on the memory [R] that the closure captured by reference. *)

(** [PushTask(task)]. *)
Definition PushTask {R : Type} (task : R -> R) (m_tasks : list (R -> R)) : list (R -> R) :=
  m_tasks ++ [task].

(** Where a thread that runs [Worker()] stands: it has not had the mutex
    yet, it waits for the mutex at the head of the loop, it is inside
    [task()] without the mutex, or it has returned. *)
Inductive worker (R : Type) :=
| Spawned
| Waiting
| Running (task : R -> R)
| Returned.
Arguments Spawned {R}.
Arguments Waiting {R}.
Arguments Running {R} task.
Arguments Returned {R}.

(** What [Worker()] writes to the console; a thread id is shown as the index
    of the worker. *)
Inductive pool_event :=
| WorkerReady (w : nat)
| PixelsLeft (n : Z)
| ReportLines (lines : list string)
| WorkerDone (w : nat).

(** The globals the reports read, and the estimate left open. *)
Record report_env := mkReportEnv {
  taskPixels : Z;
  totalPixels : Z;
  eta_of : Z -> Z -> Z -> Z
}.

(** The pool, its threads and what they share.  [taken] and [completed] are
    history, not program state: the tasks in the order in which they were
    popped, and in the order in which they returned. *)
Record pool_state (R : Type) := mkPool {
  m_tasks : list (R -> R);
  threads : list (worker R);
  memory : R;
  stamps : timers;
  console : list pool_event;
  taken : list (R -> R);
  completed : list (R -> R)
}.
Arguments mkPool {R}.
Arguments m_tasks {R}.
Arguments threads {R}.
Arguments memory {R}.
Arguments stamps {R}.
Arguments console {R}.
Arguments taken {R}.
Arguments completed {R}.

(** A thread that needs the mutex next. *)
Definition wants_mutex {R : Type} (s : worker R) : bool :=
  match s with
  | Spawned | Waiting => true
  | Running _ | Returned => false
  end.

(** "Worker ready", printed once, when the thread first holds the mutex. *)
Definition ready {R : Type} (was : worker R) (w : nat) : list pool_event :=
  match was with
  | Spawned => [WorkerReady w]
  | _ => []
  end.

(** With the mutex held and a task in front of the queue: print the pixels
    left, make the two reports, pop the task.  [clock] holds the readings of
    the four possible calls of [std::time(0)]. *)
Definition take_task {R : Type} (E : report_env) (w : nat) (was : worker R)
    (task : R -> R) (rest : list (R -> R)) (clock : Z * Z * Z * Z)
    (st : pool_state R) : pool_state R :=
  let pixelsLeft := wrap (Z.of_nat (length (m_tasks st)) * taskPixels E) in
  let r1 := ReportElapsedTime clock.1.1.1 clock.1.1.2 (stamps st) in
  let r2 := EstimateTimeLeft (eta_of E) (totalPixels E) clock.1.2 clock.2 pixelsLeft r1.1 in
  mkPool rest (<[w := Running task]> (threads st)) (memory st) r2.1
    (console st ++ ready was w
       ++ [PixelsLeft pixelsLeft; ReportLines r1.2; ReportLines r2.2])
    (taken st ++ [task]) (completed st).

(** With the mutex held and the queue empty: leave the loop and return. *)
Definition leave {R : Type} (w : nat) (was : worker R) (st : pool_state R) : pool_state R :=
  mkPool (m_tasks st) (<[w := Returned]> (threads st)) (memory st) (stamps st)
    (console st ++ ready was w ++ [WorkerDone w]) (taken st) (completed st).

(** [task()] returns, and the thread goes for the mutex again. *)
Definition finish_task {R : Type} (w : nat) (task : R -> R) (st : pool_state R) : pool_state R :=
  mkPool (m_tasks st) (<[w := Waiting]> (threads st)) (task (memory st)) (stamps st)
    (console st) (taken st) (completed st ++ [task]).

(** One step of one of the threads.  The mutex makes the stretch between
    two lock operations a single step; a task runs outside it and is a step
    of its own, as the tasks of [main] touch nothing they share. *)
Inductive pool_step {R : Type} (E : report_env) : pool_state R -> pool_state R -> Prop :=
| step_take w was task rest clock st :
    threads st !! w = Some was -> wants_mutex was = true ->
    m_tasks st = task :: rest ->
    pool_step E st (take_task E w was task rest clock st)
| step_leave w was st :
    threads st !! w = Some was -> wants_mutex was = true ->
    m_tasks st = [] ->
    pool_step E st (leave w was st)
| step_finish w task st :
    threads st !! w = Some (Running task) ->
    pool_step E st (finish_task w task st).

(** The pool of [main] after the tasks are pushed and the threads are
    created. *)
Definition spawn {R : Type} (workerCount : nat) (tasks : list (R -> R)) (mem : R)
    (stamps0 : timers) : pool_state R :=
  mkPool tasks (replicate workerCount Spawned) mem stamps0 [] [] [].

(** The task [main] pushes for the section at [c]. *)
Definition section_task (g : globals) (p : plan) (img : VImage) (c : Z * Z)
    : gmap (Z * Z) (list Z) -> gmap (Z * Z) (list Z) :=
  fun result => run_task g p img result c.

(** The queue after the loops of [main] that push the tasks. *)
Definition pushed_tasks (g : globals) (p : plan) (img : VImage)
    : list (gmap (Z * Z) (list Z) -> gmap (Z * Z) (list Z)) :=
  fold_left (fun queue c => PushTask (section_task g p img c) queue) (section_coords p) [].

(** * Vocabulary of the further properties *)

(** The values [lastReport] takes in a series of calls of
    [ReportElapsedTime], each call given by its two clock readings. *)
Fixpoint report_times (calls : list (Z * Z)) (st : timers) : list Z :=
  match calls with
  | [] => []
  | (now, now') :: rest =>
      let r := ReportElapsedTime now now' st in
      match r.2 with
      | [] => report_times rest r.1
      | _ :: _ => lastReport r.1 :: report_times rest r.1
      end
  end.

(** Each time is at least [gap] later than the one before, [prev] first. *)
Fixpoint spaced (gap prev : Z) (ts : list Z) : Prop :=
  match ts with
  | [] => True
  | t :: rest => prev + gap <= t /\ spaced gap t rest
  end.

(** The tasks that are being run. *)
Definition running {R : Type} (ws : list (worker R)) : list (R -> R) :=
  ws ≫= fun s => match s with Running task => [task] | _ => [] end.

(** What is left to do: two steps for a queued task (taking and finishing
    it), one for a running task, and one more for every thread that has not
    returned. *)
Definition worker_weight {R : Type} (s : worker R) : nat :=
  match s with
  | Spawned | Waiting => 1
  | Running _ => 2
  | Returned => 0
  end.

Definition steps_left {R : Type} (st : pool_state R) : nat :=
  2 * length (m_tasks st) + sum_list_with worker_weight (threads st).

(** The memory after the tasks of a list have run one after the other. *)
Definition run_all {R : Type} (tasks : list (R -> R)) (mem : R) : R :=
  fold_left (fun m task => task m) tasks mem.

(** What every state of a run that started with [tasks] in the queue and
    [mem] in memory satisfies. *)
Record pool_inv {R : Type} (workerCount : nat) (tasks : list (R -> R)) (mem : R)
    (st : pool_state R) : Prop := {
  pi_fifo : taken st ++ m_tasks st = tasks;
  pi_once : completed st ++ running (threads st) ≡ₚ taken st;
  pi_memory : memory st = run_all (completed st) mem;
  pi_threads : length (threads st) = workerCount;
  pi_empty : (exists w, threads st !! w = Some Returned) -> m_tasks st = []
}.

(** No thread can take a step. *)
Definition all_returned {R : Type} (st : pool_state R) : Prop :=
  Forall (fun s => s = Returned) (threads st).

(** The numbers in the "Pixels left" lines, in the order printed. *)
Definition pixels_left_lines (log : list pool_event) : list Z :=
  log ≫= fun e => match e with PixelsLeft n => [n] | _ => [] end.

(** The lines of a kind in the console output. *)
Definition is_ready (w : nat) (e : pool_event) : bool :=
  match e with WorkerReady v => Nat.eqb v w | _ => false end.

Definition is_done (w : nat) (e : pool_event) : bool :=
  match e with WorkerDone v => Nat.eqb v w | _ => false end.

Definition count_lines (P : pool_event -> bool) (log : list pool_event) : nat :=
  length (List.filter P log).

(** How often a thread in state [s] has printed "Worker ready" and "Worker
    done". *)
Definition readies {R : Type} (s : option (worker R)) : nat :=
  match s with
  | Some Spawned | None => 0
  | Some _ => 1
  end.

Definition dones {R : Type} (s : option (worker R)) : nat :=
  match s with
  | Some Returned => 1
  | _ => 0
  end.

(** * Properties *)

(** ** Machine integers *)

Lemma wrap_range z : in_range (wrap z).
Proof. unfold in_range, wrap, modulus. apply Z.mod_pos_bound. lia. Qed.

Lemma wrap_small z : in_range z -> wrap z = z.
Proof. unfold in_range, wrap. intros. apply Z.mod_small. lia. Qed.

Lemma wrap_idemp z : wrap (wrap z) = wrap z.
Proof. apply wrap_small, wrap_range. Qed.

(** ** Bounded loops *)

Section While.
Context {S : Type} (cond : S -> bool) (body : S -> S).

Lemma while_done fuel s : cond s = false -> while fuel cond body s = Ok s.
Proof. intros Hc. destruct fuel; simpl; rewrite Hc; reflexivity. Qed.

Lemma while_step fuel s :
  cond s = true -> while (Datatypes.S fuel) cond body s = while fuel cond body (body s).
Proof. intros Hc. simpl. rewrite Hc. reflexivity. Qed.

Lemma while_exit fuel s r : while fuel cond body s = Ok r -> cond r = false.
Proof.
  revert s. induction fuel as [|fuel IH]; intros s; simpl;
    destruct (cond s) eqn:Hc; try discriminate.
  - intros [= <-]. exact Hc.
  - apply IH.
  - intros [= <-]. exact Hc.
Qed.

Lemma while_more_fuel fuel fuel' s r :
  (fuel <= fuel')%nat -> while fuel cond body s = Ok r -> while fuel' cond body s = Ok r.
Proof.
  revert fuel' s. induction fuel as [|fuel IH]; intros fuel' s Hle; simpl;
    destruct (cond s) eqn:Hc; try discriminate.
  - intros [= <-]. apply while_done. exact Hc.
  - destruct fuel' as [|fuel']; [lia|]. rewrite while_step by exact Hc.
    apply IH. lia.
  - intros [= <-]. apply while_done. exact Hc.
Qed.
End While.

(** ** Row-major buffers *)

Lemma bind_uniform_length {A B} (F : A -> list B) (l : list A) (L : nat) :
  (forall x, x ∈ l -> length (F x) = L) -> length (l ≫= F) = (length l * L)%nat.
Proof.
  induction l as [|x l IH]; intros HL; [reflexivity|].
  rewrite bind_cons, length_app, (HL x) by apply list_elem_of_here.
  rewrite IH by (intros y Hy; apply HL, list_elem_of_further, Hy). simpl. lia.
Qed.

Lemma bind_uniform_lookup {A B} (F : A -> list B) (l : list A) (L k r : nat) (x : A) :
  (forall y, y ∈ l -> length (F y) = L) ->
  l !! k = Some x -> (r < L)%nat ->
  (l ≫= F) !! (k * L + r)%nat = F x !! r.
Proof.
  revert k. induction l as [|y l IH]; intros k HL Hk Hr; [discriminate|].
  rewrite bind_cons. destruct k as [|k]; simpl in Hk.
  - injection Hk as ->. simpl. apply lookup_app_l.
    rewrite (HL x) by apply list_elem_of_here. exact Hr.
  - rewrite lookup_app_r by (rewrite (HL y) by apply list_elem_of_here; simpl; lia).
    rewrite (HL y) by apply list_elem_of_here.
    replace (S k * L + r - L)%nat with (k * L + r)%nat by (simpl; lia).
    apply IH; [|exact Hk | exact Hr].
    intros z Hz. apply HL, list_elem_of_further, Hz.
Qed.

Lemma row_length (w bands : Z) (F : Z -> Z -> Z) :
  length (seqZ 0 w ≫= fun i => seqZ 0 bands ≫= fun b => [F i b])
  = (Z.to_nat w * Z.to_nat bands)%nat.
Proof.
  rewrite (bind_uniform_length _ _ (Z.to_nat bands)), length_seqZ; [reflexivity|].
  intros i _. rewrite (bind_uniform_length _ _ 1), length_seqZ; [lia|].
  intros b _. reflexivity.
Qed.

Lemma raster_length w h bands f :
  length (raster w h bands f) = (Z.to_nat h * (Z.to_nat w * Z.to_nat bands))%nat.
Proof.
  unfold raster.
  rewrite (bind_uniform_length _ _ (Z.to_nat w * Z.to_nat bands)), length_seqZ;
    [reflexivity|].
  intros j _. apply row_length.
Qed.

Lemma raster_index i j b w bands :
  0 <= i < w -> 0 <= j -> 0 <= b < bands ->
  (Z.to_nat j * (Z.to_nat w * Z.to_nat bands)
   + (Z.to_nat i * Z.to_nat bands + Z.to_nat b))%nat
  = Z.to_nat ((j * w + i) * bands + b).
Proof.
  intros Hi Hj Hb.
  assert (0 <= j * w) by (apply Z.mul_nonneg_nonneg; lia).
  assert (0 <= (j * w + i) * bands) by (apply Z.mul_nonneg_nonneg; lia).
  apply Nat2Z.inj. rewrite !Nat2Z.inj_add, !Nat2Z.inj_mul.
  rewrite !Z2Nat.id by lia. ring.
Qed.

Lemma raster_index_in_row i b w bands :
  0 <= i < w -> 0 <= b < bands ->
  (Z.to_nat i * Z.to_nat bands + Z.to_nat b < Z.to_nat w * Z.to_nat bands)%nat.
Proof.
  intros Hi Hb.
  apply Nat2Z.inj_lt. rewrite !Nat2Z.inj_add, !Nat2Z.inj_mul.
  rewrite !Z2Nat.id by lia. nia.
Qed.

(** Sample [(j * w + i) * bands + b] of a raster is band [b] of the pixel in
    column [i] of row [j]. *)
Lemma raster_sample w h bands f i j b :
  0 <= i < w -> 0 <= j < h -> 0 <= b < bands ->
  sample (raster w h bands f) ((j * w + i) * bands + b) = f i j b.
Proof.
  intros Hi Hj Hb. unfold sample.
  assert (0 <= j * w) by (apply Z.mul_nonneg_nonneg; lia).
  assert (0 <= (j * w + i) * bands) by (apply Z.mul_nonneg_nonneg; lia).
  destruct (Z.ltb_spec ((j * w + i) * bands + b) 0) as [Hneg|_]; [lia|].
  rewrite nth_lookup.
  rewrite <- (raster_index i j b w bands) by lia.
  unfold raster.
  rewrite (bind_uniform_lookup _ _ (Z.to_nat w * Z.to_nat bands) _ _ j).
  - rewrite (bind_uniform_lookup _ _ (Z.to_nat bands) _ _ i).
    + rewrite <- (Nat.mul_1_r (Z.to_nat b)), <- (Nat.add_0_r (Z.to_nat b * 1)).
      rewrite (bind_uniform_lookup _ _ 1%nat _ _ b); [reflexivity | | | lia].
      * intros y _. reflexivity.
      * rewrite lookup_seqZ_lt by lia. f_equal. lia.
    + intros y _. rewrite (bind_uniform_length _ _ 1), length_seqZ; [lia|].
      intros z _. reflexivity.
    + rewrite lookup_seqZ_lt by lia. f_equal. lia.
    + lia.
  - intros y _. apply row_length.
  - rewrite lookup_seqZ_lt by lia. f_equal. lia.
  - apply raster_index_in_row; assumption.
Qed.

(** A pixel of an extracted area is the pixel of the source at the same
    offset from the corner of the area. *)
Lemma extract_area_pixel img left top w h i j b :
  0 <= i < w -> 0 <= j < h -> 0 <= b < im_bands img ->
  pixel_sample (extract_area img left top w h) i j b
  = pixel_sample img (left + i) (top + j) b.
Proof.
  intros Hi Hj Hb. unfold pixel_sample at 1. simpl.
  apply (raster_sample w h (im_bands img)
           (fun i j b => pixel_sample img (left + i) (top + j) b)); assumption.
Qed.

(** The buffer of a tile holds the tile's rows one after the other: its
    [i]-th pixel is the pixel in column [i mod x_factor] of row
    [i / x_factor] of the tile. *)
Lemma tile_pixels_row_major g img x y i b :
  1 <= x_factor g -> 0 <= i < x_factor g * y_factor g -> 0 <= b < bandCount g ->
  bandCount g = im_bands img ->
  sample (tile_pixels g img x y) (i * bandCount g + b)
  = pixel_sample img (wrap (x * x_factor g) + i mod x_factor g)
                     (wrap (y * y_factor g) + i / x_factor g) b.
Proof.
  intros Hxf Hi Hb Hbands. unfold tile_pixels. simpl. rewrite Hbands in *.
  rewrite (Z.div_mod i (x_factor g)) at 1 by lia.
  replace (x_factor g * (i / x_factor g) + i mod x_factor g)
    with (i / x_factor g * x_factor g + i mod x_factor g) by lia.
  apply (raster_sample (x_factor g) (y_factor g) (im_bands img)
           (fun i j b => pixel_sample img (wrap (x * x_factor g) + i)
                           (wrap (y * y_factor g) + j) b)).
  - apply Z.mod_pos_bound. lia.
  - split; [apply Z.div_pos; lia|]. apply Z.div_lt_upper_bound; lia.
  - exact Hb.
Qed.

(** ** The tile reducer *)

Lemma occ_nil c : occ c [] = 0.
Proof. reflexivity. Qed.

Lemma occ_app c l1 l2 : occ c (l1 ++ l2) = occ c l1 + occ c l2.
Proof. unfold occ. rewrite count_occ_app. lia. Qed.

Lemma occ_one c d : occ c [d] = if Z.eq_dec d c then 1 else 0.
Proof. unfold occ. simpl. destruct (Z.eq_dec d c); reflexivity. Qed.

Lemma occ_nonneg c l : 0 <= occ c l.
Proof. unfold occ. lia. Qed.

Lemma occ_length c l : occ c l <= Z.of_nat (length l).
Proof. unfold occ. pose proof (count_occ_bound Z.eq_dec c l). lia. Qed.

Lemma tally_from_snoc st l c : tally_from st (l ++ [c]) = cast_vote c (tally_from st l).
Proof. unfold tally_from. rewrite fold_left_app. reflexivity. Qed.

Lemma tally_snoc l c : tally (l ++ [c]) = cast_vote c (tally l).
Proof. apply tally_from_snoc. Qed.

Lemma count_of_insert m c n d :
  count_of (<[c := n]> m) d = if Z.eq_dec c d then n else count_of m d.
Proof.
  unfold count_of. destruct (Z.eq_dec c d) as [->|Hne].
  - rewrite lookup_insert_eq. reflexivity.
  - rewrite lookup_insert_ne by exact Hne. reflexivity.
Qed.

(** The loop body either keeps the leader or crowns the colour just seen, and
    the latter only on a strictly greater count. *)
Lemma cast_vote_cases c st :
  let n := wrap (count_of (colors st) c + 1) in
  (domCount st < n /\ dominant (cast_vote c st) = c /\ domCount (cast_vote c st) = n)
  \/ (n <= domCount st /\ dominant (cast_vote c st) = dominant st
      /\ domCount (cast_vote c st) = domCount st).
Proof.
  intros n. unfold cast_vote. fold n.
  destruct (Z.ltb_spec (domCount st) n); simpl; [left | right]; repeat split; lia.
Qed.

Lemma colors_cast_vote c st d :
  count_of (colors (cast_vote c st)) d =
  if Z.eq_dec c d then wrap (count_of (colors st) c + 1) else count_of (colors st) d.
Proof.
  unfold cast_vote. destruct (domCount st <? _); simpl; apply count_of_insert.
Qed.

(** [scan] is [cast_vote] iterated, cut at the first update that reaches [win]. *)
Lemma scan_cons win c rest st :
  scan win (c :: rest) st =
  if (domCount st <? domCount (cast_vote c st)) && (win <=? domCount (cast_vote c st))
  then cast_vote c st
  else scan win rest (cast_vote c st).
Proof.
  simpl. unfold cast_vote.
  destruct (Z.ltb_spec (domCount st) (wrap (count_of (colors st) c + 1))) as [Hlt|Hge]; simpl.
  - destruct (Z.ltb_spec (domCount st) (wrap (count_of (colors st) c + 1))); [|lia].
    simpl. reflexivity.
  - rewrite Z.ltb_irrefl. reflexivity.
Qed.

Lemma tally_inv_nil : tally_inv [] no_votes.
Proof.
  split; simpl.
  - intros c. unfold count_of. rewrite lookup_empty. reflexivity.
  - intros c. rewrite occ_nil. lia.
  - left. split; reflexivity.
Qed.

Lemma tally_inv_step l st c :
  Z.of_nat (length l) + 1 < modulus ->
  tally_inv l st -> tally_inv (l ++ [c]) (cast_vote c st).
Proof.
  intros Hlen [Hcnt Hmax Hfirst].
  assert (Hn : wrap (count_of (colors st) c + 1) = occ c l + 1).
  { rewrite Hcnt. apply wrap_small. unfold in_range.
    pose proof (occ_nonneg c l). pose proof (occ_length c l). lia. }
  pose proof (cast_vote_cases c st) as Hcases. simpl in Hcases. rewrite Hn in Hcases.
  split.
  - intros d. rewrite colors_cast_vote, Hn, occ_app, occ_one.
    destruct (Z.eq_dec c d) as [->|]; [reflexivity|]. rewrite Hcnt. lia.
  - intros d. rewrite occ_app, occ_one. specialize (Hmax d).
    destruct Hcases as [(Hlt & _ & ->) | (Hge & _ & ->)];
      destruct (Z.eq_dec c d) as [->|]; lia.
  - right. destruct Hcases as [(Hlt & -> & ->) | (Hge & -> & ->)].
    + exists l, []. split; [reflexivity|]. split; [reflexivity|].
      intros d. specialize (Hmax d). lia.
    + destruct Hfirst as [[-> H0] | (p & q & -> & Hp & Hless)].
      * rewrite occ_nil in Hge. lia.
      * exists p, (q ++ [c]). rewrite <- app_assoc. split; [reflexivity|].
        split; assumption.
Qed.

Lemma tally_inv_holds l : Z.of_nat (length l) < modulus -> tally_inv l (tally l).
Proof.
  induction l as [|c l IH] using rev_ind; intros Hlen.
  - apply tally_inv_nil.
  - rewrite tally_snoc. rewrite length_app in Hlen. simpl in Hlen.
    apply tally_inv_step; [lia|]. apply IH. lia.
Qed.

Lemma occ_middle d p q : occ d (p ++ d :: q) = occ d p + 1 + occ d q.
Proof.
  change (d :: q) with ([d] ++ q). rewrite !occ_app, occ_one.
  destruct (Z.eq_dec d d); [lia | congruence].
Qed.

(** The leader's count is the number of its pixels, and no colour has more. *)
Lemma tally_leader l :
  l <> [] -> Z.of_nat (length l) < modulus ->
  domCount (tally l) = occ (dominant (tally l)) l
  /\ In (dominant (tally l)) l
  /\ forall c, occ c l <= occ (dominant (tally l)) l.
Proof.
  intros Hne Hlen. destruct (tally_inv_holds l Hlen) as [_ Hmax Hfirst].
  destruct Hfirst as [[-> _] | (p & q & Hl & Hp & _)]; [congruence|].
  pose proof (f_equal (occ (dominant (tally l))) Hl) as Hocc.
  rewrite occ_middle in Hocc.
  pose proof (Hmax (dominant (tally l))) as Hd.
  pose proof (occ_nonneg (dominant (tally l)) q) as Hq.
  assert (Heq : domCount (tally l) = occ (dominant (tally l)) l) by lia.
  split; [exact Heq|]. split.
  - generalize (dominant (tally l)) Hl. intros d ->.
    apply in_or_app. right. left. reflexivity.
  - intros c. rewrite <- Heq. apply Hmax.
Qed.

(** [scan] from a state below the threshold: it returns the tally of a
    prefix, the shortest one whose tally reaches [win]. *)
Lemma scan_from_below win cs st :
  domCount st < win ->
  exists k : nat,
    (k <= length cs)%nat
    /\ scan win cs st = tally_from st (take k cs)
    /\ ((k < length cs)%nat -> win <= domCount (tally_from st (take k cs)))
    /\ forall j : nat, (j < k)%nat -> domCount (tally_from st (take j cs)) < win.
Proof.
  revert st. induction cs as [|c rest IH]; intros st Hlow.
  - exists 0%nat. simpl. split; [lia|]. split; [reflexivity|]. split; intros; lia.
  - rewrite scan_cons.
    assert (Hrec : forall st', domCount st' < win -> st' = cast_vote c st ->
      exists k : nat,
        (k <= length (c :: rest))%nat
        /\ scan win rest st' = tally_from st (take k (c :: rest))
        /\ ((k < length (c :: rest))%nat ->
            win <= domCount (tally_from st (take k (c :: rest))))
        /\ forall j : nat, (j < k)%nat ->
             domCount (tally_from st (take j (c :: rest))) < win).
    { intros st' Hlow' ->.
      destruct (IH (cast_vote c st) Hlow') as (k & Hk & Hscan & Hstop & Hbelow).
      exists (Datatypes.S k). simpl. split; [lia|]. split; [exact Hscan|].
      split; [intros; apply Hstop; lia|].
      intros [|j] Hj; simpl; [exact Hlow | apply Hbelow; lia]. }
    destruct (Z.ltb_spec (domCount st) (domCount (cast_vote c st))) as [Hup|Hnoup];
      [destruct (Z.leb_spec win (domCount (cast_vote c st))) as [Hwin|Hnowin]|]; simpl.
    + exists 1%nat. simpl. split; [lia|]. split; [reflexivity|].
      split; [intros _; exact Hwin|].
      intros j Hj. assert (j = 0%nat) as -> by lia. exact Hlow.
    + apply Hrec; [exact Hnowin | reflexivity].
    + apply Hrec; [lia | reflexivity].
Qed.

Lemma first_vote c : cast_vote c no_votes = mkVotes (<[c := 1]> ∅) c 1.
Proof. unfold cast_vote, count_of. simpl. rewrite lookup_empty. reflexivity. Qed.

(** The same for the loop as [work] starts it.  With [win = 0] (a tile of one
    pixel) the first pixel is still read before the loop is left. *)
Lemma scan_prefix win cs :
  exists k : nat,
    (k <= length cs)%nat
    /\ (cs <> [] -> 1 <= k)%nat
    /\ scan win cs no_votes = tally (take k cs)
    /\ ((k < length cs)%nat -> win <= domCount (tally (take k cs)))
    /\ forall j : nat, (1 <= j < k)%nat -> domCount (tally (take j cs)) < win.
Proof.
  destruct (Z.lt_ge_cases 0 win) as [Hpos|Hzero].
  - destruct (scan_from_below win cs no_votes Hpos) as (k & Hk & Hscan & Hstop & Hbelow).
    exists k. split; [exact Hk|]. split; [|split; [exact Hscan|split; [exact Hstop|]]].
    + intros Hne. destruct k as [|k]; [|lia].
      destruct cs as [|c rest]; [congruence|]. simpl in Hstop.
      specialize (Hstop ltac:(lia)). simpl in Hstop. lia.
    + intros j Hj. apply Hbelow. lia.
  - destruct cs as [|c rest].
    + exists 0%nat. simpl. split; [lia|]. split; [congruence|]. split; [reflexivity|].
      split; intros; lia.
    + exists 1%nat. split; [simpl; lia|]. split; [lia|]. split; [|split].
      * rewrite scan_cons, first_vote. simpl.
        destruct (Z.leb_spec win 1); [|lia].
        unfold tally, tally_from. simpl. rewrite first_vote. reflexivity.
      * intros _. unfold tally, tally_from. simpl. rewrite first_vote. simpl. lia.
      * intros j Hj. lia.
Qed.

(** ** Packing and unpacking a colour key *)

Lemma sample_is_byte p i : Forall is_byte p -> is_byte (sample p i).
Proof.
  intros Hp. unfold sample. destruct (i <? 0); [unfold is_byte; lia|].
  destruct (nth_in_or_default (Z.to_nat i) p 0) as [Hin | ->]; [|unfold is_byte; lia].
  rewrite List.Forall_forall in Hp. apply Hp, Hin.
Qed.

Ltac byte_blast :=
  unfold is_byte, wrap, modulus in *;
  repeat match goal with
         | H : 0 <= ?v < 256 |- _ =>
             is_var v; rewrite <- (Z.mod_small v (2 ^ 8)) by lia; clear H
         end;
  change 255 with (Z.ones 8);
  rewrite <- ?Z.land_ones by lia;
  Z.bitblast.

Lemma key_bands_1 s0 :
  is_byte s0 ->
  Z.land (Z.shiftr (Z.lor 0 (wrap (Z.shiftl s0 0))) 0) 255 = s0.
Proof. intros. byte_blast. Qed.

Lemma key_bands_2 s0 s1 :
  is_byte s0 -> is_byte s1 ->
  let key := Z.lor (Z.lor 0 (wrap (Z.shiftl s0 8))) (wrap (Z.shiftl s1 0)) in
  Z.land (Z.shiftr key 8) 255 = s0 /\ Z.land (Z.shiftr key 0) 255 = s1.
Proof. intros H0 H1 key. subst key. split; byte_blast. Qed.

Lemma key_bands_3 s0 s1 s2 :
  is_byte s0 -> is_byte s1 -> is_byte s2 ->
  let key := Z.lor (Z.lor (Z.lor 0 (wrap (Z.shiftl s0 16))) (wrap (Z.shiftl s1 8)))
                   (wrap (Z.shiftl s2 0)) in
  Z.land (Z.shiftr key 16) 255 = s0 /\ Z.land (Z.shiftr key 8) 255 = s1
  /\ Z.land (Z.shiftr key 0) 255 = s2.
Proof. intros H0 H1 H2 key. subst key. repeat apply conj; byte_blast. Qed.

Lemma key_bands_4 s0 s1 s2 s3 :
  is_byte s0 -> is_byte s1 -> is_byte s2 -> is_byte s3 ->
  let key := Z.lor (Z.lor (Z.lor (Z.lor 0 (wrap (Z.shiftl s0 24))) (wrap (Z.shiftl s1 16)))
                          (wrap (Z.shiftl s2 8)))
                   (wrap (Z.shiftl s3 0)) in
  Z.land (Z.shiftr key 24) 255 = s0 /\ Z.land (Z.shiftr key 16) 255 = s1
  /\ Z.land (Z.shiftr key 8) 255 = s2 /\ Z.land (Z.shiftr key 0) 255 = s3.
Proof. intros H0 H1 H2 H3 key. subst key. repeat apply conj; byte_blast. Qed.

(** With at most four bands, unpacking the key of pixel [i] gives back the
    samples of pixel [i]. *)
Lemma band_of_color_at g pixels i b :
  bandCount g <= 4 -> Forall is_byte pixels -> 0 <= b < bandCount g ->
  band_of g (color_at g pixels i) b = sample pixels (wrap (i * bandCount g + b)).
Proof.
  intros Hbc Hp Hb. unfold band_of, color_at.
  assert (Hs : forall k, is_byte (sample pixels k)) by (intros; apply sample_is_byte, Hp).
  assert (Hcases : bandCount g = 1 \/ bandCount g = 2 \/ bandCount g = 3 \/ bandCount g = 4)
    by lia.
  destruct Hcases as [E | [E | [E | E]]]; rewrite E in *.
  - assert (b = 0) as -> by lia. change (seqZ 0 1) with [0]. cbn [fold_left].
    apply key_bands_1, Hs.
  - change (seqZ 0 2) with [0; 1]. cbn [fold_left].
    pose proof (key_bands_2 _ _ (Hs (wrap (i * 2 + 0))) (Hs (wrap (i * 2 + 1)))) as K.
    cbv zeta in K. destruct K as (K0 & K1).
    assert (Hb' : b = 0 \/ b = 1) by lia. destruct Hb' as [-> | ->]; assumption.
  - change (seqZ 0 3) with [0; 1; 2]. cbn [fold_left].
    pose proof (key_bands_3 _ _ _ (Hs (wrap (i * 3 + 0))) (Hs (wrap (i * 3 + 1)))
                  (Hs (wrap (i * 3 + 2)))) as K.
    cbv zeta in K. destruct K as (K0 & K1 & K2).
    assert (Hb' : b = 0 \/ b = 1 \/ b = 2) by lia.
    destruct Hb' as [-> | [-> | ->]]; assumption.
  - change (seqZ 0 4) with [0; 1; 2; 3]. cbn [fold_left].
    pose proof (key_bands_4 _ _ _ _ (Hs (wrap (i * 4 + 0))) (Hs (wrap (i * 4 + 1)))
                  (Hs (wrap (i * 4 + 2))) (Hs (wrap (i * 4 + 3)))) as K.
    cbv zeta in K. destruct K as (K0 & K1 & K2 & K3).
    assert (Hb' : b = 0 \/ b = 1 \/ b = 2 \/ b = 3) by lia.
    destruct Hb' as [-> | [-> | [-> | ->]]]; assumption.
Qed.

(** ** The reducer on a tile *)

Lemma tile_size_range g : 0 <= tile_size g < modulus.
Proof. apply wrap_range. Qed.

Lemma tile_colors_length g pixels :
  length (tile_colors g pixels) = Z.to_nat (tile_size g).
Proof. unfold tile_colors. rewrite length_fmap, length_seqZ. reflexivity. Qed.

Lemma tile_colors_bound g pixels k :
  Z.of_nat (length (take k (tile_colors g pixels))) < modulus.
Proof.
  rewrite length_take, tile_colors_length. pose proof (tile_size_range g). lia.
Qed.

Lemma In_tile_colors g pixels c :
  In c (tile_colors g pixels) ->
  exists i, 0 <= i < tile_size g /\ c = color_at g pixels i.
Proof.
  intros Hin. apply list_elem_of_In in Hin. unfold tile_colors in Hin.
  apply list_elem_of_fmap in Hin. destruct Hin as (i & -> & Hi).
  apply elem_of_seqZ in Hi. exists i. split; [lia | reflexivity].
Qed.

Lemma In_take {A} (x : A) k l : In x (take k l) -> In x l.
Proof. intros Hin. rewrite <- (take_drop k l). apply in_or_app. left. exact Hin. Qed.

(** The scanned part of a tile: [find_dominant] is the leader of the tally
    of a non-empty prefix of the tile's pixels. *)
Lemma find_dominant_prefix g pixels :
  1 <= tile_size g ->
  exists k : nat,
    (1 <= k <= length (tile_colors g pixels))%nat
    /\ find_dominant g pixels = dominant (tally (take k (tile_colors g pixels)))
    /\ ((k < length (tile_colors g pixels))%nat ->
        win_of g <= domCount (tally (take k (tile_colors g pixels))))
    /\ forall j : nat, (1 <= j < k)%nat ->
         domCount (tally (take j (tile_colors g pixels))) < win_of g.
Proof.
  intros Hsize.
  destruct (scan_prefix (win_of g) (tile_colors g pixels))
    as (k & Hk & Hk1 & Hscan & Hstop & Hbelow).
  exists k. split; [|split; [|split]].
  - split; [|exact Hk]. apply Hk1. intros Hnil.
    apply (f_equal (@length Z)) in Hnil. rewrite tile_colors_length in Hnil.
    simpl in Hnil. lia.
  - unfold find_dominant. rewrite Hscan. reflexivity.
  - exact Hstop.
  - exact Hbelow.
Qed.




(** The scanned pixels of a tile end with a leader that was the first colour
    to reach its count. *)
Lemma scan_first_to_reach win cs :
  cs <> [] -> Z.of_nat (length cs) < modulus ->
  let st := scan win cs no_votes in
  exists p q r,
    cs = p ++ dominant st :: q ++ r
    /\ occ (dominant st) p + 1 = domCount st
    /\ (forall c, occ c p < domCount st)
    /\ (forall c, occ c (p ++ dominant st :: q) <= domCount st).
Proof.
  intros Hne Hlen st.
  destruct (scan_prefix win cs) as (k & Hk & Hk1 & Hscan & _ & _).
  assert (Hlen' : Z.of_nat (length (take k cs)) < modulus) by (rewrite length_take; lia).
  destruct (tally_inv_holds (take k cs) Hlen') as [_ Hmax Hfirst].
  fold st in Hscan. rewrite <- Hscan in Hmax, Hfirst.
  destruct Hfirst as [[Hnil _] | (p & q & Hl & Hp & Hless)].
  - apply (f_equal (@length Z)) in Hnil. rewrite length_take in Hnil. simpl in Hnil.
    specialize (Hk1 Hne). destruct cs; [congruence | simpl in *; lia].
  - exists p, q, (drop k cs). split; [|split; [exact Hp | split; [exact Hless|]]].
    + rewrite <- (take_drop k cs) at 1. rewrite Hl, <- app_assoc. reflexivity.
    + intros c. rewrite <- Hl. apply Hmax.
Qed.

(** C4.  One pixel replaces the leader only when its colour's updated count
    is strictly greater than [domCount]; on a count that is not greater the
    leader and its count stay.  So the answer for a tile is the colour that
    was the first to reach the final [domCount] among the scanned pixels, and
    a tile with the keys [A; A; B; B] is reduced to [A]. *)
Theorem reducer_first_to_count_wins :
  (forall c st,
     let updated := count_of (colors (cast_vote c st)) c in
     (domCount st < updated ->
      dominant (cast_vote c st) = c /\ domCount (cast_vote c st) = updated)
     /\ (updated <= domCount st ->
         dominant (cast_vote c st) = dominant st
         /\ domCount (cast_vote c st) = domCount st))
  /\ (forall g pixels,
        1 <= tile_size g ->
        let st := scan (win_of g) (tile_colors g pixels) no_votes in
        find_dominant g pixels = dominant st
        /\ exists p q r,
             tile_colors g pixels = p ++ dominant st :: q ++ r
             /\ occ (dominant st) p + 1 = domCount st
             /\ (forall c, occ c p < domCount st)
             /\ (forall c, occ c (p ++ dominant st :: q) <= domCount st))
  /\ (forall g pixels A B,
        tile_colors g pixels = [A; A; B; B] -> find_dominant g pixels = A).
Proof.
  split; [|split].
  - intros c st updated. subst updated. rewrite colors_cast_vote.
    destruct (Z.eq_dec c c); [|congruence].
    pose proof (cast_vote_cases c st) as Hc. cbv zeta in Hc.
    split; intros Hcmp; destruct Hc as [(H1 & H2 & H3) | (H1 & H2 & H3)];
      first [lia | split; assumption].
  - intros g pixels Hsize st. split; [reflexivity|].
    apply scan_first_to_reach.
    + intros Hnil. apply (f_equal (@length Z)) in Hnil.
      rewrite tile_colors_length in Hnil. simpl in Hnil. lia.
    + rewrite tile_colors_length. pose proof (tile_size_range g). lia.
  - intros g pixels A B Hcs.
    assert (Hsize : tile_size g = 4).
    { pose proof (tile_colors_length g pixels) as Hl. rewrite Hcs in Hl. simpl in Hl.
      pose proof (tile_size_range g). lia. }
    unfold find_dominant, win_of. rewrite Hcs, Hsize. change (4 / 2) with 2.
    rewrite scan_cons, first_vote.
    cbn [domCount no_votes andb Z.ltb Z.leb Z.compare Pos.compare Pos.compare_cont].
    rewrite scan_cons. unfold cast_vote. cbn [colors domCount].
    rewrite count_of_insert. destruct (Z.eq_dec A A); [|congruence].
    reflexivity.
Qed.

(** A 2 x 2 single-band tile [7 7 / 9 9]. *)
Lemma reducer_first_to_count_wins_witness :
  let g := mkGlobals 2 2 1 in
  let pixels := [7; 7; 9; 9] in
  tile_colors g pixels = [7; 7; 9; 9] /\ find_dominant g pixels = 7.
Proof.
  intros g pixels.
  assert (H : tile_colors g pixels = [7; 7; 9; 9]) by reflexivity.
  split; [exact H|].
  exact (proj2 (proj2 reducer_first_to_count_wins) g pixels 7 9 H).
Defined.

(** ** What [work] leaves in the output buffer *)

Lemma length_store out i v : length (store out i v) = length out.
Proof. apply length_insert. Qed.

Lemma sample_store out i v k :
  0 <= i -> 0 <= k ->
  sample (store out i v) k
  = if (k =? i) && (i <? Z.of_nat (length out)) then v else sample out k.
Proof.
  intros Hi Hk. unfold sample, store.
  destruct (Z.ltb_spec k 0) as [|_]; [lia|]. rewrite !nth_lookup.
  destruct (Z.eqb_spec k i) as [-> | Hne]; simpl.
  - destruct (Z.ltb_spec i (Z.of_nat (length out))) as [Hin | Hout].
    + rewrite list_lookup_insert_eq by lia. reflexivity.
    + rewrite list_insert_ge by lia. reflexivity.
  - rewrite list_lookup_insert_ne by lia. reflexivity.
Qed.

(** Storing [F b] at [base + b] for the bands [b] of a list. *)
Lemma sample_stores (F : Z -> Z) base bs : forall out k,
  0 <= base -> 0 <= k ->
  Forall (fun b => 0 <= b /\ base + b < Z.of_nat (length out)
                   /\ base + b < modulus) bs ->
  length (fold_left (fun o b => store o (wrap (base + b)) (F b)) bs out) = length out
  /\ sample (fold_left (fun o b => store o (wrap (base + b)) (F b)) bs out) k
     = if bool_decide (k - base ∈ bs) then F (k - base) else sample out k.
Proof.
  induction bs as [|b bs IH]; intros out k Hbase Hk Hbs.
  - simpl. split; reflexivity.
  - apply Forall_cons in Hbs. destruct Hbs as [(Hb0 & Hblen & Hbmod) Hbs].
    cbn [fold_left]. rewrite (wrap_small (base + b)) by (unfold in_range; lia).
    destruct (IH (store out (base + b) (F b)) k Hbase Hk) as [Hlen Hsample].
    { rewrite length_store. exact Hbs. }
    rewrite length_store in Hlen. split; [exact Hlen|].
    rewrite Hsample, sample_store by lia.
    destruct (decide (k - base ∈ bs)) as [Hin | Hnin].
    + rewrite !bool_decide_eq_true_2; [reflexivity | | exact Hin].
      apply list_elem_of_further, Hin.
    + rewrite (bool_decide_eq_false_2 _ Hnin).
      destruct (Z.eqb_spec k (base + b)) as [-> | Hne]; simpl.
      * destruct (Z.ltb_spec (base + b) (Z.of_nat (length out))); [|lia].
        replace (base + b - base) with b by lia.
        rewrite bool_decide_eq_true_2 by apply list_elem_of_here. reflexivity.
      * rewrite bool_decide_eq_false_2; [reflexivity|].
        intros Hin. apply elem_of_cons in Hin. destruct Hin as [Heq | Hin]; [lia|].
        contradiction.
Qed.

(** [paint] fills the [bandCount] entries of one output pixel and nothing else. *)
Lemma paint_sample g xt x y key out k :
  let base := (y * xt + x) * bandCount g in
  0 <= base -> 0 <= k ->
  base + bandCount g <= Z.of_nat (length out) -> base + bandCount g <= modulus ->
  length (paint g xt x y key out) = length out
  /\ sample (paint g xt x y key out) k
     = if (base <=? k) && (k <? base + bandCount g)
       then band_of g key (k - base) else sample out k.
Proof.
  intros base Hbase Hk Hlen Hmod. unfold paint. fold base.
  destruct (sample_stores (band_of g key) base (seqZ 0 (bandCount g)) out k Hbase Hk)
    as [Hl Hs].
  { apply List.Forall_forall. intros b Hb. apply list_elem_of_In, elem_of_seqZ in Hb. lia. }
  split; [exact Hl|]. rewrite Hs.
  destruct (Z.leb_spec base k), (Z.ltb_spec k (base + bandCount g)); simpl;
    first [ rewrite bool_decide_eq_true_2 by (apply elem_of_seqZ; lia); reflexivity
          | rewrite bool_decide_eq_false_2 by (rewrite elem_of_seqZ; lia); reflexivity ].
Qed.

(** A buffer passed through writers that each either set entry [k] to a
    value of their own or leave it alone. *)
Lemma fold_writers {T} (W : list Z -> T -> list Z) (P : T -> bool) (V : T -> Z)
    (ts : list T) (k : Z) (n : nat) :
  (forall t out, t ∈ ts -> length out = n ->
     length (W out t) = n
     /\ sample (W out t) k = if P t then V t else sample out k) ->
  forall out, length out = n ->
    length (fold_left W ts out) = n
    /\ ((forall t, t ∈ ts -> P t = false) -> sample (fold_left W ts out) k = sample out k)
    /\ (forall v, (exists t, t ∈ ts /\ P t = true) ->
                  (forall t, t ∈ ts -> P t = true -> V t = v) ->
                  sample (fold_left W ts out) k = v).
Proof.
  induction ts as [|t ts IH]; intros HW out Hout.
  - simpl. split; [exact Hout|]. split; [reflexivity|].
    intros v (t & Ht & _). apply elem_of_nil in Ht. contradiction.
  - simpl. destruct (HW t out (list_elem_of_here _ _) Hout) as [Hlen Hs].
    destruct (IH (fun t' o Ht' => HW t' o (list_elem_of_further _ _ _ Ht'))
                 (W out t) Hlen) as (Hl & Hnone & Hsome).
    split; [exact Hl|]. split.
    + intros Hall. rewrite Hnone by (intros t' Ht'; apply Hall, list_elem_of_further, Ht').
      rewrite Hs, (Hall t) by apply list_elem_of_here. reflexivity.
    + intros v Hex Hval.
      destruct (existsb P ts) eqn:Hany.
      * apply existsb_exists in Hany. destruct Hany as (t' & Ht' & HP).
        apply list_elem_of_In in Ht'. apply Hsome.
        -- exists t'. split; assumption.
        -- intros t'' Ht'' HP''. apply Hval; [apply list_elem_of_further, Ht'' | exact HP''].
      * rewrite Hnone.
        -- destruct Hex as (t' & Ht' & HP). apply elem_of_cons in Ht'.
           destruct Ht' as [-> | Ht'].
           ++ rewrite Hs, HP. apply Hval; [apply list_elem_of_here | exact HP].
           ++ exfalso. apply not_true_iff_false in Hany. apply Hany.
              apply existsb_exists. exists t'. split; [apply list_elem_of_In, Ht' | exact HP].
        -- intros t' Ht'. destruct (P t') eqn:HP; [|reflexivity].
           exfalso. apply not_true_iff_false in Hany. apply Hany.
           apply existsb_exists. exists t'. split; [apply list_elem_of_In, Ht' | exact HP].
Qed.

Lemma fold_left_nested {A X Y} (F : A -> X -> Y -> A) (xs : list X) (ys : list Y) (a : A) :
  fold_left (fun o x => fold_left (fun o' y => F o' x y) ys o) xs a
  = fold_left (fun o t => F o t.1 t.2) (x ← xs; y ← ys; [(x, y)]) a.
Proof.
  revert a. induction xs as [|x xs IH]; intros a; [reflexivity|].
  rewrite bind_cons, fold_left_app. simpl. rewrite <- IH. f_equal.
  generalize a. clear. induction ys as [|y ys IH]; intros a; [reflexivity|].
  rewrite bind_cons. simpl. apply IH.
Qed.

Lemma tile_index_unique xt bc x y b x0 y0 b0 :
  0 <= x < xt -> 0 <= x0 < xt -> 0 <= y -> 0 <= y0 -> 0 <= b < bc -> 0 <= b0 < bc ->
  (y * xt + x) * bc + b = (y0 * xt + x0) * bc + b0 ->
  x = x0 /\ y = y0 /\ b = b0.
Proof.
  intros Hx Hx0 Hy Hy0 Hb Hb0 Heq.
  assert (Hq : y * xt + x = y0 * xt + x0).
  { rewrite (Z.div_unique ((y * xt + x) * bc + b) bc (y * xt + x) b) by lia.
    rewrite Heq. symmetry. apply Z.div_unique with (r := b0); lia. }
  assert (Hyy : y = y0).
  { rewrite (Z.div_unique (y * xt + x) xt y x) by lia.
    rewrite Hq. symmetry. apply Z.div_unique with (r := x0); lia. }
  subst y0. split; [lia|]. split; [reflexivity|]. nia.
Qed.

Lemma tile_index_bounds xt yt bc x y :
  0 <= x < xt -> 0 <= y < yt -> 0 <= bc ->
  0 <= (y * xt + x) * bc /\ (y * xt + x) * bc + bc <= xt * yt * bc.
Proof.
  intros Hx Hy Hbc.
  assert (0 <= y * xt) by (apply Z.mul_nonneg_nonneg; lia).
  assert ((y + 1) * xt <= yt * xt) by (apply Z.mul_le_mono_nonneg_r; lia).
  split; [apply Z.mul_nonneg_nonneg; lia|].
  replace ((y * xt + x) * bc + bc) with ((y * xt + x + 1) * bc) by ring.
  replace (xt * yt * bc) with (yt * xt * bc) by ring.
  apply Z.mul_le_mono_nonneg_r; lia.
Qed.

(** After [work], the entries [(y * x_tiles + x) * bandCount + b] of the
    buffer hold the bands of the answer for tile [(x, y)]. *)
Lemma work_writes g img out x y b :
  let xt := wrap (im_width img) / wrap (x_factor g) in
  let yt := wrap (im_height img) / wrap (y_factor g) in
  0 <= x < xt -> 0 <= y < yt -> 0 <= b < bandCount g ->
  xt * yt * bandCount g <= Z.of_nat (length out) ->
  xt * yt * bandCount g <= modulus ->
  sample (work g img out) ((y * xt + x) * bandCount g + b)
  = band_of g (find_dominant g (tile_pixels g img x y)) b.
Proof.
  intros xt yt Hx Hy Hb Hlen Hmod. unfold work. fold xt yt.
  rewrite (fold_left_nested
             (fun o x y => paint g xt x y (find_dominant g (tile_pixels g img x y)) o)).
  set (k := (y * xt + x) * bandCount g + b).
  set (P := fun t : Z * Z =>
              ((t.2 * xt + t.1) * bandCount g <=? k)
              && (k <? (t.2 * xt + t.1) * bandCount g + bandCount g)).
  set (V := fun t : Z * Z =>
              band_of g (find_dominant g (tile_pixels g img t.1 t.2))
                (k - (t.2 * xt + t.1) * bandCount g)).
  assert (Hin : forall t, t ∈ (x ← seqZ 0 xt; y ← seqZ 0 yt; [(x, y)]) ->
                  0 <= t.1 < xt /\ 0 <= t.2 < yt).
  { intros t Ht. apply list_elem_of_bind in Ht. destruct Ht as (x' & Ht & Hx').
    apply list_elem_of_bind in Ht. destruct Ht as (y' & Ht & Hy').
    apply list_elem_of_singleton in Ht. subst t. simpl.
    apply elem_of_seqZ in Hx', Hy'. lia. }
  assert (Hk : 0 <= k).
  { destruct (tile_index_bounds xt yt (bandCount g) x y) as [H0 _]; unfold k; lia. }
  destruct (fold_writers
              (fun o t => paint g xt t.1 t.2 (find_dominant g (tile_pixels g img t.1 t.2)) o)
              P V (x ← seqZ 0 xt; y ← seqZ 0 yt; [(x, y)]) k (length out))
    with (out := out) as (_ & _ & Hsome); [|reflexivity|].
  - intros t o Ht Ho. destruct (Hin t Ht) as [Ht1 Ht2].
    destruct (tile_index_bounds xt yt (bandCount g) t.1 t.2) as [Hlo Hfit]; try lia.
    destruct (paint_sample g xt t.1 t.2 (find_dominant g (tile_pixels g img t.1 t.2)) o k)
      as [Hl Hs]; try lia.
    split; [lia | exact Hs].
  - apply Hsome.
    + exists (x, y). split.
      * apply list_elem_of_bind. exists x. split; [|apply elem_of_seqZ; lia].
        apply list_elem_of_bind. exists y. split; [|apply elem_of_seqZ; lia].
        apply list_elem_of_singleton. reflexivity.
      * unfold P, k. simpl. apply andb_true_iff. split; [apply Z.leb_le | apply Z.ltb_lt]; lia.
    + intros t Ht HP. destruct (Hin t Ht) as [Ht1 Ht2].
      unfold P in HP. apply andb_true_iff in HP. destruct HP as [Hlo Hhi].
      apply Z.leb_le in Hlo. apply Z.ltb_lt in Hhi.
      destruct (tile_index_unique xt (bandCount g) t.1 t.2
                  (k - (t.2 * xt + t.1) * bandCount g) x y b) as (E1 & E2 & E3);
        try lia.
      unfold V. rewrite E3, E1, E2. reflexivity.
Qed.

(** ** The written pixel is a pixel of the tile *)

Lemma raster_Forall (P : Z -> Prop) w h bands f :
  (forall i j b, P (f i j b)) -> Forall P (raster w h bands f).
Proof.
  intros Hf. apply List.Forall_forall. intros v Hv. apply list_elem_of_In in Hv.
  unfold raster in Hv.
  apply list_elem_of_bind in Hv. destruct Hv as (j & Hv & _).
  apply list_elem_of_bind in Hv. destruct Hv as (i & Hv & _).
  apply list_elem_of_bind in Hv. destruct Hv as (b & Hv & _).
  apply list_elem_of_singleton in Hv. subst v. apply Hf.
Qed.

Lemma tile_pixels_bytes g img x y :
  Forall is_byte (im_data img) -> Forall is_byte (tile_pixels g img x y).
Proof.
  intros Hbytes. unfold tile_pixels. simpl. apply raster_Forall.
  intros i j b. apply sample_is_byte, Hbytes.
Qed.

Lemma find_dominant_occurs g pixels :
  1 <= tile_size g ->
  exists i, 0 <= i < tile_size g /\ find_dominant g pixels = color_at g pixels i.
Proof.
  intros Hsize.
  destruct (find_dominant_prefix g pixels Hsize) as (k & Hk & Hdom & _ & _).
  assert (Hne : take k (tile_colors g pixels) <> []).
  { intros Hnil. apply (f_equal (@length Z)) in Hnil.
    rewrite length_take in Hnil. simpl in Hnil. lia. }
  destruct (tally_leader _ Hne (tile_colors_bound g pixels k)) as (_ & Hin & _).
  apply In_take, In_tile_colors in Hin. rewrite <- Hdom in Hin. exact Hin.
Qed.

(** C10.  On a non-empty tile of an image with at most four bands, the key
    the reducer ends with is the key of one of the tile's pixels, and the
    samples unpacked from it are the samples of that pixel; hence the initial
    value 0 of [dominant] is only emitted for a tile holding a pixel of key 0.
    Accordingly the output pixel that [work] writes for a tile carries the
    samples of one pixel of that tile. *)
Theorem reducer_emits_tile_colour :
  (forall g pixels,
     1 <= tile_size g -> bandCount g <= 4 -> Forall is_byte pixels ->
     (exists i, 0 <= i < tile_size g
                /\ find_dominant g pixels = color_at g pixels i
                /\ forall b, 0 <= b < bandCount g ->
                     band_of g (find_dominant g pixels) b
                     = sample pixels (wrap (i * bandCount g + b)))
     /\ ((forall i, 0 <= i < tile_size g -> color_at g pixels i <> 0) ->
         find_dominant g pixels <> 0))
  /\ (forall g img out x y,
        let xt := wrap (im_width img) / wrap (x_factor g) in
        let yt := wrap (im_height img) / wrap (y_factor g) in
        1 <= tile_size g -> bandCount g <= 4 -> Forall is_byte (im_data img) ->
        0 <= x < xt -> 0 <= y < yt ->
        xt * yt * bandCount g <= Z.of_nat (length out) ->
        xt * yt * bandCount g <= modulus ->
        exists i, 0 <= i < tile_size g
                  /\ forall b, 0 <= b < bandCount g ->
                       sample (work g img out) ((y * xt + x) * bandCount g + b)
                       = sample (tile_pixels g img x y) (wrap (i * bandCount g + b))).
Proof.
  split.
  - intros g pixels Hsize Hbc Hbytes. split.
    + destruct (find_dominant_occurs g pixels Hsize) as (i & Hi & Heq).
      exists i. split; [exact Hi|]. split; [exact Heq|].
      intros b Hb. rewrite Heq. apply band_of_color_at; assumption.
    + intros Hnz. destruct (find_dominant_occurs g pixels Hsize) as (i & Hi & ->).
      apply Hnz, Hi.
  - intros g img out x y xt yt Hsize Hbc Hbytes Hx Hy Hlen Hmod. subst xt yt.
    destruct (find_dominant_occurs g (tile_pixels g img x y) Hsize) as (i & Hi & Heq).
    exists i. split; [exact Hi|]. intros b Hb.
    rewrite (work_writes g img out x y b Hx Hy Hb Hlen Hmod), Heq.
    apply band_of_color_at; [exact Hbc | apply tile_pixels_bytes, Hbytes | exact Hb].
Qed.

(** A 2 x 1 tile of a three-band image. *)
Lemma reducer_emits_tile_colour_witness :
  let g := mkGlobals 2 1 3 in
  let pixels := [10; 20; 30; 40; 50; 60] in
  1 <= tile_size g /\ bandCount g <= 4 /\ Forall is_byte pixels
  /\ (exists i, 0 <= i < tile_size g
                /\ find_dominant g pixels = color_at g pixels i
                /\ forall b, 0 <= b < bandCount g ->
                     band_of g (find_dominant g pixels) b
                     = sample pixels (wrap (i * bandCount g + b))).
Proof.
  intros g pixels.
  assert (H1 : 1 <= tile_size g) by (vm_compute; discriminate).
  assert (H2 : bandCount g <= 4) by (simpl; lia).
  assert (H3 : Forall is_byte pixels) by (repeat constructor; unfold is_byte; lia).
  split; [exact H1|]. split; [exact H2|]. split; [exact H3|].
  exact (proj1 (proj1 reducer_emits_tile_colour g pixels H1 H2 H3)).
Defined.

(** ** Whether the answer is a most frequent colour *)

Lemma occ_two c d l : c <> d -> occ c l + occ d l <= Z.of_nat (length l).
Proof.
  intros Hne. induction l as [|x l IH]; [rewrite !occ_nil; simpl; lia|].
  change (x :: l) with ([x] ++ l). rewrite !occ_app, !occ_one, length_app.
  destruct (Z.eq_dec x c), (Z.eq_dec x d); simpl length; lia.
Qed.

Lemma occ_take c k l : occ c (take k l) <= occ c l.
Proof.
  rewrite <- (take_drop k l) at 2. rewrite occ_app.
  pose proof (occ_nonneg c (drop k l)). lia.
Qed.

(** On a tile with an even number of pixels the early exit is harmless: no
    colour has more pixels in the tile than the one the reducer answers. *)
Lemma even_tile_most_frequent g pixels :
  1 <= tile_size g -> tile_size g mod 2 = 0 ->
  forall c, occ c (tile_colors g pixels)
            <= occ (find_dominant g pixels) (tile_colors g pixels).
Proof.
  intros Hsize Heven c.
  destruct (find_dominant_prefix g pixels Hsize) as (k & Hk & Hdom & Hstop & _).
  set (cs := tile_colors g pixels) in *. set (d := find_dominant g pixels) in *.
  assert (Hne : take k cs <> []).
  { intros Hnil. apply (f_equal (@length Z)) in Hnil.
    rewrite length_take in Hnil. simpl in Hnil. lia. }
  destruct (tally_leader _ Hne (tile_colors_bound g pixels k)) as (Hcount & _ & Hmax).
  fold cs in Hcount, Hmax. rewrite <- Hdom in Hcount, Hmax.
  destruct (Nat.eq_dec k (length cs)) as [Hall | Hpart].
  - rewrite Hall, firstn_all in Hmax. apply Hmax.
  - destruct (Z.eq_dec c d) as [-> | Hcd]; [lia|].
    specialize (Hstop ltac:(lia)). rewrite Hcount in Hstop.
    pose proof (occ_take d k cs) as Ht. pose proof (occ_two c d cs Hcd) as H2.
    unfold cs in H2 at 3. rewrite tile_colors_length in H2.
    unfold win_of in Hstop.
    assert (tile_size g = 2 * (tile_size g / 2)) by (apply Z.div_exact; lia).
    lia.
Qed.

(** C1.  On a tile with an odd number of pixels the threshold [size / 2] is
    below a majority.  For factors 3 x 1 the tile [7 9 9] is reduced to 7,
    the colour of one pixel, while 9 covers two: both [work] on that tile and
    the whole program on the 3 x 1 image answer 7. *)
Theorem odd_tile_minority_colour_wins :
  let g := mkGlobals 3 1 1 in
  let cs := tile_colors g (tile_pixels g img_7_9_9 0 0) in
  cs = [7; 9; 9]
  /\ occ 7 cs = 1 /\ occ 9 cs = 2
  /\ find_dominant g (tile_pixels g img_7_9_9 0 0) = 7
  /\ work g img_7_9_9 [0] = [7]
  /\ main 8 env_7_9_9 ["aniniscale"; "3"; "1"; "in.png"; "out.png"]%string
     = mkRun [Opened "in.png"; Extracted 0 0 3 1; Reduced 0 0;
              Saved "out.png" (mkImage 1 1 1 [7])] (Exit 0).
Proof. vm_compute. repeat split; reflexivity. Qed.

(** ** The planner *)

Lemma bind_Ok {A B} (m : res A) (k : A -> res B) a : m = Ok a -> (m ≫= k) = k a.
Proof. intros ->. reflexivity. Qed.

Lemma bind_Ok_inv {A B} (m : res A) (k : A -> res B) b :
  (m ≫= k) = Ok b -> exists a, m = Ok a /\ k a = Ok b.
Proof.
  destruct m as [a| |]; try discriminate.
  intros Hk. exists a. split; [reflexivity | exact Hk].
Qed.

Lemma udiv_Ok_inv a b q : udiv a b = Ok q -> b <> 0 /\ q = a / b.
Proof.
  unfold udiv. destruct (Z.eqb_spec b 0); [discriminate|].
  intros [= <-]. split; [assumption | reflexivity].
Qed.

Lemma udiv_nonzero a b : b <> 0 -> udiv a b = Ok (a / b).
Proof. intros Hb. unfold udiv. destruct (Z.eqb_spec b 0); [contradiction | reflexivity]. Qed.

Lemma make_even_spec w :
  0 <= w < modulus ->
  0 <= make_even w < modulus /\ make_even w mod 2 = 0 /\ make_even w <= w + 1.
Proof.
  intros Hw. unfold make_even, wrap, modulus in *.
  destruct (Z.eqb_spec (w mod 2) 0) as [He|Ho]; simpl.
  - lia.
  - assert (Hodd : w mod 2 = 1) by (pose proof (Z.mod_pos_bound w 2); lia).
    rewrite Hodd.
    destruct (Z.eq_dec (w + 1) (2 ^ 32)) as [Htop|Hnot].
    + rewrite Htop, Z.mod_same by lia. change (0 mod 2) with 0. lia.
    + rewrite (Z.mod_small (w + 1)) by lia.
      replace (w + 1) with (w + 1 * 2 - 1) at 2 by lia.
      assert ((w + 1) mod 2 = 0).
      { rewrite <- Z.add_mod_idemp_l, Hodd by lia. reflexivity. }
      lia.
Qed.

(** The decrement loop on an even count ends on the largest even number that
    both tile counts allow, or on the count itself if that is small enough. *)
Lemma cut_workers_even (n : nat) : forall fuel xt yt,
  0 <= xt -> 0 <= yt -> 2 * Z.of_nat n < modulus -> (n <= fuel)%nat ->
  cut_workers fuel (2 * Z.of_nat n) xt yt
  = Ok (if 2 * Z.of_nat n <=? Z.min xt yt then 2 * Z.of_nat n
        else 2 * (Z.min xt yt / 2)).
Proof.
  induction n as [|n IH]; intros fuel xt yt Hxt Hyt Hrange Hfuel; unfold cut_workers.
  - rewrite while_done.
    + destruct (Z.leb_spec (2 * Z.of_nat 0) (Z.min xt yt)); [reflexivity | lia].
    + apply orb_false_iff. split; apply Z.ltb_ge; lia.
  - destruct ((xt <? 2 * Z.of_nat (S n)) || (yt <? 2 * Z.of_nat (S n))) eqn:Hcond.
    + destruct fuel as [|fuel]; [lia|]. rewrite while_step by exact Hcond.
      replace (wrap (2 * Z.of_nat (S n) - 2)) with (2 * Z.of_nat n)
        by (symmetry; rewrite wrap_small; unfold in_range; lia).
      fold (cut_workers fuel (2 * Z.of_nat n) xt yt).
      rewrite IH by lia. f_equal.
      apply orb_true_iff in Hcond.
      destruct (Z.leb_spec (2 * Z.of_nat (S n)) (Z.min xt yt)) as [Hle|Hgt].
      * destruct Hcond as [Hc|Hc]; apply Z.ltb_lt in Hc; lia.
      * destruct (Z.leb_spec (2 * Z.of_nat n) (Z.min xt yt)) as [Hle'|Hgt']; [|reflexivity].
        assert (Z.min xt yt / 2 = Z.of_nat n); [|lia].
        symmetry. apply Z.div_unique with (r := Z.min xt yt - 2 * Z.of_nat n); lia.
    + rewrite while_done by exact Hcond. f_equal.
      apply orb_false_iff in Hcond. destruct Hcond as [Hx Hy].
      apply Z.ltb_ge in Hx, Hy.
      destruct (Z.leb_spec (2 * Z.of_nat (S n)) (Z.min xt yt)); [reflexivity | lia].
Qed.

Lemma plan_workers_spec fuel H xt yt :
  0 <= xt -> 0 <= yt -> (rounds H <= fuel)%nat ->
  plan_workers fuel H xt yt = Ok (workers_for H xt yt).
Proof.
  intros Hxt Hyt Hfuel. unfold plan_workers, workers_for.
  destruct (make_even_spec (wrap H) (wrap_range H)) as (Hr & Heven & Hle).
  set (e := make_even (wrap H)) in *.
  assert (He : e = 2 * Z.of_nat (Z.to_nat (e / 2))).
  { rewrite Z2Nat.id by (apply Z.div_pos; lia).
    rewrite (Z.div_mod e 2) at 1 by lia. lia. }
  rewrite He at 1.
  erewrite bind_Ok; [reflexivity|].
  rewrite cut_workers_even; try lia.
  - rewrite <- He. reflexivity.
  - unfold rounds in Hfuel.
    assert (e / 2 <= wrap H / 2 + 1); [|lia].
    replace (wrap H / 2 + 1) with ((wrap H + 1 * 2) / 2) by (rewrite Z.div_add by lia; lia).
    apply Z.div_le_mono; lia.
Qed.

Lemma workers_for_floor H xt yt : 0 <= xt -> 0 <= yt -> 1 <= workers_for H xt yt.
Proof.
  intros Hxt Hyt. unfold workers_for, bring_back_one.
  destruct (make_even_spec (wrap H) (wrap_range H)) as (Hr & _ & _).
  set (e := make_even (wrap H)) in *.
  assert (0 <= Z.min xt yt / 2) by (apply Z.div_pos; lia).
  destruct (e <=? Z.min xt yt);
    match goal with |- context [0 =? ?v] => destruct (Z.eqb_spec 0 v) end; lia.
Qed.

Lemma tiles_nonneg a b : 0 <= wrap a / wrap b.
Proof.
  pose proof (wrap_range a) as [Ha _]. pose proof (wrap_range b) as [Hb _].
  apply Z_div_nonneg_nonneg; assumption.
Qed.

Lemma plan_workers_Ok_inv fuel H xt yt wc :
  0 <= xt -> 0 <= yt -> plan_workers fuel H xt yt = Ok wc -> wc = workers_for H xt yt.
Proof.
  intros Hxt Hyt Hwc.
  pose proof (plan_workers_spec (Nat.max fuel (rounds H)) H xt yt Hxt Hyt ltac:(lia))
    as Hspec.
  unfold plan_workers in Hwc, Hspec. apply bind_Ok_inv in Hwc.
  destruct Hwc as (w0 & Hcut & [= <-]).
  rewrite (bind_Ok _ _ w0) in Hspec.
  - injection Hspec as <-. reflexivity.
  - unfold cut_workers in *. eapply while_more_fuel; [|exact Hcut]. lia.
Qed.

Lemma planner_workerCount fuel g H width height p :
  planner fuel g H width height = Ok p ->
  workerCount p
  = workers_for H (wrap width / wrap (x_factor g)) (wrap height / wrap (y_factor g)).
Proof.
  intros Hp. unfold planner in Hp.
  apply bind_Ok_inv in Hp. destruct Hp as (wc & Hwc & Hp).
  apply plan_workers_Ok_inv in Hwc; try apply tiles_nonneg.
  repeat (apply bind_Ok_inv in Hp; destruct Hp as (? & _ & Hp)).
  injection Hp as <-. simpl. exact Hwc.
Qed.

(** C6.  Whatever the image size, the factors and the hardware concurrency
    [H], the worker count the planner settles on is at least 1, and the
    round-up and decrement steps reach it after finitely many rounds: with
    [rounds H] rounds or more the computation returns that count, and a plan,
    if the planner returns one, carries it. *)
Theorem worker_count_floor g H width height :
  let xt := wrap width / wrap (x_factor g) in
  let yt := wrap height / wrap (y_factor g) in
  exists w,
    1 <= w
    /\ (forall fuel, (rounds H <= fuel)%nat -> plan_workers fuel H xt yt = Ok w)
    /\ (forall fuel p, planner fuel g H width height = Ok p -> workerCount p = w).
Proof.
  intros xt yt.
  assert (Hxt : 0 <= xt) by apply tiles_nonneg.
  assert (Hyt : 0 <= yt) by apply tiles_nonneg.
  exists (workers_for H xt yt). split; [|split].
  - apply workers_for_floor; assumption.
  - intros fuel Hfuel. apply plan_workers_spec; assumption.
  - intros fuel p Hp. apply (planner_workerCount fuel g H width height p Hp).
Qed.

(** The halving loop ends within as many rounds as the section has bits. *)
Lemma cap_section_total (n : nat) : forall fuel s max,
  0 <= s < 2 ^ Z.of_nat n -> 0 <= max -> (n <= fuel)%nat ->
  exists r, cap_section fuel s max = Ok r
            /\ 0 <= r <= s /\ r <= max /\ (1 <= max -> 1 <= s -> 1 <= r).
Proof.
  induction n as [|n IH]; intros fuel s max Hs Hmax Hfuel; unfold cap_section.
  - assert (s = 0) as -> by (change (2 ^ Z.of_nat 0) with 1 in Hs; lia).
    exists 0. rewrite while_done by (apply Z.ltb_ge; lia). repeat apply conj; try lia. reflexivity.
  - destruct (max <? s) eqn:Hcond.
    + destruct fuel as [|fuel]; [lia|]. rewrite while_step by exact Hcond.
      apply Z.ltb_lt in Hcond.
      assert (Hhalf : 0 <= s / 2 < 2 ^ Z.of_nat n).
      { split; [apply Z.div_pos; lia|].
        apply Z.div_lt_upper_bound; [lia|].
        rewrite Nat2Z.inj_succ, Z.pow_succ_r in Hs by lia. lia. }
      destruct (IH fuel (s / 2) max Hhalf Hmax ltac:(lia)) as (r & Hr & Hrs & Hrm & Hr1).
      exists r. split; [exact Hr|].
      assert (s / 2 <= s) by (apply Z.div_le_upper_bound; lia).
      repeat apply conj; try lia.
      intros Hm1 Hs1. apply Hr1; [exact Hm1|].
      apply Z.div_le_lower_bound; lia.
    + exists s. rewrite while_done by exact Hcond. apply Z.ltb_ge in Hcond.
      repeat apply conj; try lia. reflexivity.
Qed.

Lemma cap_section_in_range fuel H s max :
  0 <= s < modulus -> 0 <= max -> (rounds H <= fuel)%nat ->
  exists r, cap_section fuel s max = Ok r
            /\ 0 <= r <= s /\ r <= max /\ (1 <= max -> 1 <= s -> 1 <= r).
Proof.
  intros Hs Hmax Hfuel. apply (cap_section_total 32); [exact Hs | exact Hmax |].
  unfold rounds in Hfuel.
  assert (0 <= wrap H / 2) by (apply Z.div_pos; [apply wrap_range | lia]). lia.
Qed.

(** ** When [main] gets as far as the planner *)

(** On a concrete command line the six conditions are settled by evaluation. *)
(** ** Reading the factors *)

Lemma to_int_range z : - 2 ^ 31 <= to_int z < 2 ^ 31.
Proof.
  unfold to_int. pose proof (Z.mod_pos_bound (z + 2 ^ 31) (2 ^ 32) ltac:(lia)). lia.
Qed.

Lemma to_int_small z : - 2 ^ 31 <= z < 2 ^ 31 -> to_int z = z.
Proof.
  intros Hz. unfold to_int. rewrite Z.mod_small by lia. lia.
Qed.

(** A factor is an [int]. *)
Lemma atoi_range s : - 2 ^ 31 <= atoi s < 2 ^ 31.
Proof. apply to_int_range. Qed.

Lemma atoi_below_modulus s : atoi s < modulus.
Proof. pose proof (atoi_range s). unfold modulus. lia. Qed.

(** A number that fits [int] is read as written. *)
Lemma atoi_exact s : - 2 ^ 31 <= decimal s < 2 ^ 31 -> atoi s = decimal s.
Proof.
  intros Hs. unfold atoi, strtol, LONG_MIN, LONG_MAX.
  rewrite Z.min_r, Z.max_r by lia. apply to_int_small, Hs.
Qed.

(** A number from [2^31] to [2^32 - 1] is read as that number less [2^32],
    which is below 1. *)
Lemma atoi_beyond_int s :
  2 ^ 31 <= decimal s < 2 ^ 32 -> atoi s = decimal s - 2 ^ 32 /\ atoi s < 1.
Proof.
  intros Hs. unfold atoi, strtol, LONG_MIN, LONG_MAX.
  rewrite Z.min_r, Z.max_r by lia. unfold to_int.
  replace (decimal s + 2 ^ 31) with (decimal s - 2 ^ 31 + 1 * 2 ^ 32) by lia.
  rewrite Z.mod_add, Z.mod_small by lia. lia.
Qed.

Ltac prove_reaches_planner :=
  split;
  [ reflexivity
  | simpl; lia
  | vm_compute; discriminate
  | vm_compute; discriminate
  | reflexivity
  | let H1 := fresh in let H2 := fresh in
    intros [H1 H2]; vm_compute in H1, H2; first [discriminate H1 | discriminate H2] ].

Lemma main_planned fuel env argv img :
  reaches_planner env argv img ->
  main fuel env argv =
  match planner fuel (globals_of argv img) (hardware_concurrency env)
          (im_width img) (im_height img) with
  | Exhausted => mkRun [Opened (arg argv 3)] OutOfFuel
  | Fail f => mkRun [Opened (arg argv 3)] (Crash f)
  | Ok p =>
      let g := globals_of argv img in
      let result := run_pool g p img (section_coords p) (allocate g p) in
      mkRun (Opened (arg argv 3) :: section_events p
               ++ [Saved (arg argv 4) (assemble g p result)])
            (Exit 0)
  end.
Proof.
  intros [Hinit Hargc Hx Hy Hopen Hid]. unfold main, globals_of.
  rewrite Hinit.
  destruct (Z.ltb_spec (Z.of_nat (length argv)) 5); [lia|].
  destruct (Z.ltb_spec (atoi (arg argv 1)) 1); [lia|].
  destruct (Z.ltb_spec (atoi (arg argv 2)) 1); [lia|].
  simpl. rewrite Hopen.
  destruct (Z.eqb_spec (atoi (arg argv 1)) 1), (Z.eqb_spec (atoi (arg argv 2)) 1);
    simpl; try reflexivity.
  exfalso. apply Hid. split; assumption.
Qed.

(** C7.  A horizontal factor, read as an [int], that is larger than the
    image width passes every check of [main]: no tile fits ([x_tiles = 0]),
    the worker count falls back to 1, [x_section] and [x_sectionSize] are 0,
    and [width / x_sectionSize] divides by zero. *)
Theorem factor_beyond_width_divides_by_zero fuel env argv img :
  reaches_planner env argv img ->
  0 <= im_width img < atoi (arg argv 1) ->
  0 <= im_height img < modulus ->
  (rounds (hardware_concurrency env) <= fuel)%nat ->
  let g := globals_of argv img in
  let H := hardware_concurrency env in
  let xt := wrap (im_width img) / wrap (x_factor g) in
  let yt := wrap (im_height img) / wrap (y_factor g) in
  xt = 0
  /\ plan_workers fuel H xt yt = Ok 1
  /\ cap_section fuel (xt / 1) (wrap (x_factor g * x_factor g)) = Ok 0
  /\ udiv (wrap (im_width img)) (wrap (0 * x_factor g)) = Fail DivideByZero
  /\ planner fuel g H (im_width img) (im_height img) = Fail DivideByZero
  /\ main fuel env argv = mkRun [Opened (arg argv 3)] (Crash DivideByZero).
Proof.
  intros Hrp Hw Hh Hfuel g H xt yt.
  pose proof (atoi_below_modulus (arg argv 1)) as Hxf.
  assert (Hxt : xt = 0).
  { unfold xt, g, globals_of. simpl.
    rewrite !wrap_small by (unfold in_range; lia). apply Z.div_small. lia. }
  assert (Hyt : 0 <= yt) by apply tiles_nonneg.
  assert (Hyt' : yt < modulus).
  { unfold yt. rewrite (wrap_small (im_height img)) by exact Hh.
    pose proof (wrap_range (y_factor g)) as [Hy0 _].
    destruct (Z.eq_dec (wrap (y_factor g)) 0) as [-> | Hnz].
    - rewrite Z.div_0_r. unfold modulus. lia.
    - apply Z.le_lt_trans with (im_height img); [|lia].
      apply Z.div_le_upper_bound; nia. }
  assert (Hwc : plan_workers fuel H xt yt = Ok 1).
  { rewrite plan_workers_spec by (try assumption; lia). f_equal.
    unfold workers_for. rewrite Hxt, Z.min_l by lia.
    destruct (make_even_spec (wrap H) (wrap_range H)) as (Hr & _ & _).
    destruct (Z.leb_spec (make_even (wrap H)) 0) as [Hle|Hgt].
    - assert (make_even (wrap H) = 0) as -> by lia. reflexivity.
    - reflexivity. }
  assert (Hxs : cap_section fuel (xt / 1) (wrap (x_factor g * x_factor g)) = Ok 0).
  { rewrite Hxt. unfold cap_section. apply while_done.
    apply Z.ltb_ge. apply wrap_range. }
  assert (Hdiv : udiv (wrap (im_width img)) (wrap (0 * x_factor g)) = Fail DivideByZero)
    by reflexivity.
  assert (Hplan : planner fuel g H (im_width img) (im_height img) = Fail DivideByZero).
  { unfold planner. fold xt yt. rewrite (bind_Ok _ _ _ Hwc).
    rewrite (bind_Ok _ _ (xt / 1)) by (apply udiv_nonzero; lia).
    rewrite (bind_Ok _ _ (yt / 1)) by (apply udiv_nonzero; lia).
    rewrite (bind_Ok _ _ _ Hxs).
    destruct (cap_section_in_range fuel H (yt / 1) (wrap (y_factor g * y_factor g)))
      as (ys & Hys & _).
    - rewrite Z.div_1_r. lia.
    - apply wrap_range.
    - exact Hfuel.
    - rewrite (bind_Ok _ _ _ Hys). reflexivity. }
  repeat (split; [assumption|]).
  rewrite (main_planned fuel env argv img Hrp). fold g H. rewrite Hplan. reflexivity.
Qed.

(** Factors 5 x 2 on the 4 x 4 image. *)
Lemma factor_beyond_width_divides_by_zero_witness :
  reaches_planner (env44 0) (argv_of "5" "2") img44
  /\ 0 <= im_width img44 < atoi (arg (argv_of "5" "2") 1)
  /\ 0 <= im_height img44 < modulus
  /\ (rounds (hardware_concurrency (env44 0)) <= 33)%nat
  /\ main 33 (env44 0) (argv_of "5" "2") = mkRun [Opened "in.png"] (Crash DivideByZero).
Proof.
  assert (Hrp : reaches_planner (env44 0) (argv_of "5" "2") img44).
  { prove_reaches_planner. }
  assert (Hw : 0 <= im_width img44 < atoi (arg (argv_of "5" "2") 1))
    by (vm_compute; split; [discriminate | reflexivity]).
  assert (Hh : 0 <= im_height img44 < modulus)
    by (vm_compute; split; [discriminate | reflexivity]).
  assert (Hfuel : (rounds (hardware_concurrency (env44 0)) <= 33)%nat)
    by (vm_compute; lia).
  repeat (split; [assumption|]).
  apply (factor_beyond_width_divides_by_zero 33 (env44 0) (argv_of "5" "2") img44
           Hrp Hw Hh Hfuel).
Defined.

(** The same happens along either axis: a plan is never made for an image
    that holds no tile. *)
Lemma planner_no_tiles fuel g H width height :
  (rounds H <= fuel)%nat ->
  wrap width / wrap (x_factor g) = 0 \/ wrap height / wrap (y_factor g) = 0 ->
  planner fuel g H width height = Fail DivideByZero.
Proof.
  intros Hfuel Hzero. unfold planner.
  set (xt := wrap width / wrap (x_factor g)) in *.
  set (yt := wrap height / wrap (y_factor g)) in *.
  assert (Hxt : 0 <= xt) by apply tiles_nonneg.
  assert (Hyt : 0 <= yt) by apply tiles_nonneg.
  assert (Hbound : forall a b, wrap a / wrap b < modulus).
  { intros a b. pose proof (wrap_range a) as [Ha0 Ha1].
    pose proof (wrap_range b) as [Hb0 _].
    destruct (Z.eq_dec (wrap b) 0) as [-> | Hnz].
    - rewrite Z.div_0_r. unfold modulus. lia.
    - apply Z.le_lt_trans with (wrap a); [|exact Ha1].
      apply Z.div_le_upper_bound; nia. }
  assert (Hwc : workers_for H xt yt = 1).
  { unfold workers_for. replace (Z.min xt yt) with 0 by lia.
    destruct (make_even_spec (wrap H) (wrap_range H)) as (Hr & _ & _).
    destruct (Z.leb_spec (make_even (wrap H)) 0) as [Hle|Hgt]; [|reflexivity].
    assert (make_even (wrap H) = 0) as -> by lia. reflexivity. }
  rewrite (bind_Ok _ _ 1) by (rewrite plan_workers_spec, Hwc by assumption; reflexivity).
  rewrite (bind_Ok _ _ (xt / 1)) by (apply udiv_nonzero; lia).
  rewrite (bind_Ok _ _ (yt / 1)) by (apply udiv_nonzero; lia).
  rewrite !Z.div_1_r.
  destruct (cap_section_in_range fuel H xt (wrap (x_factor g * x_factor g)))
    as (xs & Hxs & Hxs_range & _); [split; [exact Hxt | apply Hbound] | apply wrap_range
                                   | exact Hfuel |].
  destruct (cap_section_in_range fuel H yt (wrap (y_factor g * y_factor g)))
    as (ys & Hys & Hys_range & _); [split; [exact Hyt | apply Hbound] | apply wrap_range
                                   | exact Hfuel |].
  rewrite (bind_Ok _ _ _ Hxs), (bind_Ok _ _ _ Hys).
  destruct Hzero as [Hx0 | Hy0].
  - assert (xs = 0) as -> by lia. reflexivity.
  - assert (ys = 0) as -> by lia.
    destruct (udiv (wrap width) (wrap (xs * x_factor g))) as [xsc | f |] eqn:Hdiv.
    + reflexivity.
    + unfold udiv in Hdiv. destruct (wrap (xs * x_factor g) =? 0); [|discriminate].
      injection Hdiv as <-. reflexivity.
    + unfold udiv in Hdiv. destruct (wrap (xs * x_factor g) =? 0); discriminate.
Qed.

Lemma factor_beyond_height_divides_by_zero fuel env argv img :
  reaches_planner env argv img ->
  0 <= im_height img < atoi (arg argv 2) ->
  (rounds (hardware_concurrency env) <= fuel)%nat ->
  main fuel env argv = mkRun [Opened (arg argv 3)] (Crash DivideByZero).
Proof.
  intros Hrp Hh Hfuel.
  pose proof (atoi_below_modulus (arg argv 2)) as Hyf.
  rewrite (main_planned fuel env argv img Hrp).
  rewrite planner_no_tiles; [reflexivity | exact Hfuel |].
  right. unfold globals_of. simpl.
  rewrite !wrap_small by (unfold in_range; lia). apply Z.div_small. lia.
Qed.

(** ** The exits of [main] *)

(** C8.  With both factors equal to 1, valid arguments and a readable image,
    [main] opens the image, saves that very image under the output path and
    returns 0; no section is cut out and no tile is reduced. *)
Theorem identity_factors_resave fuel env argv img :
  vips_init_fails env = false ->
  (5 <= length argv)%nat ->
  atoi (arg argv 1) = 1 -> atoi (arg argv 2) = 1 ->
  files env (arg argv 3) = Some img ->
  main fuel env argv = mkRun [Opened (arg argv 3); Saved (arg argv 4) img] (Exit 0)
  /\ forallb (fun e => negb (image_work e)) (events (main fuel env argv)) = true.
Proof.
  intros Hinit Hargc Hx Hy Hopen.
  assert (Hmain : main fuel env argv
                  = mkRun [Opened (arg argv 3); Saved (arg argv 4) img] (Exit 0)).
  { unfold main. rewrite Hinit, Hx, Hy, Hopen.
    destruct (Z.ltb_spec (Z.of_nat (length argv)) 5); [lia|]. reflexivity. }
  split; [exact Hmain|]. rewrite Hmain. reflexivity.
Qed.

Lemma identity_factors_resave_witness :
  vips_init_fails (env44 8) = false
  /\ (5 <= length (argv_of "1" "1"))%nat
  /\ atoi (arg (argv_of "1" "1") 1) = 1 /\ atoi (arg (argv_of "1" "1") 2) = 1
  /\ files (env44 8) (arg (argv_of "1" "1") 3) = Some img44
  /\ main 0 (env44 8) (argv_of "1" "1")
     = mkRun [Opened "in.png"; Saved "out.png" img44] (Exit 0).
Proof.
  assert (H1 : vips_init_fails (env44 8) = false) by reflexivity.
  assert (H2 : (5 <= length (argv_of "1" "1"))%nat) by (simpl; lia).
  assert (H3 : atoi (arg (argv_of "1" "1") 1) = 1) by reflexivity.
  assert (H4 : atoi (arg (argv_of "1" "1") 2) = 1) by reflexivity.
  assert (H5 : files (env44 8) (arg (argv_of "1" "1") 3) = Some img44) by reflexivity.
  repeat (split; [assumption|]).
  exact (proj1 (identity_factors_resave 0 (env44 8) (argv_of "1" "1") img44 H1 H2 H3 H4 H5)).
Defined.

(** C9.  [main] returns -1 exactly when the library initialisation fails,
    or fewer than four arguments follow the program name, or one of the two
    factors reads as less than 1; and it returns -1 before any image is
    opened, cut or saved.  A factor is read as an [int]: one written as a
    number from [2^31] to [2^32 - 1] reads as a negative number, and [main]
    returns -1. *)
Theorem exit_minus_one_iff fuel env argv :
  (result (main fuel env argv) = Exit (-1)
   <-> vips_init_fails env = true
       \/ (length argv < 5)%nat
       \/ atoi (arg argv 1) < 1
       \/ atoi (arg argv 2) < 1)
  /\ (result (main fuel env argv) = Exit (-1) -> events (main fuel env argv) = [])
  /\ (- 2 ^ 31 <= atoi (arg argv 1) < 2 ^ 31 /\ - 2 ^ 31 <= atoi (arg argv 2) < 2 ^ 31)
  /\ (2 ^ 31 <= decimal (arg argv 1) < 2 ^ 32 \/ 2 ^ 31 <= decimal (arg argv 2) < 2 ^ 32 ->
      result (main fuel env argv) = Exit (-1)).
Proof.
  assert (Hmain :
    (result (main fuel env argv) = Exit (-1)
     <-> vips_init_fails env = true
         \/ (length argv < 5)%nat
         \/ atoi (arg argv 1) < 1
         \/ atoi (arg argv 2) < 1)
    /\ (result (main fuel env argv) = Exit (-1) -> events (main fuel env argv) = [])).
  { unfold main.
    destruct (vips_init_fails env) eqn:Hinit; [simpl; split; [split|]; auto|].
    destruct (Z.ltb_spec (Z.of_nat (length argv)) 5) as [Hargc|Hargc];
      [simpl; split; [split|]; auto; intros _; right; left; lia|].
    destruct (Z.ltb_spec (atoi (arg argv 1)) 1) as [Hx|Hx];
      [simpl; split; [split|]; auto|].
    destruct (Z.ltb_spec (atoi (arg argv 2)) 1) as [Hy|Hy];
      [simpl; split; [split|]; auto|].
    simpl.
    assert (Hno : ~ (false = true \/ (length argv < 5)%nat
                     \/ atoi (arg argv 1) < 1 \/ atoi (arg argv 2) < 1))
      by (intros [H|[H|[H|H]]]; [discriminate | lia | lia | lia]).
    destruct (files env (arg argv 3)) as [img|].
    - destruct ((atoi (arg argv 1) =? 1) && (atoi (arg argv 2) =? 1)).
      + simpl. split; [split|]; [discriminate | tauto | discriminate].
      + destruct (planner _ _ _ _ _); simpl;
          (split; [split|]; [discriminate | tauto | discriminate]).
    - simpl. split; [split|]; [discriminate | tauto | discriminate]. }
  destruct Hmain as [Hiff Hearly].
  split; [exact Hiff|]. split; [exact Hearly|].
  split; [split; apply atoi_range|].
  intros [Hx | Hy]; apply Hiff; right; right.
  - left. apply atoi_beyond_int, Hx.
  - right. apply atoi_beyond_int, Hy.
Qed.

(** ** The 4 x 4 example *)

Lemma workers_for_two_tiles H : workers_for H 2 2 = 1 \/ workers_for H 2 2 = 2.
Proof.
  unfold workers_for.
  destruct (make_even_spec (wrap H) (wrap_range H)) as (Hr & Heven & _).
  set (e := make_even (wrap H)) in *. change (Z.min 2 2) with 2.
  destruct (Z.leb_spec e 2) as [Hle|Hgt]; [|right; reflexivity].
  assert (He : e = 0 \/ e = 2).
  { assert (e = 0 \/ e = 1 \/ e = 2) as [-> | [-> | ->]] by lia; auto; discriminate. }
  destruct He as [-> | ->]; [left | right]; reflexivity.
Qed.

(** C5.  With factors 2 x 2 the single-band image
    [1 1 2 2 / 1 1 2 2 / 3 3 4 4 / 3 3 4 4] is reduced to [1 2 / 3 4]:
    [work] on the whole image fills the buffer [1; 2; 3; 4], the entry at index
    [(y * x_tiles + x) * bandCount] being the answer for tile [(x, y)], and
    for every hardware concurrency the program saves the 2 x 2 image with that
    buffer and returns 0. *)
Theorem four_by_four_example :
  let g := mkGlobals 2 2 1 in
  let out := work g img44 [0; 0; 0; 0] in
  out = [1; 2; 3; 4]
  /\ (forall x y, 0 <= x < 2 -> 0 <= y < 2 ->
        sample out ((y * 2 + x) * bandCount g) = find_dominant g (tile_pixels g img44 x y))
  /\ (forall H fuel, (rounds H <= fuel)%nat ->
        let r := main fuel (env44 H) (argv_of "2" "2") in
        result r = Exit 0
        /\ last (events r) = Some (Saved "out.png" (mkImage 2 2 1 [1; 2; 3; 4]))).
Proof.
  intros g out. split; [|split].
  - vm_compute. reflexivity.
  - intros x y Hx Hy.
    assert (x = 0 \/ x = 1) as [-> | ->] by lia;
      (assert (y = 0 \/ y = 1) as [-> | ->] by lia); vm_compute; reflexivity.
  - intros H fuel Hfuel r. subst r.
    assert (Hrp : reaches_planner (env44 H) (argv_of "2" "2") img44).
    { prove_reaches_planner. }
    rewrite (main_planned fuel (env44 H) (argv_of "2" "2") img44 Hrp).
    change (globals_of (argv_of "2" "2") img44) with g.
    change (hardware_concurrency (env44 H)) with H.
    assert (Hplan : planner fuel g H (im_width img44) (im_height img44)
                    = Ok (mkPlan 1 2 2 2 2 4 4 1 1)
                    \/ planner fuel g H (im_width img44) (im_height img44)
                       = Ok (mkPlan 2 2 2 1 1 2 2 2 2)).
    { unfold planner. cbv zeta.
      change (wrap (im_width img44) / wrap (x_factor g)) with 2.
      change (wrap (im_height img44) / wrap (y_factor g)) with 2.
      rewrite (bind_Ok _ _ _ (plan_workers_spec fuel H 2 2 ltac:(lia) ltac:(lia) Hfuel)).
      destruct (workers_for_two_tiles H) as [-> | ->]; [left | right].
      - rewrite (bind_Ok _ _ 2) by reflexivity. rewrite (bind_Ok _ _ 2) by reflexivity.
        rewrite (bind_Ok _ _ 2) by (apply while_done; reflexivity).
        rewrite (bind_Ok _ _ 2) by (apply while_done; reflexivity).
        reflexivity.
      - rewrite (bind_Ok _ _ 1) by reflexivity. rewrite (bind_Ok _ _ 1) by reflexivity.
        rewrite (bind_Ok _ _ 1) by (apply while_done; reflexivity).
        rewrite (bind_Ok _ _ 1) by (apply while_done; reflexivity).
        reflexivity. }
    destruct Hplan as [-> | ->]; vm_compute; split; reflexivity.
Qed.

(** ** Section geometry *)

Lemma cap_section_Ok_inv fuel s max r :
  0 <= s < modulus -> 0 <= max -> cap_section fuel s max = Ok r ->
  0 <= r <= s /\ r <= max /\ (1 <= max -> 1 <= s -> 1 <= r).
Proof.
  intros Hs Hmax Hr.
  destruct (cap_section_total 32 (Nat.max fuel 32) s max Hs Hmax ltac:(lia))
    as (r' & Hr' & Hfacts).
  unfold cap_section in *.
  rewrite (while_more_fuel _ _ fuel (Nat.max fuel 32) s r ltac:(lia) Hr) in Hr'.
  injection Hr' as <-. exact Hfacts.
Qed.

Lemma section_size_exact tiles section factor dim :
  1 <= factor -> 0 <= dim < modulus -> tiles = dim / factor -> 0 <= section <= tiles ->
  wrap (section * factor) = section * factor.
Proof.
  intros Hf Hd -> Hs. apply wrap_small. unfold in_range.
  assert (factor * (dim / factor) <= dim) by (apply Z.mul_div_le; lia). nia.
Qed.

Lemma planner_Ok_facts fuel g H width height p :
  1 <= x_factor g < modulus -> 1 <= y_factor g < modulus ->
  0 <= width < modulus -> 0 <= height < modulus ->
  planner fuel g H width height = Ok p ->
  plan_facts g width height p.
Proof.
  intros Hxf Hyf Hw Hh Hp.
  pose proof (planner_workerCount _ _ _ _ _ _ Hp) as Hwc.
  unfold planner in Hp.
  rewrite !(wrap_small (x_factor g)), !(wrap_small (y_factor g)),
    !(wrap_small width), !(wrap_small height) in * by (unfold in_range; lia).
  set (xt := width / x_factor g) in *. set (yt := height / y_factor g) in *.
  assert (Hxt : 0 <= xt <= width).
  { split; [apply Z.div_pos; lia | apply Z.div_le_upper_bound; nia]. }
  assert (Hyt : 0 <= yt <= height).
  { split; [apply Z.div_pos; lia | apply Z.div_le_upper_bound; nia]. }
  apply bind_Ok_inv in Hp. destruct Hp as (wc & _ & Hp).
  apply bind_Ok_inv in Hp. destruct Hp as (xs0 & Hxs0 & Hp).
  apply bind_Ok_inv in Hp. destruct Hp as (ys0 & Hys0 & Hp).
  apply bind_Ok_inv in Hp. destruct Hp as (xs & Hxs & Hp).
  apply bind_Ok_inv in Hp. destruct Hp as (ys & Hys & Hp).
  apply bind_Ok_inv in Hp. destruct Hp as (xsc & Hxsc & Hp).
  apply bind_Ok_inv in Hp. destruct Hp as (ysc & Hysc & Hp).
  injection Hp as <-. simpl in Hwc.
  pose proof (workers_for_floor H xt yt ltac:(lia) ltac:(lia)) as Hfloor.
  rewrite <- Hwc in Hfloor.
  apply udiv_Ok_inv in Hxs0, Hys0, Hxsc, Hysc.
  destruct Hxs0 as [_ ->], Hys0 as [_ ->], Hxsc as [Hxnz ->], Hysc as [Hynz ->].
  assert (Hxs0 : 0 <= xt / wc <= xt).
  { split; [apply Z.div_pos; lia | apply Z.div_le_upper_bound; nia]. }
  assert (Hys0 : 0 <= yt / wc <= yt).
  { split; [apply Z.div_pos; lia | apply Z.div_le_upper_bound; nia]. }
  apply cap_section_Ok_inv in Hxs; [|lia | apply wrap_range].
  apply cap_section_Ok_inv in Hys; [|lia | apply wrap_range].
  assert (Hxss : wrap (xs * x_factor g) = xs * x_factor g)
    by (apply (section_size_exact xt xs (x_factor g) width); try reflexivity; lia).
  assert (Hyss : wrap (ys * y_factor g) = ys * y_factor g)
    by (apply (section_size_exact yt ys (y_factor g) height); try reflexivity; lia).
  split; simpl; try reflexivity; lia.
Qed.

(** The section grid lies inside the image, and the blocks placed in the
    output lie inside the [x_tiles] x [y_tiles] output. *)
Lemma grid_inside g width height p :
  1 <= x_factor g -> 1 <= y_factor g -> 0 <= width -> 0 <= height ->
  plan_facts g width height p ->
  0 <= x_sectionCount p /\ 0 <= y_sectionCount p
  /\ x_sectionCount p * x_sectionSize p <= width
  /\ y_sectionCount p * y_sectionSize p <= height
  /\ x_sectionCount p * x_section p <= x_tiles p
  /\ y_sectionCount p * y_section p <= y_tiles p.
Proof.
  intros Hxf Hyf Hw Hh [].
  assert (Hx : x_sectionCount p * x_sectionSize p <= width)
    by (rewrite pf_x_count0, Z.mul_comm; apply Z.mul_div_le; lia).
  assert (Hy : y_sectionCount p * y_sectionSize p <= height)
    by (rewrite pf_y_count0, Z.mul_comm; apply Z.mul_div_le; lia).
  assert (0 <= x_sectionCount p) by (rewrite pf_x_count0; apply Z.div_pos; lia).
  assert (0 <= y_sectionCount p) by (rewrite pf_y_count0; apply Z.div_pos; lia).
  repeat (split; [assumption|]). split.
  - rewrite pf_x_tiles0. apply Z.div_le_lower_bound; [lia|].
    rewrite pf_x_size0 in Hx. lia.
  - rewrite pf_y_tiles0. apply Z.div_le_lower_bound; [lia|].
    rewrite pf_y_size0 in Hy. lia.
Qed.

Lemma elem_of_section_coords p c :
  c ∈ section_coords p
  <-> (0 <= c.1 < x_sectionCount p /\ 0 <= c.2 < y_sectionCount p).
Proof.
  unfold section_coords. rewrite list_elem_of_bind. split.
  - intros (x & Hc & Hx). apply list_elem_of_bind in Hc. destruct Hc as (y & Hc & Hy).
    apply list_elem_of_singleton in Hc. subst c. simpl.
    apply elem_of_seqZ in Hx, Hy. lia.
  - intros [Hx Hy]. exists c.1. split; [|apply elem_of_seqZ; lia].
    apply list_elem_of_bind. exists c.2. split; [|apply elem_of_seqZ; lia].
    apply list_elem_of_singleton. destruct c; reflexivity.
Qed.

Lemma bind_ext_in {A B} (f f' : A -> list B) (l : list A) :
  (forall x, x ∈ l -> f x = f' x) -> l ≫= f = l ≫= f'.
Proof.
  induction l as [|x l IH]; intros Hext; [reflexivity|].
  rewrite !bind_cons. rewrite (Hext x) by apply list_elem_of_here.
  rewrite IH; [reflexivity|]. intros y Hy. apply Hext, list_elem_of_further, Hy.
Qed.

Lemma raster_ext w h bands f f' :
  (forall i j b, 0 <= i < w -> 0 <= j < h -> 0 <= b < bands -> f i j b = f' i j b) ->
  raster w h bands f = raster w h bands f'.
Proof.
  intros Hext. unfold raster.
  apply bind_ext_in. intros j Hj. apply bind_ext_in. intros i Hi.
  apply bind_ext_in. intros b Hb. apply elem_of_seqZ in Hj, Hi, Hb.
  rewrite Hext by lia. reflexivity.
Qed.

Lemma fold_left_ext_in {A B} (f f' : A -> B -> A) (l : list B) (a : A) :
  (forall s x, x ∈ l -> f s x = f' s x) -> fold_left f l a = fold_left f' l a.
Proof.
  revert a. induction l as [|x l IH]; intros a Hext; [reflexivity|]. simpl.
  rewrite (Hext a x) by apply list_elem_of_here.
  apply IH. intros s y Hy. apply Hext, list_elem_of_further, Hy.
Qed.

Lemma section_rect_exact g width height p c :
  1 <= x_factor g -> 1 <= y_factor g -> 0 <= width < modulus -> 0 <= height < modulus ->
  plan_facts g width height p -> c ∈ section_coords p ->
  section_rect p c
  = (c.1 * x_sectionSize p, c.2 * y_sectionSize p, x_sectionSize p, y_sectionSize p)
  /\ 0 <= c.1 * x_sectionSize p
  /\ c.1 * x_sectionSize p + x_sectionSize p <= x_sectionCount p * x_sectionSize p
  /\ 0 <= c.2 * y_sectionSize p
  /\ c.2 * y_sectionSize p + y_sectionSize p <= y_sectionCount p * y_sectionSize p.
Proof.
  intros Hxf Hyf Hw Hh Hpf Hc. apply elem_of_section_coords in Hc.
  destruct (grid_inside g width height p Hxf Hyf ltac:(lia) ltac:(lia) Hpf)
    as (_ & _ & Hgx & Hgy & _).
  destruct Hpf. destruct Hc as [Hcx Hcy].
  assert (Hx : c.1 * x_sectionSize p + x_sectionSize p
               <= x_sectionCount p * x_sectionSize p) by nia.
  assert (Hy : c.2 * y_sectionSize p + y_sectionSize p
               <= y_sectionCount p * y_sectionSize p) by nia.
  assert (0 <= c.1 * x_sectionSize p) by nia.
  assert (0 <= c.2 * y_sectionSize p) by nia.
  split; [|repeat apply conj; assumption].
  unfold section_rect. rewrite !wrap_small by (unfold in_range; lia). reflexivity.
Qed.



(** ** The pool: the order in which tasks are taken does not matter *)

Lemma section_coords_NoDup p : NoDup (section_coords p).
Proof.
  unfold section_coords. apply NoDup_bind; [| |apply NoDup_seqZ].
  - intros x1 x2 c _ _ H1 H2.
    apply list_elem_of_bind in H1, H2.
    destruct H1 as (y1 & H1 & _), H2 as (y2 & H2 & _).
    apply list_elem_of_singleton in H1, H2. congruence.
  - intros x _. apply NoDup_bind; [| |apply NoDup_seqZ].
    + intros y1 y2 c _ _ H1 H2. apply list_elem_of_singleton in H1, H2. congruence.
    + intros y _. apply NoDup_singleton.
Qed.

(** Each task writes the buffer of its own section, and only that one. *)
Lemma run_pool_lookup g p img (queue : list (Z * Z)) :
  NoDup queue ->
  forall (result : gmap (Z * Z) (list Z)) c,
    run_pool g p img queue result !! c
    = if bool_decide (c ∈ queue)
      then Some (work g (section_area p img c) (default [] (result !! c)))
      else result !! c.
Proof.
  unfold run_pool. induction queue as [|c0 queue IH]; intros Hnd result c.
  - reflexivity.
  - apply NoDup_cons in Hnd. destruct Hnd as [Hfresh Hnd].
    cbn [fold_left]. rewrite (IH Hnd). unfold run_task.
    destruct (decide (c = c0)) as [-> | Hne].
    + rewrite (bool_decide_eq_false_2 _ Hfresh).
      rewrite bool_decide_eq_true_2 by apply list_elem_of_here.
      apply lookup_insert_eq.
    + rewrite lookup_insert_ne by congruence.
      destruct (decide (c ∈ queue)) as [Hin | Hnin].
      * rewrite !bool_decide_eq_true_2; [reflexivity | | exact Hin].
        apply list_elem_of_further, Hin.
      * rewrite !bool_decide_eq_false_2; [reflexivity | | exact Hnin].
        intros Hin. apply elem_of_cons in Hin. destruct Hin; contradiction.
Qed.

(** Whatever order the workers take the tasks in, the buffers end up the
    same; running the queue front to back is one such order. *)
Lemma run_pool_order_irrelevant (g : globals) (p : plan) (img : VImage)
    (queue : list (Z * Z)) (result : gmap (Z * Z) (list Z)) :
  queue ≡ₚ section_coords p ->
  run_pool g p img queue result = run_pool g p img (section_coords p) result.
Proof.
  intros Hperm. apply map_eq. intros c.
  pose proof (section_coords_NoDup p) as Hnd.
  rewrite !run_pool_lookup; [|exact Hnd | rewrite Hperm; exact Hnd].
  destruct (decide (c ∈ section_coords p)) as [Hin | Hnin].
  - rewrite !bool_decide_eq_true_2; [reflexivity | exact Hin | rewrite Hperm; exact Hin].
  - rewrite !bool_decide_eq_false_2; [reflexivity | exact Hnin | rewrite Hperm; exact Hnin].
Qed.

(** ** Pixels outside the section grid *)




Lemma run_10x2 :
  planner 40 (globals_of (argv_of "2" "1") img_10x2) 2 10 2 = Ok plan_10x2
  /\ main 40 env_10x2 (argv_of "2" "1")
     = mkRun [Opened "in.png";
              Extracted 0 0 4 1; Extracted 0 1 4 1; Extracted 4 0 4 1; Extracted 4 1 4 1;
              Reduced 0 0; Reduced 0 1; Reduced 1 0; Reduced 1 1;
              Saved "out.png" (mkImage 5 2 1 [1;2;3;4;0; 6;7;8;9;0])]
             (Exit 0).
Proof. vm_compute. split; reflexivity. Qed.



(** The 4 x 4 example on four hardware threads. *)
Lemma four_by_four_example_witness :
  (rounds 4 <= 40)%nat
  /\ result (main 40 (env44 4) (argv_of "2" "2")) = Exit 0
  /\ last (events (main 40 (env44 4) (argv_of "2" "2")))
     = Some (Saved "out.png" (mkImage 2 2 1 [1; 2; 3; 4])).
Proof.
  assert (Hfuel : (rounds 4 <= 40)%nat) by (vm_compute; lia).
  split; [exact Hfuel|].
  exact (proj2 (proj2 four_by_four_example) 4 40%nat Hfuel).
Defined.

(** * Further properties *)

(** ** Colour keys *)

Lemma lor_wrap a b : Z.lor (wrap a) (wrap b) = wrap (Z.lor a b).
Proof.
  unfold wrap, modulus. rewrite <- !Z.land_ones by lia. Z.bitblast.
Qed.

Lemma color_at_range g pixels i : 0 <= color_at g pixels i < modulus.
Proof.
  unfold color_at.
  assert (Hgen : forall bs acc, 0 <= acc < modulus ->
            0 <= fold_left
                   (fun color b =>
                      Z.lor color
                        (wrap (Z.shiftl (sample pixels (wrap (i * bandCount g + b)))
                                        ((bandCount g - 1 - b) * 8)))) bs acc < modulus).
  { induction bs as [|b bs IH]; intros acc Hacc; [exact Hacc|].
    simpl. apply IH. rewrite <- (wrap_small acc) by exact Hacc.
    rewrite lor_wrap. apply wrap_range. }
  apply Hgen. unfold modulus. lia.
Qed.

Lemma color_at_ext g pixels pixels' i j :
  (forall b, 0 <= b < bandCount g ->
     sample pixels (wrap (i * bandCount g + b))
     = sample pixels' (wrap (j * bandCount g + b))) ->
  color_at g pixels i = color_at g pixels' j.
Proof.
  intros Hsame. unfold color_at. apply fold_left_ext_in.
  intros color b Hb. apply elem_of_seqZ in Hb. rewrite Hsame by lia. reflexivity.
Qed.

(** X1.  A colour key fits an [unsigned int], and with at most four bands of
    byte samples two pixels have the same key exactly when they have the same
    sample in every band: the vote never merges two different colours and
    never splits one. *)
Theorem key_identifies_pixel g pixels pixels' i j :
  bandCount g <= 4 -> Forall is_byte pixels -> Forall is_byte pixels' ->
  0 <= color_at g pixels i < modulus
  /\ (color_at g pixels i = color_at g pixels' j
      <-> forall b, 0 <= b < bandCount g ->
            sample pixels (wrap (i * bandCount g + b))
            = sample pixels' (wrap (j * bandCount g + b))).
Proof.
  intros Hbc Hp Hp'. split; [apply color_at_range|]. split.
  - intros Hkey b Hb.
    rewrite <- (band_of_color_at g pixels i b Hbc Hp Hb).
    rewrite <- (band_of_color_at g pixels' j b Hbc Hp' Hb).
    rewrite Hkey. reflexivity.
  - apply color_at_ext.
Qed.

Lemma key_identifies_pixel_witness :
  let g := mkGlobals 2 1 3 in
  let pixels := [10; 20; 30; 10; 20; 30] in
  bandCount g <= 4 /\ Forall is_byte pixels
  /\ color_at g pixels 0 = color_at g pixels 1.
Proof.
  intros g pixels.
  assert (H1 : bandCount g <= 4) by (simpl; lia).
  assert (H2 : Forall is_byte pixels) by (repeat constructor; unfold is_byte; lia).
  split; [exact H1|]. split; [exact H2|].
  apply (proj2 (key_identifies_pixel g pixels pixels 0 1 H1 H2 H2)).
  intros b Hb. simpl in Hb.
  assert (b = 0 \/ b = 1 \/ b = 2) as [-> | [-> | ->]] by lia; reflexivity.
Defined.

(** ** How far the answer can be from the most frequent colour *)

Lemma answer_near_most_frequent g pixels c :
  1 <= tile_size g ->
  occ c (tile_colors g pixels)
  <= occ (find_dominant g pixels) (tile_colors g pixels) + tile_size g mod 2.
Proof.
  intros Hsize.
  destruct (find_dominant_prefix g pixels Hsize) as (k & Hk & Hdom & Hstop & _).
  set (cs := tile_colors g pixels) in *. set (d := find_dominant g pixels) in *.
  assert (Hne : take k cs <> []).
  { intros Hnil. apply (f_equal (@length Z)) in Hnil.
    rewrite length_take in Hnil. simpl in Hnil. lia. }
  destruct (tally_leader _ Hne (tile_colors_bound g pixels k)) as (Hcount & _ & Hmax).
  fold cs in Hcount, Hmax. rewrite <- Hdom in Hcount, Hmax.
  pose proof (Z.mod_pos_bound (tile_size g) 2 ltac:(lia)) as Hmod.
  destruct (Nat.eq_dec k (length cs)) as [Hall | Hpart].
  - rewrite Hall, firstn_all in Hmax. specialize (Hmax c). lia.
  - destruct (Z.eq_dec c d) as [-> | Hcd]; [lia|].
    specialize (Hstop ltac:(lia)). rewrite Hcount in Hstop.
    pose proof (occ_take d k cs) as Ht. pose proof (occ_two c d cs Hcd) as H2.
    unfold cs in H2 at 3. rewrite tile_colors_length in H2.
    unfold win_of in Hstop.
    pose proof (Z.div_mod (tile_size g) 2 ltac:(lia)). lia.
Qed.

(** X2.  Whatever the tile, no colour covers more than one pixel more than
    the colour the reducer answers, and on a tile with an even number of pixels
    none covers more at all; so on an even tile a colour that covers more than
    half of the pixels is the answer. *)
Theorem answer_within_one_of_most_frequent g pixels :
  1 <= tile_size g ->
  (forall c, occ c (tile_colors g pixels)
             <= occ (find_dominant g pixels) (tile_colors g pixels) + 1)
  /\ (tile_size g mod 2 = 0 ->
      (forall c, occ c (tile_colors g pixels)
                 <= occ (find_dominant g pixels) (tile_colors g pixels))
      /\ forall A, tile_size g < 2 * occ A (tile_colors g pixels) ->
                   find_dominant g pixels = A).
Proof.
  intros Hsize. split.
  - intros c. pose proof (answer_near_most_frequent g pixels c Hsize).
    pose proof (Z.mod_pos_bound (tile_size g) 2 ltac:(lia)). lia.
  - intros Heven. split.
    + intros c. pose proof (answer_near_most_frequent g pixels c Hsize). lia.
    + intros A Hmajor.
      destruct (Z.eq_dec A (find_dominant g pixels)) as [-> | Hne]; [reflexivity|].
      pose proof (answer_near_most_frequent g pixels A Hsize) as HA.
      pose proof (occ_two A (find_dominant g pixels) (tile_colors g pixels) Hne) as H2.
      rewrite tile_colors_length in H2. lia.
Qed.

(** A 2 x 2 tile in which 9 covers three pixels. *)
Lemma answer_within_one_of_most_frequent_witness :
  let g := mkGlobals 2 2 1 in
  let pixels := [7; 9; 9; 9] in
  1 <= tile_size g /\ tile_size g mod 2 = 0
  /\ tile_size g < 2 * occ 9 (tile_colors g pixels)
  /\ find_dominant g pixels = 9.
Proof.
  intros g pixels.
  assert (H1 : 1 <= tile_size g) by (vm_compute; discriminate).
  assert (H2 : tile_size g mod 2 = 0) by reflexivity.
  assert (H3 : tile_size g < 2 * occ 9 (tile_colors g pixels)) by (vm_compute; reflexivity).
  split; [exact H1|]. split; [exact H2|]. split; [exact H3|].
  exact (proj2 (proj2 (answer_within_one_of_most_frequent g pixels H1) H2) 9 H3).
Defined.

(** ** The output buffer of [work] *)

Lemma work_buffer g img out k (P : Z * Z -> bool) :
  let xt := wrap (im_width img) / wrap (x_factor g) in
  let yt := wrap (im_height img) / wrap (y_factor g) in
  let tiles := x ← seqZ 0 xt; y ← seqZ 0 yt; [(x, y)] in
  0 <= k -> 0 <= bandCount g ->
  xt * yt * bandCount g <= Z.of_nat (length out) ->
  xt * yt * bandCount g <= modulus ->
  (forall t, P t = ((t.2 * xt + t.1) * bandCount g <=? k)
                   && (k <? (t.2 * xt + t.1) * bandCount g + bandCount g)) ->
  length (work g img out) = length out
  /\ ((forall t, t ∈ tiles -> P t = false) -> sample (work g img out) k = sample out k).
Proof.
  intros xt yt tiles Hk Hbc Hlen Hmod HP. unfold work. fold xt yt.
  rewrite (fold_left_nested
             (fun o x y => paint g xt x y (find_dominant g (tile_pixels g img x y)) o)).
  fold tiles.
  destruct (fold_writers
              (fun o t => paint g xt t.1 t.2 (find_dominant g (tile_pixels g img t.1 t.2)) o)
              P (fun t => band_of g (find_dominant g (tile_pixels g img t.1 t.2))
                            (k - (t.2 * xt + t.1) * bandCount g))
              tiles k (length out))
    with (out := out) as (Hl & Hnone & _); [|reflexivity|split; assumption].
  intros t o Ht Ho.
  assert (Hin : 0 <= t.1 < xt /\ 0 <= t.2 < yt).
  { apply list_elem_of_bind in Ht. destruct Ht as (x' & Ht & Hx').
    apply list_elem_of_bind in Ht. destruct Ht as (y' & Ht & Hy').
    apply list_elem_of_singleton in Ht. subst t. simpl.
    apply elem_of_seqZ in Hx', Hy'. lia. }
  destruct (tile_index_bounds xt yt (bandCount g) t.1 t.2) as [Hlo Hfit]; try lia.
  destruct (paint_sample g xt t.1 t.2 (find_dominant g (tile_pixels g img t.1 t.2)) o k)
    as [Hl Hs]; try lia.
  split; [lia|]. rewrite Hs, HP. reflexivity.
Qed.

(** X3.  [work] keeps the length of the output buffer and writes only the
    entries of the tiles, the first [x_tiles * y_tiles * bandCount] ones;
    when the image is smaller than one tile it returns the buffer as it got
    it. *)
Theorem work_writes_tiles_only g img out :
  let xt := wrap (im_width img) / wrap (x_factor g) in
  let yt := wrap (im_height img) / wrap (y_factor g) in
  0 <= bandCount g ->
  xt * yt * bandCount g <= Z.of_nat (length out) ->
  xt * yt * bandCount g <= modulus ->
  length (work g img out) = length out
  /\ (forall k, xt * yt * bandCount g <= k -> sample (work g img out) k = sample out k)
  /\ (xt = 0 \/ yt = 0 -> work g img out = out).
Proof.
  intros xt yt Hbc Hlen Hmod. split; [|split].
  - assert (Hxt : 0 <= xt) by apply tiles_nonneg.
    assert (Hyt : 0 <= yt) by apply tiles_nonneg.
    destruct (work_buffer g img out 0
                (fun t => ((t.2 * xt + t.1) * bandCount g <=? 0)
                          && (0 <? (t.2 * xt + t.1) * bandCount g + bandCount g))
                ltac:(lia) Hbc Hlen Hmod ltac:(reflexivity)) as [Hl _].
    exact Hl.
  - intros k Hk.
    assert (Hxt : 0 <= xt) by apply tiles_nonneg.
    assert (Hyt : 0 <= yt) by apply tiles_nonneg.
    assert (0 <= xt * yt) by (apply Z.mul_nonneg_nonneg; lia).
    assert (0 <= xt * yt * bandCount g) by (apply Z.mul_nonneg_nonneg; lia).
    destruct (work_buffer g img out k
                (fun t => ((t.2 * xt + t.1) * bandCount g <=? k)
                          && (k <? (t.2 * xt + t.1) * bandCount g + bandCount g))
                ltac:(lia) Hbc Hlen Hmod ltac:(reflexivity)) as [_ Hnone].
    apply Hnone. intros t Ht.
    assert (Hin : 0 <= t.1 < xt /\ 0 <= t.2 < yt).
    { apply list_elem_of_bind in Ht. destruct Ht as (x' & Ht & Hx').
      apply list_elem_of_bind in Ht. destruct Ht as (y' & Ht & Hy').
      apply list_elem_of_singleton in Ht. subst t. simpl.
      apply elem_of_seqZ in Hx', Hy'. lia. }
    destruct (tile_index_bounds xt yt (bandCount g) t.1 t.2) as [Hlo Hfit]; lia.
  - intros Hzero. unfold work. fold xt yt. destruct Hzero as [-> | ->].
    + reflexivity.
    + change (seqZ 0 0) with (@nil Z). simpl.
      induction (seqZ 0 xt) as [|x xs IH]; [reflexivity | exact IH].
Qed.

(** Factors 3 x 3 on the 4 x 4 image: one tile, one entry written. *)
Lemma work_writes_tiles_only_witness :
  let g := mkGlobals 3 3 1 in
  let out := [5; 5; 5] in
  0 <= bandCount g
  /\ 1 * 1 * bandCount g <= Z.of_nat (length out)
  /\ length (work g img44 out) = length out
  /\ sample (work g img44 out) 2 = sample out 2.
Proof.
  intros g out.
  assert (H1 : 0 <= bandCount g) by (simpl; lia).
  assert (H2 : wrap (im_width img44) / wrap (x_factor g)
               * (wrap (im_height img44) / wrap (y_factor g)) * bandCount g
               <= Z.of_nat (length out)) by (vm_compute; discriminate).
  assert (H3 : wrap (im_width img44) / wrap (x_factor g)
               * (wrap (im_height img44) / wrap (y_factor g)) * bandCount g
               <= modulus) by (vm_compute; discriminate).
  destruct (work_writes_tiles_only g img44 out H1 H2 H3) as (Hl & Hrest & _).
  split; [exact H1|]. split; [exact H2|]. split; [exact Hl|].
  apply Hrest. vm_compute. discriminate.
Defined.

(** With both factors equal to 1 a tile is one pixel, and the answer for
    it is that pixel. *)
Lemma unit_tile_answer g img x y b :
  x_factor g = 1 -> y_factor g = 1 ->
  bandCount g = im_bands img -> bandCount g <= 4 -> Forall is_byte (im_data img) ->
  0 <= x < modulus -> 0 <= y < modulus -> 0 <= b < bandCount g ->
  band_of g (find_dominant g (tile_pixels g img x y)) b = pixel_sample img x y b.
Proof.
  intros Hxf Hyf Hbands Hbc Hbytes Hx Hy Hb.
  assert (Hsize : tile_size g = 1) by (unfold tile_size; rewrite Hxf, Hyf; reflexivity).
  destruct (find_dominant_occurs g (tile_pixels g img x y)) as (i & Hi & ->); [lia|].
  assert (i = 0) as -> by lia.
  rewrite band_of_color_at by (try assumption; apply tile_pixels_bytes, Hbytes).
  rewrite Z.mul_0_l, Z.add_0_l, wrap_small by (unfold in_range, modulus; lia).
  pose proof (tile_pixels_row_major g img x y 0 b) as Hrow.
  rewrite Hxf, Hyf in Hrow. rewrite Z.mul_0_l, Z.add_0_l in Hrow.
  rewrite Hrow by (try assumption; lia).
  rewrite !Z.mul_1_r, !wrap_small by (unfold in_range; lia).
  change (0 mod 1) with 0. change (0 / 1) with 0. rewrite !Z.add_0_r. reflexivity.
Qed.

(** ** The shape of a plan *)

Lemma workers_for_cases H xt yt :
  1 <= xt -> 1 <= yt ->
  1 <= workers_for H xt yt <= Z.min xt yt
  /\ (workers_for H xt yt = 1 \/ workers_for H xt yt mod 2 = 0)
  /\ workers_for H xt yt <= wrap H + 1.
Proof.
  intros Hxt Hyt. unfold workers_for, bring_back_one.
  destruct (make_even_spec (wrap H) (wrap_range H)) as (Hr & Heven & Hle).
  set (e := make_even (wrap H)) in *. set (m := Z.min xt yt).
  assert (Hm : 1 <= m) by (unfold m; lia).
  pose proof (Z.div_mod m 2 ltac:(lia)) as Hdm.
  pose proof (Z.mod_pos_bound m 2 ltac:(lia)) as Hmb.
  assert (Hhalf : (2 * (m / 2)) mod 2 = 0) by (rewrite Z.mul_comm; apply Z.mod_mul; lia).
  pose proof (wrap_range H) as [HH0 _].
  destruct (Z.leb_spec e m) as [Hem | Hem];
    match goal with |- context [0 =? ?v] => destruct (Z.eqb_spec 0 v) as [Hz | Hnz] end;
    (split; [lia|]); (split; [first [left; reflexivity | right; assumption] | lia]).
Qed.

(** What the steps of the planner establish, for factors and sizes for which
    its arithmetic does not overflow. *)
Lemma planner_Ok_steps fuel g H width height p :
  1 <= x_factor g < modulus -> 1 <= y_factor g < modulus ->
  0 <= width < modulus -> 0 <= height < modulus ->
  planner fuel g H width height = Ok p ->
  workerCount p = workers_for H (width / x_factor g) (height / y_factor g)
  /\ 0 <= x_section p <= x_tiles p / workerCount p
  /\ 0 <= y_section p <= y_tiles p / workerCount p
  /\ x_section p <= wrap (x_factor g * x_factor g)
  /\ y_section p <= wrap (y_factor g * y_factor g).
Proof.
  intros Hxf Hyf Hw Hh Hp.
  pose proof (planner_workerCount _ _ _ _ _ _ Hp) as Hwc.
  unfold planner in Hp.
  rewrite !(wrap_small (x_factor g)), !(wrap_small (y_factor g)),
    !(wrap_small width), !(wrap_small height) in * by (unfold in_range; lia).
  set (xt := width / x_factor g) in *. set (yt := height / y_factor g) in *.
  assert (Hxt : 0 <= xt <= width).
  { split; [apply Z.div_pos; lia | apply Z.div_le_upper_bound; nia]. }
  assert (Hyt : 0 <= yt <= height).
  { split; [apply Z.div_pos; lia | apply Z.div_le_upper_bound; nia]. }
  apply bind_Ok_inv in Hp. destruct Hp as (wc & _ & Hp).
  apply bind_Ok_inv in Hp. destruct Hp as (xs0 & Hxs0 & Hp).
  apply bind_Ok_inv in Hp. destruct Hp as (ys0 & Hys0 & Hp).
  apply bind_Ok_inv in Hp. destruct Hp as (xs & Hxs & Hp).
  apply bind_Ok_inv in Hp. destruct Hp as (ys & Hys & Hp).
  apply bind_Ok_inv in Hp. destruct Hp as (xsc & _ & Hp).
  apply bind_Ok_inv in Hp. destruct Hp as (ysc & _ & Hp).
  injection Hp as <-. simpl in *.
  pose proof (workers_for_floor H xt yt ltac:(lia) ltac:(lia)) as Hfloor.
  rewrite <- Hwc in Hfloor.
  apply udiv_Ok_inv in Hxs0, Hys0. destruct Hxs0 as [_ ->], Hys0 as [_ ->].
  assert (Hxs0 : 0 <= xt / wc <= xt).
  { split; [apply Z.div_pos; lia | apply Z.div_le_upper_bound; nia]. }
  assert (Hys0 : 0 <= yt / wc <= yt).
  { split; [apply Z.div_pos; lia | apply Z.div_le_upper_bound; nia]. }
  apply cap_section_Ok_inv in Hxs; [|lia | apply wrap_range].
  apply cap_section_Ok_inv in Hys; [|lia | apply wrap_range].
  split; [exact Hwc|]. lia.
Qed.

(** X5.  A plan, when there is one, has at least one section in each
    direction and at least as many sections across and down as there are
    workers.  A section is between 1 and [x_factor * x_factor] tiles wide
    (and likewise high), and the strip of the image that the section grid
    leaves out is narrower than one section. *)
Theorem plan_shape fuel g H width height p :
  1 <= x_factor g -> x_factor g * x_factor g < modulus ->
  1 <= y_factor g -> y_factor g * y_factor g < modulus ->
  0 <= width < modulus -> 0 <= height < modulus ->
  planner fuel g H width height = Ok p ->
  (1 <= workerCount p <= x_sectionCount p /\ workerCount p <= y_sectionCount p)
  /\ (1 <= x_section p <= x_factor g * x_factor g
      /\ 1 <= y_section p <= y_factor g * y_factor g)
  /\ (0 <= width - x_sectionCount p * x_sectionSize p < x_sectionSize p
      /\ 0 <= height - y_sectionCount p * y_sectionSize p < y_sectionSize p).
Proof.
  intros Hxf Hxx Hyf Hyy Hw Hh Hp.
  assert (Hxf' : 1 <= x_factor g < modulus) by nia.
  assert (Hyf' : 1 <= y_factor g < modulus) by nia.
  destruct (planner_Ok_steps _ _ _ _ _ _ Hxf' Hyf' Hw Hh Hp)
    as (_ & Hxs & Hys & Hxmax & Hymax).
  destruct (planner_Ok_facts _ _ _ _ _ _ Hxf' Hyf' Hw Hh Hp).
  rewrite wrap_small in Hxmax by (unfold in_range; nia).
  rewrite wrap_small in Hymax by (unfold in_range; nia).
  assert (Hxs1 : 1 <= x_section p) by nia.
  assert (Hys1 : 1 <= y_section p) by nia.
  assert (Hxw : x_section p * workerCount p <= x_tiles p).
  { rewrite Z.mul_comm.
    apply Z.le_trans with (workerCount p * (x_tiles p / workerCount p));
      [apply Z.mul_le_mono_nonneg_l; lia | apply Z.mul_div_le; lia]. }
  assert (Hyw : y_section p * workerCount p <= y_tiles p).
  { rewrite Z.mul_comm.
    apply Z.le_trans with (workerCount p * (y_tiles p / workerCount p));
      [apply Z.mul_le_mono_nonneg_l; lia | apply Z.mul_div_le; lia]. }
  assert (Hxtw : x_factor g * x_tiles p <= width)
    by (rewrite pf_x_tiles0; apply Z.mul_div_le; lia).
  assert (Hyth : y_factor g * y_tiles p <= height)
    by (rewrite pf_y_tiles0; apply Z.mul_div_le; lia).
  split; [|split; [lia|]].
  - split; [split; [exact pf_workers0|]|].
    + rewrite pf_x_count0. apply Z.div_le_lower_bound; [lia|].
      rewrite pf_x_size0. nia.
    + rewrite pf_y_count0. apply Z.div_le_lower_bound; [lia|].
      rewrite pf_y_size0. nia.
  - rewrite pf_x_count0, pf_y_count0.
    pose proof (Z.mod_pos_bound width (x_sectionSize p) pf_x_size_pos0) as Hmx.
    pose proof (Z.mod_pos_bound height (y_sectionSize p) pf_y_size_pos0) as Hmy.
    rewrite Z.mod_eq in Hmx, Hmy by lia. lia.
Qed.

Lemma plan_shape_witness :
  1 <= workerCount plan_10x2 <= x_sectionCount plan_10x2
  /\ 0 <= 10 - x_sectionCount plan_10x2 * x_sectionSize plan_10x2
       < x_sectionSize plan_10x2.
Proof.
  destruct (plan_shape 40 (globals_of (argv_of "2" "1") img_10x2) 2 10 2 plan_10x2)
    as ((Hwc & _) & _ & (Hrest & _));
    try (vm_compute; reflexivity); try (vm_compute; discriminate);
    try (vm_compute; split; [discriminate | reflexivity]).
  split; [exact Hwc | exact Hrest].
Defined.

(** When a tile fits the image in both directions the planner makes a plan. *)
Lemma planner_fits fuel g H width height :
  1 <= x_factor g -> x_factor g * x_factor g < modulus ->
  1 <= y_factor g -> y_factor g * y_factor g < modulus ->
  0 <= width < modulus -> 0 <= height < modulus ->
  (rounds H <= fuel)%nat ->
  x_factor g <= width -> y_factor g <= height ->
  exists p, planner fuel g H width height = Ok p.
Proof.
  intros Hxf Hxx Hyf Hyy Hw Hh Hfuel Hfx Hfy.
  assert (Hxf' : x_factor g < modulus) by nia.
  assert (Hyf' : y_factor g < modulus) by nia.
  unfold planner.
  rewrite !(wrap_small (x_factor g)), !(wrap_small (y_factor g)),
    !(wrap_small width), !(wrap_small height),
    !(wrap_small (x_factor g * x_factor g)), !(wrap_small (y_factor g * y_factor g))
    by (unfold in_range; lia).
  set (xt := width / x_factor g). set (yt := height / y_factor g).
  assert (Hxt : 1 <= xt) by (apply Z.div_le_lower_bound; lia).
  assert (Hyt : 1 <= yt) by (apply Z.div_le_lower_bound; lia).
  assert (Hxtw : x_factor g * xt <= width) by (apply Z.mul_div_le; lia).
  assert (Hyth : y_factor g * yt <= height) by (apply Z.mul_div_le; lia).
  destruct (workers_for_cases H xt yt Hxt Hyt) as (Hwc & _ & _).
  set (wc := workers_for H xt yt) in *.
  rewrite (bind_Ok _ _ wc) by (apply plan_workers_spec; try assumption; lia).
  rewrite (bind_Ok _ _ (xt / wc)) by (apply udiv_nonzero; lia).
  rewrite (bind_Ok _ _ (yt / wc)) by (apply udiv_nonzero; lia).
  assert (Hxs0 : 1 <= xt / wc <= xt).
  { split; [apply Z.div_le_lower_bound; lia | apply Z.div_le_upper_bound; nia]. }
  assert (Hys0 : 1 <= yt / wc <= yt).
  { split; [apply Z.div_le_lower_bound; lia | apply Z.div_le_upper_bound; nia]. }
  destruct (cap_section_in_range fuel H (xt / wc) (x_factor g * x_factor g))
    as (xs & Hxs & Hxs_le & _ & Hxs1); [nia | nia | exact Hfuel |].
  destruct (cap_section_in_range fuel H (yt / wc) (y_factor g * y_factor g))
    as (ys & Hys & Hys_le & _ & Hys1); [nia | nia | exact Hfuel |].
  rewrite (bind_Ok _ _ _ Hxs), (bind_Ok _ _ _ Hys).
  specialize (Hxs1 ltac:(nia) ltac:(lia)). specialize (Hys1 ltac:(nia) ltac:(lia)).
  assert (Hxss : wrap (xs * x_factor g) = xs * x_factor g)
    by (apply wrap_small; unfold in_range; nia).
  assert (Hyss : wrap (ys * y_factor g) = ys * y_factor g)
    by (apply wrap_small; unfold in_range; nia).
  rewrite Hxss, Hyss.
  rewrite (bind_Ok _ _ (width / (xs * x_factor g))) by (apply udiv_nonzero; nia).
  rewrite (bind_Ok _ _ (height / (ys * y_factor g))) by (apply udiv_nonzero; nia).
  eexists. reflexivity.
Qed.

(** X6.  For factors whose square fits an [unsigned int] the planner makes a
    plan exactly when a tile fits the image in both directions; when a factor
    exceeds the image size it divides by zero instead.  With [rounds H] rounds
    it never runs out of rounds. *)
Theorem planner_succeeds_iff fuel g H width height :
  1 <= x_factor g -> x_factor g * x_factor g < modulus ->
  1 <= y_factor g -> y_factor g * y_factor g < modulus ->
  0 <= width < modulus -> 0 <= height < modulus ->
  (rounds H <= fuel)%nat ->
  (x_factor g <= width /\ y_factor g <= height ->
   exists p, planner fuel g H width height = Ok p)
  /\ (width < x_factor g \/ height < y_factor g ->
      planner fuel g H width height = Fail DivideByZero).
Proof.
  intros Hxf Hxx Hyf Hyy Hw Hh Hfuel.
  assert (Hxf' : x_factor g < modulus) by nia.
  assert (Hyf' : y_factor g < modulus) by nia.
  split.
  - intros [Hfx Hfy]. apply planner_fits; assumption.
  - intros Hsmall. apply planner_no_tiles; [exact Hfuel|].
    rewrite !wrap_small by (unfold in_range; lia).
    destruct Hsmall as [Hs | Hs]; [left | right]; apply Z.div_small; lia.
Qed.

Lemma planner_succeeds_iff_witness :
  (rounds 2 <= 40)%nat
  /\ (exists p, planner 40 (mkGlobals 2 1 1) 2 10 2 = Ok p)
  /\ planner 40 (mkGlobals 11 1 1) 2 10 2 = Fail DivideByZero.
Proof.
  assert (Hfuel : (rounds 2 <= 40)%nat) by (vm_compute; lia).
  split; [exact Hfuel|]. split.
  - apply (planner_succeeds_iff 40 (mkGlobals 2 1 1) 2 10 2); simpl; try lia;
      try exact Hfuel; unfold modulus; lia.
  - apply (planner_succeeds_iff 40 (mkGlobals 11 1 1) 2 10 2); simpl; try lia;
      try exact Hfuel; unfold modulus; lia.
Defined.

(** X7.  The worker count of a plan is 1 or an even number, is not larger
    than the hardware concurrency plus 1 (the concurrency rounded up to an
    even number), and is not larger than the number of tiles across nor than
    the number of tiles down. *)
Theorem worker_count_shape fuel g H width height p :
  1 <= x_factor g < modulus -> 1 <= y_factor g < modulus ->
  0 <= width < modulus -> 0 <= height < modulus ->
  planner fuel g H width height = Ok p ->
  (workerCount p = 1 \/ workerCount p mod 2 = 0)
  /\ workerCount p <= wrap H + 1
  /\ workerCount p <= x_tiles p /\ workerCount p <= y_tiles p.
Proof.
  intros Hxf Hyf Hw Hh Hp.
  destruct (planner_Ok_steps _ _ _ _ _ _ Hxf Hyf Hw Hh Hp) as (Hwc & _).
  destruct (planner_Ok_facts _ _ _ _ _ _ Hxf Hyf Hw Hh Hp).
  assert (Hxt : 1 <= x_tiles p) by nia.
  assert (Hyt : 1 <= y_tiles p) by nia.
  rewrite pf_x_tiles0 in Hxt. rewrite pf_y_tiles0 in Hyt.
  destruct (workers_for_cases H _ _ Hxt Hyt) as (Hrange & Hshape & HH).
  rewrite <- Hwc in Hrange, Hshape, HH. rewrite pf_x_tiles0, pf_y_tiles0.
  split; [exact Hshape|]. split; [exact HH|]. lia.
Qed.

Lemma worker_count_shape_witness :
  (workerCount plan_10x2 = 1 \/ workerCount plan_10x2 mod 2 = 0)
  /\ workerCount plan_10x2 <= x_tiles plan_10x2.
Proof.
  destruct (worker_count_shape 40 (globals_of (argv_of "2" "1") img_10x2) 2 10 2 plan_10x2)
    as (Hshape & _ & Hx & _);
    try (vm_compute; reflexivity);
    try (vm_compute; split; [discriminate | reflexivity]).
  split; [exact Hshape | exact Hx].
Defined.

(** ** The display of a time *)

Lemma atoi_two_digits d1 d2 :
  0 <= d1 <= 9 -> 0 <= d2 <= 9 ->
  atoi (String (digit_char d1) (String (digit_char d2) EmptyString)) = 10 * d1 + d2.
Proof.
  intros H1 H2.
  assert (C1 : d1 = 0 \/ d1 = 1 \/ d1 = 2 \/ d1 = 3 \/ d1 = 4 \/ d1 = 5 \/ d1 = 6
               \/ d1 = 7 \/ d1 = 8 \/ d1 = 9) by lia.
  assert (C2 : d2 = 0 \/ d2 = 1 \/ d2 = 2 \/ d2 = 3 \/ d2 = 4 \/ d2 = 5 \/ d2 = 6
               \/ d2 = 7 \/ d2 = 8 \/ d2 = 9) by lia.
  repeat (destruct C1 as [-> | C1]); try subst d1;
    repeat (destruct C2 as [-> | C2]); try subst d2; reflexivity.
Qed.

Lemma atoi_field n : 0 <= n < 100 -> atoi (two_digits n) = n.
Proof.
  intros Hn. unfold two_digits. rewrite atoi_two_digits.
  - pose proof (Z.div_mod n 10 ltac:(lia)). lia.
  - assert (n / 10 < 10) by (apply Z.div_lt_upper_bound; lia).
    assert (0 <= n / 10) by (apply Z.div_pos; lia). lia.
  - pose proof (Z.mod_pos_bound n 10 ltac:(lia)). lia.
Qed.

Lemma gmtime_fields t :
  0 <= tm_hour (gmtime t) < 24 /\ 0 <= tm_min (gmtime t) < 60
  /\ 0 <= tm_sec (gmtime t) < 60
  /\ tm_hour (gmtime t) * 3600 + tm_min (gmtime t) * 60 + tm_sec (gmtime t)
     = t mod 86400.
Proof.
  unfold gmtime. simpl.
  rewrite <- (Z.mod_mod_divide t 86400 3600) by (exists 24; reflexivity).
  rewrite <- (Z.mod_mod_divide t 86400 60) by (exists 1440; reflexivity).
  pose proof (Z.mod_pos_bound t 86400 ltac:(lia)) as Ha.
  generalize dependent (t mod 86400). intros a Ha.
  rewrite <- (Z.mod_mod_divide a 3600 60) by (exists 60; reflexivity).
  pose proof (Z.div_mod a 3600 ltac:(lia)) as Hd1.
  pose proof (Z.mod_pos_bound a 3600 ltac:(lia)) as Hb.
  assert (Hq : 0 <= a / 3600 < 24).
  { split; [apply Z.div_pos; lia | apply Z.div_lt_upper_bound; lia]. }
  generalize dependent (a mod 3600). intros r Hd1 Hb.
  pose proof (Z.div_mod r 60 ltac:(lia)) as Hd2.
  pose proof (Z.mod_pos_bound r 60 ltac:(lia)) as Hc.
  assert (Hq2 : 0 <= r / 60 < 60).
  { split; [apply Z.div_pos; lia | apply Z.div_lt_upper_bound; lia]. }
  lia.
Qed.

Lemma strftime_HMS_fits t :
  strftime_HMS 9 t
  = Some (two_digits (tm_hour t) +:+ ":" +:+ two_digits (tm_min t)
          +:+ ":" +:+ two_digits (tm_sec t)).
Proof. reflexivity. Qed.

(** X8.  The time a report shows is the time given to it modulo one day:
    three two-digit fields [hh:mm:ss] with [hh < 24], [mm < 60], [ss < 60]
    that read back as the number of seconds modulo 86400.  A run longer than
    24 hours is shown from zero again. *)
Theorem display_wraps_daily t :
  exists hh mm ss,
    strftime_HMS 9 (gmtime t) = Some (hh +:+ ":" +:+ mm +:+ ":" +:+ ss)
    /\ String.length hh = 2%nat /\ String.length mm = 2%nat /\ String.length ss = 2%nat
    /\ atoi hh < 24 /\ atoi mm < 60 /\ atoi ss < 60
    /\ atoi hh * 3600 + atoi mm * 60 + atoi ss = t mod 86400.
Proof.
  destruct (gmtime_fields t) as (Hh & Hm & Hs & Hsum).
  exists (two_digits (tm_hour (gmtime t))), (two_digits (tm_min (gmtime t))),
    (two_digits (tm_sec (gmtime t))).
  rewrite !atoi_field by lia.
  split; [apply strftime_HMS_fits|]. repeat (split; [reflexivity|]). lia.
Qed.

(** ** What the two report functions print *)

Lemma report_box_widths (width : nat) (label buffer : string) :
  (1 <= width)%nat ->
  (String.length label + String.length buffer + 2 = S width)%nat ->
  Forall (fun line => String.length line = S width) (report_box width label buffer).
Proof.
  intros Hw Hlen. unfold report_box, setw.
  assert (Hpad : forall n c, String.length (string_of_list_ascii (replicate n c)) = n).
  { intros n c. induction n as [|n IH]; simpl; [reflexivity | rewrite IH; reflexivity]. }
  assert (Happ : forall a b, String.length (a +:+ b) = (String.length a + String.length b)%nat).
  { intros a b. induction a as [|c a IH]; simpl; [reflexivity | rewrite IH; reflexivity]. }
  repeat constructor; rewrite ?Happ, ?Hpad; simpl String.length in *; lia.
Qed.

(** X9.  [ReportElapsedTime] prints nothing when fewer than 5 seconds have
    passed since the last report and otherwise a box of three lines of 26
    characters; [EstimateTimeLeft] does the same with lines of 17 characters.
    The formatted time always fits the 9-byte buffer, so neither ever prints
    the conversion failure message. *)
Theorem reports_are_boxes eta_of totalPixels now now' pixelsLeft st :
  let elapsed := (ReportElapsedTime now now' st).2 in
  let eta := (EstimateTimeLeft eta_of totalPixels now now' pixelsLeft st).2 in
  (if now - lastReport st <? 5 then elapsed = []
   else length elapsed = 3%nat
        /\ Forall (fun line => String.length line = 26%nat) elapsed)
  /\ (if now - etaReport st <? 5 then eta = []
      else length eta = 3%nat
           /\ Forall (fun line => String.length line = 17%nat) eta)
  /\ ~ In conversion_failure elapsed /\ ~ In conversion_failure eta.
Proof.
  intros elapsed eta. subst elapsed eta.
  assert (Hnot : forall (n : nat) out,
            Forall (fun line => String.length line = n) out ->
            String.length conversion_failure <> n -> ~ In conversion_failure out).
  { intros n out Hall Hn Hin. rewrite List.Forall_forall in Hall.
    apply Hn, Hall, Hin. }
  unfold ReportElapsedTime, EstimateTimeLeft.
  rewrite !strftime_HMS_fits.
  assert (H26 : forall buffer, String.length buffer = 8%nat ->
            Forall (fun line => String.length line = 26%nat)
              (report_box 25 "| Time elapsed: " buffer)).
  { intros buffer Hb. apply (report_box_widths 25); [lia|]. rewrite Hb. reflexivity. }
  assert (H17 : forall buffer, String.length buffer = 8%nat ->
            Forall (fun line => String.length line = 17%nat)
              (report_box 16 "| ETA: " buffer)).
  { intros buffer Hb. apply (report_box_widths 16); [lia|]. rewrite Hb. reflexivity. }
  destruct (now - lastReport st <? 5), (now - etaReport st <? 5); cbn [fst snd];
    repeat match goal with
           | |- _ /\ _ => split
           | |- ~ In _ [] => intros []
           | |- ~ In _ (report_box 25 _ _) =>
               apply (Hnot 26%nat); [apply H26; reflexivity | vm_compute; discriminate]
           | |- ~ In _ (report_box 16 _ _) =>
               apply (Hnot 17%nat); [apply H17; reflexivity | vm_compute; discriminate]
           | |- Forall _ (report_box 25 _ _) => apply H26; reflexivity
           | |- Forall _ (report_box 16 _ _) => apply H17; reflexivity
           | |- _ = _ => reflexivity
           end.
Qed.

(** ** How often a report is made *)

Lemma ReportElapsedTime_cases now now' st :
  (now - lastReport st < 5 /\ ReportElapsedTime now now' st = (st, []))
  \/ (5 <= now - lastReport st
      /\ (ReportElapsedTime now now' st).1 = mkTimers (startTime st) now' (etaReport st)
      /\ (ReportElapsedTime now now' st).2 <> []).
Proof.
  unfold ReportElapsedTime. rewrite strftime_HMS_fits.
  destruct (Z.ltb_spec (now - lastReport st) 5); [left | right].
  - split; [assumption | reflexivity].
  - split; [assumption|]. split; [reflexivity | discriminate].
Qed.

(** X10.  In any series of calls of [ReportElapsedTime] whose second clock
    reading is not before the first, two successive reports are at least 5
    seconds apart, and the first comes at least 5 seconds after the initial
    [lastReport]. *)
Theorem elapsed_reports_spaced calls st :
  Forall (fun c => c.1 <= c.2) calls ->
  spaced 5 (lastReport st) (report_times calls st).
Proof.
  revert st. induction calls as [|[now now'] calls IH]; intros st Hmono; [exact I|].
  apply Forall_cons in Hmono. destruct Hmono as [Hc Hmono]. simpl in Hc.
  cbn [report_times].
  destruct (ReportElapsedTime_cases now now' st) as [[Hlt ->] | (Hge & Hst & Hout)].
  - cbn [fst snd]. apply IH, Hmono.
  - destruct (ReportElapsedTime now now' st) as [st' out]. cbn [fst snd] in *.
    destruct out as [|line out]; [congruence|].
    subst st'. cbn [lastReport]. split; [lia|].
    apply (IH (mkTimers (startTime st) now' (etaReport st))), Hmono.
Qed.

(** Calls at seconds 3, 6, 9, 11 and 20 after the last report: only the
    second and the last one report. *)
Lemma elapsed_reports_spaced_witness :
  Forall (fun c : Z * Z => c.1 <= c.2) [(3, 3); (6, 7); (9, 9); (11, 11); (20, 20)]
  /\ report_times [(3, 3); (6, 7); (9, 9); (11, 11); (20, 20)] (mkTimers 0 0 0) = [7; 20]
  /\ spaced 5 0 [7; 20].
Proof.
  assert (H : Forall (fun c : Z * Z => c.1 <= c.2)
                [(3, 3); (6, 7); (9, 9); (11, 11); (20, 20)])
    by (repeat constructor; simpl; lia).
  split; [exact H|]. split; [reflexivity|].
  exact (elapsed_reports_spaced _ (mkTimers 0 0 0) H).
Defined.

(** X11.  If [etaReport] is not before [startTime] and the clock does not go
    back between the two readings, [EstimateTimeLeft] hands no elapsed time
    below 5 seconds to its estimate, so the division by the elapsed time is
    never a division by zero; and [etaReport] stays not before [startTime]. *)
Theorem eta_elapsed_at_least_5 eta_of eta_of' totalPixels now now' pixelsLeft st :
  startTime st <= etaReport st -> now <= now' ->
  (forall done elapsed left, 5 <= elapsed ->
     eta_of done elapsed left = eta_of' done elapsed left) ->
  EstimateTimeLeft eta_of totalPixels now now' pixelsLeft st
  = EstimateTimeLeft eta_of' totalPixels now now' pixelsLeft st
  /\ startTime (EstimateTimeLeft eta_of totalPixels now now' pixelsLeft st).1
     <= etaReport (EstimateTimeLeft eta_of totalPixels now now' pixelsLeft st).1.
Proof.
  intros Hinv Hmono Hsame. unfold EstimateTimeLeft.
  destruct (Z.ltb_spec (now - etaReport st) 5) as [Hlt | Hge].
  - split; [reflexivity | exact Hinv].
  - cbn [etaReport startTime]. rewrite Hsame by lia. rewrite !strftime_HMS_fits.
    cbn [fst etaReport startTime]. split; [reflexivity | lia].
Qed.

Lemma eta_elapsed_at_least_5_witness :
  EstimateTimeLeft (fun done elapsed left => left * elapsed / done) 100 30 31 60
    (mkTimers 10 20 20)
  = EstimateTimeLeft (fun done elapsed left => if elapsed <? 5 then 0
                                                else left * elapsed / done) 100 30 31 60
      (mkTimers 10 20 20).
Proof.
  apply (eta_elapsed_at_least_5 _ _ 100 30 31 60 (mkTimers 10 20 20)).
  - simpl. lia.
  - lia.
  - intros done elapsed left He.
    destruct (Z.ltb_spec elapsed 5); [lia | reflexivity].
Defined.

(** ** The worker pool *)

Section PoolFacts.
Context {R : Type} (E : report_env).

Lemma weight_insert (ws : list (worker R)) w a b :
  ws !! w = Some a ->
  (sum_list_with worker_weight (<[w := b]> ws) + worker_weight a
   = sum_list_with worker_weight ws + worker_weight b)%nat.
Proof.
  revert w. induction ws as [|s ws IH]; intros [|w] Hw; try discriminate; simpl in *.
  - injection Hw as ->. lia.
  - specialize (IH w Hw). lia.
Qed.

Lemma running_insert (ws : list (worker R)) w a b :
  ws !! w = Some a ->
  running (<[w := b]> ws) ++ running [a] ≡ₚ running ws ++ running [b].
Proof.
  intros Hw. pose proof (take_drop_middle ws w a Hw) as Hws.
  rewrite insert_take_drop by (eapply lookup_lt_Some; exact Hw).
  remember (take w ws) as front eqn:Hf. remember (drop (S w) ws) as back eqn:Hb.
  clear Hf Hb Hw. subst ws.
  unfold running. rewrite !bind_singleton, !bind_app, !bind_cons.
  rewrite <- !app_assoc. apply Permutation_app_head.
  generalize (back ≫= fun s : worker R => match s with Running task => [task] | _ => [] end).
  generalize (match a with Running task => [task] | _ => [] end).
  generalize (match b with Running task => [task] | _ => [] end).
  intros fb fa rest.
  transitivity (rest ++ fa ++ fb).
  - rewrite (app_assoc rest fa fb). apply Permutation_app_comm.
  - rewrite !app_assoc. apply Permutation_app_tail, Permutation_app_comm.
Qed.

Lemma wants_mutex_idle (s : worker R) :
  wants_mutex s = true -> worker_weight s = 1%nat /\ running [s] = [].
Proof. destruct s; try discriminate; intros _; split; reflexivity. Qed.

(** Every step brings the end one step nearer. *)
Lemma step_measure (st st' : pool_state R) :
  pool_step E st st' -> steps_left st = S (steps_left st').
Proof.
  intros Hstep. destruct Hstep as [w was task rest clock st Hw Hidle Hq | w was st Hw Hidle Hq
                                  | w task st Hw]; unfold steps_left; cbn [m_tasks threads take_task leave finish_task].
  - destruct (wants_mutex_idle was Hidle) as [Hwt _].
    pose proof (weight_insert (threads st) w was (Running task) Hw) as Hsum.
    rewrite Hq. simpl in *. lia.
  - destruct (wants_mutex_idle was Hidle) as [Hwt _].
    pose proof (weight_insert (threads st) w was Returned Hw) as Hsum.
    simpl in *. lia.
  - pose proof (weight_insert (threads st) w (Running task) Waiting Hw) as Hsum.
    simpl in *. lia.
Qed.

Lemma spawn_inv workerCount (tasks : list (R -> R)) mem stamps0 :
  pool_inv workerCount tasks mem (spawn workerCount tasks mem stamps0).
Proof.
  split; cbn [spawn taken m_tasks completed threads memory].
  - reflexivity.
  - induction workerCount as [|n IH]; [reflexivity | exact IH].
  - reflexivity.
  - apply length_replicate.
  - intros (w & Hw). apply lookup_replicate in Hw. destruct Hw as [Hw _]. discriminate.
Qed.

Lemma lookup_insert_Returned (ws : list (worker R)) w s i :
  s <> Returned -> <[w := s]> ws !! i = Some Returned -> ws !! i = Some Returned.
Proof.
  intros Hs Hi. destruct (decide (w = i)) as [-> | Hne].
  - destruct (decide (i < length ws)%nat) as [Hlt | Hge].
    + rewrite list_lookup_insert_eq in Hi by exact Hlt. congruence.
    + rewrite list_insert_ge in Hi by lia. exact Hi.
  - rewrite list_lookup_insert_ne in Hi by exact Hne. exact Hi.
Qed.

Lemma step_inv workerCount (tasks : list (R -> R)) mem (st st' : pool_state R) :
  pool_inv workerCount tasks mem st -> pool_step E st st' ->
  pool_inv workerCount tasks mem st'.
Proof.
  intros [Hfifo Honce Hmem Hlen Hempty] Hstep.
  destruct Hstep as [w was task rest clock st Hw Hidle Hq | w was st Hw Hidle Hq
                    | w task st Hw];
    split; cbn [take_task leave finish_task taken m_tasks completed threads memory].
  - rewrite <- app_assoc. simpl. rewrite <- Hq. exact Hfifo.
  - destruct (wants_mutex_idle was Hidle) as [_ Hone].
    pose proof (running_insert (threads st) w was (Running task) Hw) as Hrun.
    rewrite Hone, app_nil_r in Hrun. rewrite Hrun.
    change (running [Running task]) with [task].
    rewrite app_assoc. apply Permutation_app_tail. exact Honce.
  - exact Hmem.
  - rewrite length_insert. exact Hlen.
  - intros (i & Hi). apply lookup_insert_Returned in Hi; [|discriminate].
    rewrite Hempty in Hq by (exists i; exact Hi). discriminate.
  - exact Hfifo.
  - destruct (wants_mutex_idle was Hidle) as [_ Hone].
    pose proof (running_insert (threads st) w was Returned Hw) as Hrun.
    rewrite Hone in Hrun. change (running [@Returned R]) with (@nil (R -> R)) in Hrun.
    rewrite !app_nil_r in Hrun. rewrite Hrun. exact Honce.
  - exact Hmem.
  - rewrite length_insert. exact Hlen.
  - intros _. exact Hq.
  - exact Hfifo.
  - pose proof (running_insert (threads st) w (Running task) Waiting Hw) as Hrun.
    change (running [Running task]) with [task] in Hrun.
    change (running [@Waiting R]) with (@nil (R -> R)) in Hrun.
    rewrite app_nil_r in Hrun.
    rewrite <- app_assoc. simpl.
    rewrite <- Honce. apply Permutation_app_head.
    rewrite <- Hrun. apply Permutation_cons_append.
  - rewrite Hmem. unfold run_all. rewrite fold_left_app. reflexivity.
  - rewrite length_insert. exact Hlen.
  - intros (i & Hi). apply lookup_insert_Returned in Hi; [|discriminate].
    apply Hempty. exists i. exact Hi.
Qed.

(** What holds after [k] steps from the start. *)
Lemma run_inv workerCount (tasks : list (R -> R)) mem stamps0 k (st : pool_state R) :
  nsteps (pool_step E) k (spawn workerCount tasks mem stamps0) st ->
  pool_inv workerCount tasks mem st
  /\ (k + steps_left st = 2 * length tasks + workerCount)%nat.
Proof.
  revert st. induction k as [|k IH]; intros st Hrun.
  - inversion Hrun; subst. split; [apply spawn_inv|].
    unfold steps_left, spawn. cbn [m_tasks threads].
    assert (Hsum : forall n, sum_list_with (@worker_weight R) (replicate n Spawned) = n).
    { induction n as [|n IHn]; simpl; [reflexivity | rewrite IHn; reflexivity]. }
    rewrite Hsum. lia.
  - apply nsteps_inv_r in Hrun. destruct Hrun as (mid & Hrun & Hstep).
    destruct (IH mid Hrun) as [Hinv Hcount].
    split; [exact (step_inv _ _ _ _ _ Hinv Hstep)|].
    rewrite (step_measure _ _ Hstep) in Hcount. lia.
Qed.

(** A thread that has not returned can take a step. *)
Lemma step_possible (st : pool_state R) :
  ~ all_returned st -> exists st', pool_step E st st'.
Proof.
  intros Hnot. unfold all_returned in Hnot.
  apply not_Forall_Exists in Hnot; [|intros s; destruct s; first [left; reflexivity | right; discriminate]].
  apply Exists_exists in Hnot. destruct Hnot as (s & Hin & Hs).
  apply list_elem_of_lookup in Hin.
  destruct Hin as (w & Hw).
  destruct s as [| | task |]; [| | |congruence].
  - destruct (m_tasks st) as [|task rest] eqn:Hq.
    + eexists. apply (step_leave E w Spawned st Hw eq_refl Hq).
    + eexists. apply (step_take E w Spawned task rest (0, 0, 0, 0) st Hw eq_refl Hq).
  - destruct (m_tasks st) as [|task rest] eqn:Hq.
    + eexists. apply (step_leave E w Waiting st Hw eq_refl Hq).
    + eexists. apply (step_take E w Waiting task rest (0, 0, 0, 0) st Hw eq_refl Hq).
  - eexists. apply (step_finish E w task st Hw).
Qed.

Lemma returned_stuck (st st' : pool_state R) :
  all_returned st -> ~ pool_step E st st'.
Proof.
  intros Hall Hstep. unfold all_returned in Hall. rewrite List.Forall_forall in Hall.
  destruct Hstep as [w was task rest clock st Hw Hidle Hq | w was st Hw Hidle Hq
                    | w task st Hw];
    apply list_elem_of_lookup_2 in Hw; rewrite list_elem_of_In in Hw; apply Hall in Hw;
    subst; discriminate.
Qed.

End PoolFacts.

Lemma all_returned_nothing_running {R : Type} (ws : list (worker R)) :
  Forall (fun s => s = Returned) ws -> running ws = [].
Proof.
  induction 1 as [|s ws Hs _ IH]; [reflexivity|].
  subst s. unfold running in *. rewrite bind_cons, IH. reflexivity.
Qed.

Lemma all_returned_weight {R : Type} (ws : list (worker R)) :
  Forall (fun s => s = Returned) ws -> sum_list_with worker_weight ws = 0%nat.
Proof.
  induction 1 as [|s ws Hs _ IH]; [reflexivity|]. subst s. simpl. exact IH.
Qed.

(** X12.  Whatever the order in which the threads run, the pool neither
    hangs nor runs on: from the start no more than two steps per task and
    one per worker can be taken, and a step can be taken exactly as long as
    some thread has not returned. *)
Theorem pool_always_finishes {R : Type} (E : report_env) workerCount
    (tasks : list (R -> R)) mem stamps0 k (st : pool_state R) :
  nsteps (pool_step E) k (spawn workerCount tasks mem stamps0) st ->
  (k <= 2 * length tasks + workerCount)%nat
  /\ ((exists st', pool_step E st st') <-> ~ all_returned st).
Proof.
  intros Hrun. destruct (run_inv E _ _ _ _ _ _ Hrun) as [_ Hcount].
  split; [lia|]. split.
  - intros (st' & Hstep) Hall. exact (returned_stuck E st st' Hall Hstep).
  - apply step_possible.
Qed.

(** Two workers and one task, the first worker taking it. *)
Lemma pool_always_finishes_witness :
  let E := mkReportEnv 4 8 (fun _ _ _ => 0) in
  let start := spawn 2 [Z.succ] 0 (mkTimers 0 0 0) in
  let st := take_task E 0 Spawned Z.succ [] (1, 1, 1, 1) start in
  nsteps (pool_step E) 1 start st /\ (exists st', pool_step E st st').
Proof.
  intros E start st.
  assert (Hrun : nsteps (pool_step E) 1 start st).
  { apply nsteps_once.
    apply (step_take E 0 Spawned Z.succ [] (1, 1, 1, 1) start); reflexivity. }
  split; [exact Hrun|].
  apply (proj2 (pool_always_finishes E 2 [Z.succ] 0 (mkTimers 0 0 0) 1 st Hrun)).
  intros Hall. unfold all_returned in Hall. simpl in Hall.
  apply Forall_cons in Hall. destruct Hall as [Hall _]. discriminate.
Defined.

(** X13.  With at least one worker, when all threads have returned the queue
    is empty, every task has been taken, every task has run exactly once (the
    tasks that completed are a permutation of the tasks pushed), the memory is
    what running them in their order of completion gives, and exactly
    [2 * tasks + workers] steps were taken. *)
Theorem pool_runs_every_task_once {R : Type} (E : report_env) workerCount
    (tasks : list (R -> R)) mem stamps0 k (st : pool_state R) :
  (1 <= workerCount)%nat ->
  nsteps (pool_step E) k (spawn workerCount tasks mem stamps0) st ->
  all_returned st ->
  k = (2 * length tasks + workerCount)%nat
  /\ m_tasks st = [] /\ taken st = tasks
  /\ completed st ≡ₚ tasks
  /\ memory st = run_all (completed st) mem.
Proof.
  intros Hw Hrun Hall.
  destruct (run_inv E _ _ _ _ _ _ Hrun) as [[Hfifo Honce Hmem Hlen Hempty] Hcount].
  assert (Hq : m_tasks st = []).
  { apply Hempty. exists 0%nat.
    destruct (threads st) as [|s ws] eqn:Hts; [simpl in Hlen; lia|].
    unfold all_returned in Hall. rewrite Hts in Hall.
    apply Forall_cons in Hall. destruct Hall as [-> _]. reflexivity. }
  rewrite Hq, app_nil_r in Hfifo.
  rewrite (all_returned_nothing_running _ Hall), app_nil_r, Hfifo in Honce.
  assert (Hzero : steps_left st = 0%nat).
  { unfold steps_left. rewrite Hq, (all_returned_weight _ Hall). reflexivity. }
  split; [lia|]. repeat (split; [assumption|]). exact Hmem.
Qed.

(** One worker, two tasks: take, finish, take, finish, leave. *)
Lemma pool_runs_every_task_once_witness :
  let E := mkReportEnv 4 8 (fun _ _ _ => 0) in
  let start := spawn 1 [Z.succ; Z.double] 3 (mkTimers 0 0 0) in
  exists st,
    nsteps (pool_step E) 5 start st /\ all_returned st /\ memory st = 8.
Proof.
  intros E start.
  set (s1 := take_task E 0 Spawned Z.succ [Z.double] (1, 1, 1, 1) start).
  set (s2 := finish_task 0 Z.succ s1).
  set (s3 := take_task E 0 Waiting Z.double [] (2, 2, 2, 2) s2).
  set (s4 := finish_task 0 Z.double s3).
  set (s5 := leave 0 Waiting s4).
  assert (Hrun : nsteps (pool_step E) 5 start s5).
  { eapply nsteps_l; [apply (step_take E 0 Spawned Z.succ [Z.double] (1, 1, 1, 1) start);
                      reflexivity|].
    eapply nsteps_l; [apply (step_finish E 0 Z.succ s1); reflexivity|].
    eapply nsteps_l; [apply (step_take E 0 Waiting Z.double [] (2, 2, 2, 2) s2);
                      reflexivity|].
    eapply nsteps_l; [apply (step_finish E 0 Z.double s3); reflexivity|].
    eapply nsteps_l; [apply (step_leave E 0 Waiting s4); reflexivity|].
    apply nsteps_O. }
  assert (Hall : all_returned s5) by (repeat constructor).
  exists s5. split; [exact Hrun|]. split; [exact Hall|].
  destruct (pool_runs_every_task_once E 1 [Z.succ; Z.double] 3 (mkTimers 0 0 0) 5 s5
              ltac:(lia) Hrun Hall) as (_ & _ & _ & _ & Hmem).
  rewrite Hmem. reflexivity.
Defined.

Lemma pushes_in_order {R : Type} (pushes queue : list (R -> R)) :
  fold_left (fun q task => PushTask task q) pushes queue = queue ++ pushes.
Proof.
  revert queue. induction pushes as [|task pushes IH]; intros queue; simpl.
  - rewrite app_nil_r. reflexivity.
  - rewrite IH. unfold PushTask. rewrite <- app_assoc. reflexivity.
Qed.

(** X14.  The queue is first in, first out under every interleaving: after
    any number of steps the tasks taken so far are, in order, the first ones
    that [PushTask] was called with, and the queue holds the rest in the order
    of the calls. *)
Theorem tasks_taken_in_push_order {R : Type} (E : report_env) workerCount
    (pushes : list (R -> R)) mem stamps0 k (st : pool_state R) :
  nsteps (pool_step E) k
    (spawn workerCount (fold_left (fun q task => PushTask task q) pushes []) mem stamps0) st ->
  pushes = taken st ++ m_tasks st
  /\ taken st = take (length (taken st)) pushes
  /\ m_tasks st = drop (length (taken st)) pushes.
Proof.
  rewrite pushes_in_order. simpl. intros Hrun.
  destruct (run_inv E _ _ _ _ _ _ Hrun) as [[Hfifo _ _ _ _] _].
  split; [symmetry; exact Hfifo|].
  rewrite <- Hfifo. rewrite take_app_length, drop_app_length. split; reflexivity.
Qed.

Lemma tasks_taken_in_push_order_witness :
  let E := mkReportEnv 4 8 (fun _ _ _ => 0) in
  let start := spawn 2 (PushTask Z.double (PushTask Z.succ [])) 0 (mkTimers 0 0 0) in
  let st := take_task E 1 Spawned Z.succ [Z.double] (1, 1, 1, 1) start in
  nsteps (pool_step E) 1 start st /\ [Z.succ; Z.double] = taken st ++ m_tasks st.
Proof.
  intros E start st.
  assert (Hrun : nsteps (pool_step E) 1 start st).
  { apply nsteps_once.
    apply (step_take E 1 Spawned Z.succ [Z.double] (1, 1, 1, 1) start); reflexivity. }
  split; [exact Hrun|].
  exact (proj1 (tasks_taken_in_push_order E 2 [Z.succ; Z.double] 0 (mkTimers 0 0 0) 1 st Hrun)).
Defined.

(** ** The pool as [main] uses it *)

Lemma pushed_tasks_fmap g p img :
  pushed_tasks g p img = section_task g p img <$> section_coords p.
Proof.
  unfold pushed_tasks.
  assert (Hgen : forall cs queue,
            fold_left (fun q c => PushTask (section_task g p img c) q) cs queue
            = queue ++ (section_task g p img <$> cs)).
  { induction cs as [|c cs IH]; intros queue; simpl.
    - rewrite app_nil_r. reflexivity.
    - rewrite IH. unfold PushTask. rewrite <- app_assoc. reflexivity. }
  apply Hgen.
Qed.

Lemma fmap_is_map {A B} (f : A -> B) (l : list A) : f <$> l = map f l.
Proof. induction l as [|x l IH]; simpl; [reflexivity | rewrite <- IH; reflexivity]. Qed.

Lemma run_all_section_tasks g p img cs result :
  run_all (section_task g p img <$> cs) result = run_pool g p img cs result.
Proof.
  revert result. induction cs as [|c cs IH]; intros result; [reflexivity|].
  simpl. apply IH.
Qed.

(** X15.  For the tasks of [main] the outcome does not depend on how the
    threads interleave: when all workers have returned, the section buffers
    are those that running the tasks one after the other in queue order
    leaves, and so is the image assembled from them. *)
Theorem pool_result_is_sequential (g : globals) (p : plan) (img : VImage)
    (E : report_env) (fuel : nat) (H : Z) (stamps0 : timers) (k : nat)
    (st : pool_state (gmap (Z * Z) (list Z))) :
  planner fuel g H (im_width img) (im_height img) = Ok p ->
  nsteps (pool_step E) k
    (spawn (Z.to_nat (workerCount p)) (pushed_tasks g p img) (allocate g p) stamps0) st ->
  all_returned st ->
  memory st = run_pool g p img (section_coords p) (allocate g p)
  /\ assemble g p (memory st)
     = assemble g p (run_pool g p img (section_coords p) (allocate g p)).
Proof.
  intros Hplan Hrun Hall.
  assert (Hwc : (1 <= Z.to_nat (workerCount p))%nat).
  { rewrite (planner_workerCount _ _ _ _ _ _ Hplan).
    pose proof (workers_for_floor H _ _ (tiles_nonneg (im_width img) (x_factor g))
                  (tiles_nonneg (im_height img) (y_factor g))). lia. }
  assert (Hmem : memory st = run_pool g p img (section_coords p) (allocate g p)).
  { destruct (run_inv E _ _ _ _ _ _ Hrun) as [[Hfifo Honce Hm Hlen Hempty] _].
    assert (Hq : m_tasks st = []).
    { apply Hempty. exists 0%nat.
      destruct (threads st) as [|s ws] eqn:Hts; [simpl in Hlen; lia|].
      unfold all_returned in Hall. rewrite Hts in Hall.
      apply Forall_cons in Hall. destruct Hall as [-> _]. reflexivity. }
    rewrite Hq, app_nil_r in Hfifo.
    rewrite (all_returned_nothing_running _ Hall), app_nil_r, Hfifo in Honce.
    rewrite pushed_tasks_fmap, fmap_is_map in Honce.
    apply Permutation_map_inv in Honce. destruct Honce as (cs & Hcs & Hperm).
    rewrite Hm, Hcs, <- fmap_is_map, run_all_section_tasks.
    apply run_pool_order_irrelevant. symmetry. exact Hperm. }
  split; [exact Hmem | rewrite Hmem; reflexivity].
Qed.

(** The 4 x 4 image in four sections on two threads that overtake each other. *)
Lemma pool_result_is_sequential_witness :
  let g := mkGlobals 2 2 1 in
  let p := mkPlan 2 2 2 1 1 2 2 2 2 in
  let E := mkReportEnv 4 16 (fun _ _ _ => 0) in
  let task := section_task g p img44 in
  exists st,
    planner 40 g 4 (im_width img44) (im_height img44) = Ok p
    /\ nsteps (pool_step E) 10
         (spawn (Z.to_nat (workerCount p)) (pushed_tasks g p img44) (allocate g p)
            (mkTimers 0 0 0)) st
    /\ all_returned st
    /\ completed st = [task (0, 1); task (0, 0); task (1, 1); task (1, 0)]
    /\ memory st = run_pool g p img44 (section_coords p) (allocate g p).
Proof.
  intros g p E task.
  set (s0 := spawn (Z.to_nat (workerCount p)) (pushed_tasks g p img44) (allocate g p)
               (mkTimers 0 0 0)).
  set (s1 := take_task E 0 Spawned (task (0, 0)) [task (0, 1); task (1, 0); task (1, 1)]
               (1, 1, 1, 1) s0).
  set (s2 := take_task E 1 Spawned (task (0, 1)) [task (1, 0); task (1, 1)]
               (1, 1, 1, 1) s1).
  set (s3 := finish_task 1 (task (0, 1)) s2).
  set (s4 := take_task E 1 Waiting (task (1, 0)) [task (1, 1)] (2, 2, 2, 2) s3).
  set (s5 := finish_task 0 (task (0, 0)) s4).
  set (s6 := take_task E 0 Waiting (task (1, 1)) [] (3, 3, 3, 3) s5).
  set (s7 := finish_task 0 (task (1, 1)) s6).
  set (s8 := finish_task 1 (task (1, 0)) s7).
  set (s9 := leave 0 Waiting s8).
  set (s10 := leave 1 Waiting s9).
  assert (Hplan : planner 40 g 4 (im_width img44) (im_height img44) = Ok p)
    by (vm_compute; reflexivity).
  assert (Hrun : nsteps (pool_step E) 10 s0 s10).
  { eapply nsteps_l; [apply (step_take E 0 Spawned (task (0, 0))
                               [task (0, 1); task (1, 0); task (1, 1)] (1, 1, 1, 1) s0);
                      reflexivity|].
    eapply nsteps_l; [apply (step_take E 1 Spawned (task (0, 1))
                               [task (1, 0); task (1, 1)] (1, 1, 1, 1) s1);
                      reflexivity|].
    eapply nsteps_l; [apply (step_finish E 1 (task (0, 1)) s2); reflexivity|].
    eapply nsteps_l; [apply (step_take E 1 Waiting (task (1, 0)) [task (1, 1)]
                               (2, 2, 2, 2) s3); reflexivity|].
    eapply nsteps_l; [apply (step_finish E 0 (task (0, 0)) s4); reflexivity|].
    eapply nsteps_l; [apply (step_take E 0 Waiting (task (1, 1)) [] (3, 3, 3, 3) s5);
                      reflexivity|].
    eapply nsteps_l; [apply (step_finish E 0 (task (1, 1)) s6); reflexivity|].
    eapply nsteps_l; [apply (step_finish E 1 (task (1, 0)) s7); reflexivity|].
    eapply nsteps_l; [apply (step_leave E 0 Waiting s8); reflexivity|].
    eapply nsteps_l; [apply (step_leave E 1 Waiting s9); reflexivity|].
    apply nsteps_O. }
  assert (Hall : all_returned s10) by (repeat constructor).
  exists s10. split; [exact Hplan|]. split; [exact Hrun|]. split; [exact Hall|].
  split; [reflexivity|].
  exact (proj1 (pool_result_is_sequential g p img44 E 40 4 (mkTimers 0 0 0) 10 s10
                  Hplan Hrun Hall)).
Defined.

(** ** The "Pixels left" lines *)

Lemma pixels_left_lines_app log log' :
  pixels_left_lines (log ++ log') = pixels_left_lines log ++ pixels_left_lines log'.
Proof. unfold pixels_left_lines. apply bind_app. Qed.

Lemma pixels_left_lines_ready {R : Type} (was : worker R) w :
  pixels_left_lines (ready was w) = [].
Proof. destruct was; reflexivity. Qed.

(** The [i]-th task taken prints the pixels of the tasks not yet taken. *)
Lemma console_pixels_left {R : Type} (E : report_env) workerCount
    (tasks : list (R -> R)) mem stamps0 k (st : pool_state R) :
  nsteps (pool_step E) k (spawn workerCount tasks mem stamps0) st ->
  pixels_left_lines (console st)
  = (fun i => wrap ((Z.of_nat (length tasks) - i) * taskPixels E))
      <$> seqZ 0 (Z.of_nat (length (taken st))).
Proof.
  revert st. induction k as [|k IH]; intros st Hrun.
  - inversion Hrun; subst. reflexivity.
  - apply nsteps_inv_r in Hrun. destruct Hrun as (mid & Hrun & Hstep).
    specialize (IH mid Hrun).
    destruct (run_inv E _ _ _ _ _ _ Hrun) as [[Hfifo _ _ _ _] _].
    destruct Hstep as [w was task rest clock mid Hw Hidle Hq | w was mid Hw Hidle Hq
                      | w task mid Hw];
      cbn [take_task leave finish_task console taken].
    + rewrite !pixels_left_lines_app, pixels_left_lines_ready, IH.
      rewrite length_app. cbn [length]. rewrite Nat.add_1_r, seqZ_S, fmap_app.
      f_equal. simpl. f_equal. f_equal. f_equal.
      apply (f_equal (@length (R -> R))) in Hfifo. rewrite length_app in Hfifo. lia.
    + rewrite !pixels_left_lines_app, pixels_left_lines_ready, IH, app_nil_r.
      reflexivity.
    + exact IH.
Qed.

Lemma section_coords_length p :
  0 <= x_sectionCount p -> 0 <= y_sectionCount p ->
  Z.of_nat (length (section_coords p)) = x_sectionCount p * y_sectionCount p.
Proof.
  intros Hx Hy. unfold section_coords.
  rewrite (bind_uniform_length _ _ (Z.to_nat (y_sectionCount p))), length_seqZ.
  - rewrite Nat2Z.inj_mul, !Z2Nat.id by lia. reflexivity.
  - intros x _. rewrite (bind_uniform_length _ _ 1), length_seqZ; [lia|].
    intros y _. reflexivity.
Qed.

(** X16.  In a run of the pool of [main] the "Pixels left" lines count down
    by one task's pixels from the pixels of all sections, and no line shows
    more than the pixels of the image: the difference [totalPixels -
    pixelsLeft] that [EstimateTimeLeft] forms does not wrap around. *)
Theorem pixels_left_count_down (g : globals) (p : plan) (img : VImage)
    (E : report_env) (fuel : nat) (H : Z) (stamps0 : timers) (k : nat)
    (st : pool_state (gmap (Z * Z) (list Z))) :
  1 <= x_factor g < modulus -> 1 <= y_factor g < modulus ->
  0 <= im_width img < modulus -> 0 <= im_height img < modulus ->
  im_width img * im_height img < modulus ->
  planner fuel g H (im_width img) (im_height img) = Ok p ->
  taskPixels E = wrap (x_sectionSize p * y_sectionSize p) ->
  totalPixels E = wrap (im_width img * im_height img) ->
  nsteps (pool_step E) k
    (spawn (Z.to_nat (workerCount p)) (pushed_tasks g p img) (allocate g p) stamps0) st ->
  pixels_left_lines (console st)
  = (fun i => (x_sectionCount p * y_sectionCount p - i)
              * (x_sectionSize p * y_sectionSize p))
      <$> seqZ 0 (Z.of_nat (length (taken st)))
  /\ Forall (fun n => 0 <= n <= totalPixels E
                      /\ wrap (totalPixels E - n) = totalPixels E - n)
       (pixels_left_lines (console st)).
Proof.
  intros Hxf Hyf Hw Hh Htotal Hplan Htp Htot Hrun.
  pose proof (planner_Ok_facts _ _ _ _ _ _ Hxf Hyf Hw Hh Hplan) as Hpf.
  destruct (grid_inside g (im_width img) (im_height img) p
              ltac:(lia) ltac:(lia) ltac:(lia) ltac:(lia) Hpf)
    as (Hxc & Hyc & Hgx & Hgy & _).
  destruct Hpf.
  assert (Hgrid : x_sectionCount p * y_sectionCount p
                  * (x_sectionSize p * y_sectionSize p)
                  <= im_width img * im_height img).
  { replace (x_sectionCount p * y_sectionCount p * (x_sectionSize p * y_sectionSize p))
      with ((x_sectionCount p * x_sectionSize p) * (y_sectionCount p * y_sectionSize p))
      by ring.
    apply Z.mul_le_mono_nonneg; nia. }
  assert (Htask : 0 <= x_sectionSize p * y_sectionSize p) by nia.
  pose proof (console_pixels_left E _ _ _ _ _ _ Hrun) as Hlines.
  destruct (run_inv E _ _ _ _ _ _ Hrun) as [[Hfifo _ _ _ _] _].
  assert (Hlen : Z.of_nat (length (taken st)) <= x_sectionCount p * y_sectionCount p).
  { rewrite <- (section_coords_length p Hxc Hyc).
    apply (f_equal (@length _)) in Hfifo.
    rewrite length_app, pushed_tasks_fmap, length_fmap in Hfifo. lia. }
  assert (Hbound : forall i, 0 <= i < Z.of_nat (length (taken st)) ->
            0 <= (x_sectionCount p * y_sectionCount p - i)
                 * (x_sectionSize p * y_sectionSize p)
            <= im_width img * im_height img).
  { intros i Hi. split; [apply Z.mul_nonneg_nonneg; lia|].
    apply Z.le_trans with (x_sectionCount p * y_sectionCount p
                           * (x_sectionSize p * y_sectionSize p)); [|exact Hgrid].
    apply Z.mul_le_mono_nonneg_r; lia. }
  assert (Heq : pixels_left_lines (console st)
                = (fun i => (x_sectionCount p * y_sectionCount p - i)
                            * (x_sectionSize p * y_sectionSize p))
                    <$> seqZ 0 (Z.of_nat (length (taken st)))).
  { rewrite Hlines. apply list_fmap_ext. intros j i Hj.
    apply list_elem_of_lookup_2, elem_of_seqZ in Hj.
    rewrite pushed_tasks_fmap, length_fmap, (section_coords_length p Hxc Hyc), Htp.
    rewrite (wrap_small (x_sectionSize p * y_sectionSize p)) by (unfold in_range; nia).
    apply wrap_small. unfold in_range. specialize (Hbound i ltac:(lia)). lia. }
  split; [exact Heq|].
  rewrite Heq. apply List.Forall_forall. intros n Hn.
  apply list_elem_of_In, list_elem_of_fmap in Hn. destruct Hn as (i & -> & Hi).
  apply elem_of_seqZ in Hi. specialize (Hbound i ltac:(lia)).
  rewrite Htot, (wrap_small (im_width img * im_height img)) by (unfold in_range; nia).
  split; [lia|]. apply wrap_small. unfold in_range. lia.
Qed.

(** Two threads take the first two of the four sections of the 4 x 4 image:
    the lines show 16 and 12 pixels. *)
Lemma pixels_left_count_down_witness :
  let g := mkGlobals 2 2 1 in
  let p := mkPlan 2 2 2 1 1 2 2 2 2 in
  let E := mkReportEnv 4 16 (fun _ _ _ => 0) in
  let task := section_task g p img44 in
  exists st,
    nsteps (pool_step E) 2
      (spawn (Z.to_nat (workerCount p)) (pushed_tasks g p img44) (allocate g p)
         (mkTimers 0 0 0)) st
    /\ pixels_left_lines (console st) = [16; 12]
    /\ Forall (fun n => 0 <= n <= totalPixels E
                        /\ wrap (totalPixels E - n) = totalPixels E - n)
         (pixels_left_lines (console st)).
Proof.
  intros g p E task.
  set (s0 := spawn (Z.to_nat (workerCount p)) (pushed_tasks g p img44) (allocate g p)
               (mkTimers 0 0 0)).
  set (s1 := take_task E 0 Spawned (task (0, 0)) [task (0, 1); task (1, 0); task (1, 1)]
               (1, 1, 1, 1) s0).
  set (s2 := take_task E 1 Spawned (task (0, 1)) [task (1, 0); task (1, 1)]
               (1, 1, 1, 1) s1).
  assert (Hplan : planner 40 g 4 (im_width img44) (im_height img44) = Ok p)
    by (vm_compute; reflexivity).
  assert (Hrun : nsteps (pool_step E) 2 s0 s2).
  { eapply nsteps_l; [apply (step_take E 0 Spawned (task (0, 0))
                               [task (0, 1); task (1, 0); task (1, 1)] (1, 1, 1, 1) s0);
                      reflexivity|].
    eapply nsteps_l; [apply (step_take E 1 Spawned (task (0, 1))
                               [task (1, 0); task (1, 1)] (1, 1, 1, 1) s1);
                      reflexivity|].
    apply nsteps_O. }
  exists s2. split; [exact Hrun|]. split; [reflexivity|].
  refine (proj2 (pixels_left_count_down g p img44 E 40 4 (mkTimers 0 0 0) 2 s2
                   _ _ _ _ _ Hplan _ _ Hrun)).
  - unfold modulus; simpl; lia.
  - unfold modulus; simpl; lia.
  - unfold modulus; simpl; lia.
  - unfold modulus; simpl; lia.
  - unfold modulus; simpl; lia.
  - reflexivity.
  - reflexivity.
Defined.

(** ** From the source image to the saved image *)

Lemma insert_image_pixel main sub x y i j b :
  0 <= i < im_width main -> 0 <= j < im_height main -> 0 <= b < im_bands main ->
  pixel_sample (insert_image main sub x y) i j b
  = if (x <=? i) && (i <? x + im_width sub) && (y <=? j) && (j <? y + im_height sub)
    then pixel_sample sub (i - x) (j - y) b
    else pixel_sample main i j b.
Proof.
  intros Hi Hj Hb. unfold pixel_sample at 1, insert_image.
  cbn [im_width im_height im_bands im_data].
  apply (raster_sample (im_width main) (im_height main) (im_bands main)); assumption.
Qed.

Lemma insert_fold_shape {A} (blk : A -> VImage) (px py : A -> Z) (cs : list A)
    (out0 : VImage) :
  let out := fold_left (fun out c => insert_image out (blk c) (px c) (py c)) cs out0 in
  im_width out = im_width out0 /\ im_height out = im_height out0
  /\ im_bands out = im_bands out0.
Proof.
  revert out0. induction cs as [|c cs IH]; intros out0; [repeat split|].
  cbn [fold_left]. cbv zeta. destruct (IH (insert_image out0 (blk c) (px c) (py c)))
    as (Hw & Hh & Hb).
  rewrite Hw, Hh, Hb. repeat split.
Qed.

(** Blocks placed one after the other where at most one covers the pixel
    [(i, j)]: the pixel shows that block, or the image underneath. *)
Lemma insert_fold_pixel {A} (blk : A -> VImage) (px py : A -> Z) (cs : list A)
    (out0 : VImage) i j b :
  let out := fold_left (fun out c => insert_image out (blk c) (px c) (py c)) cs out0 in
  let covers c := (px c <=? i) && (i <? px c + im_width (blk c))
                  && (py c <=? j) && (j <? py c + im_height (blk c)) in
  0 <= i < im_width out0 -> 0 <= j < im_height out0 -> 0 <= b < im_bands out0 ->
  (forall c c', c ∈ cs -> c' ∈ cs -> covers c = true -> covers c' = true -> c = c') ->
  (forall c, c ∈ cs -> covers c = true ->
     pixel_sample out i j b = pixel_sample (blk c) (i - px c) (j - py c) b)
  /\ ((forall c, c ∈ cs -> covers c = false) ->
      pixel_sample out i j b = pixel_sample out0 i j b).
Proof.
  intros out covers Hi Hj Hb. subst out.
  induction cs as [|c0 cs IH] using rev_ind; intros Hone.
  - split; [intros c Hc; apply elem_of_nil in Hc; contradiction | reflexivity].
  - rewrite fold_left_app. cbn [fold_left].
    destruct (insert_fold_shape blk px py cs out0) as (Hw & Hh & Hbd).
    cbv zeta in Hw, Hh, Hbd.
    rewrite insert_image_pixel by (rewrite ?Hw, ?Hh, ?Hbd; assumption).
    fold (covers c0).
    destruct IH as [IHin IHout].
    { intros c c' Hc Hc'. apply Hone; apply elem_of_app; left; assumption. }
    assert (Hlast : c0 ∈ cs ++ [c0])
      by (apply elem_of_app; right; apply list_elem_of_singleton; reflexivity).
    split.
    + intros c Hc Hcov. destruct (covers c0) eqn:Hc0.
      * rewrite (Hone c c0 Hc Hlast Hcov Hc0). reflexivity.
      * apply elem_of_app in Hc. destruct Hc as [Hc | Hc].
        -- apply IHin; assumption.
        -- apply list_elem_of_singleton in Hc. subst c. congruence.
    + intros Hnone. rewrite (Hnone c0 Hlast).
      apply IHout. intros c Hc. apply Hnone, elem_of_app. left. exact Hc.
Qed.

Lemma allocate_lookup g p c :
  c ∈ section_coords p ->
  allocate g p !! c
  = Some (replicate (Z.to_nat (wrap (x_section p * y_section p * bandCount g))) 0).
Proof.
  unfold allocate. generalize (∅ : gmap (Z * Z) (list Z)).
  induction (section_coords p) as [|c0 cs IH] using rev_ind; intros m Hc.
  - apply elem_of_nil in Hc. contradiction.
  - rewrite fold_left_app. cbn [fold_left].
    destruct (decide (c = c0)) as [-> | Hne].
    + apply lookup_insert_eq.
    + rewrite lookup_insert_ne by congruence. apply IH.
      apply elem_of_app in Hc. destruct Hc as [Hc | Hc]; [exact Hc|].
      apply list_elem_of_singleton in Hc. contradiction.
Qed.

(** A tile of a section is a tile of the image. *)
Lemma section_tile g p img c x y :
  1 <= x_factor g -> 1 <= y_factor g ->
  0 <= im_width img < modulus -> 0 <= im_height img < modulus ->
  plan_facts g (im_width img) (im_height img) p -> c ∈ section_coords p ->
  0 <= x < x_section p -> 0 <= y < y_section p ->
  tile_pixels g (section_area p img c) x y
  = tile_pixels g img (c.1 * x_section p + x) (c.2 * y_section p + y).
Proof.
  intros Hxf Hyf Hw Hh Hpf Hc Hx Hy.
  destruct (section_rect_exact g _ _ p c Hxf Hyf Hw Hh Hpf Hc)
    as (Hrect & Hl & Hr & Ht & Hb).
  destruct (grid_inside g (im_width img) (im_height img) p Hxf Hyf
              ltac:(lia) ltac:(lia) Hpf)
    as (_ & _ & Hgx & Hgy & _).
  apply elem_of_section_coords in Hc. destruct Hc as [Hc1 Hc2].
  destruct Hpf.
  assert (Hxin : 0 <= x * x_factor g /\ x * x_factor g + x_factor g <= x_sectionSize p)
    by nia.
  assert (Hyin : 0 <= y * y_factor g /\ y * y_factor g + y_factor g <= y_sectionSize p)
    by nia.
  unfold tile_pixels, section_area. rewrite Hrect. unfold extract_area at 1 3.
  cbn [im_data im_bands].
  rewrite !(wrap_small (x * x_factor g)), !(wrap_small (y * y_factor g))
    by (unfold in_range; lia).
  rewrite (wrap_small ((c.1 * x_section p + x) * x_factor g)) by (unfold in_range; nia).
  rewrite (wrap_small ((c.2 * y_section p + y) * y_factor g)) by (unfold in_range; nia).
  apply raster_ext. intros i j b Hi Hj Hbd.
  rewrite extract_area_pixel by lia.
  f_equal; nia.
Qed.

(** The buffer of a section after the pool has run holds the answers for
    the tiles of the section. *)
Lemma section_buffer g p img c x y b :
  1 <= x_factor g < modulus -> 1 <= y_factor g < modulus ->
  0 <= im_width img < modulus -> 0 <= im_height img < modulus ->
  0 <= bandCount g -> x_tiles p * y_tiles p * bandCount g < modulus ->
  plan_facts g (im_width img) (im_height img) p -> c ∈ section_coords p ->
  0 <= x < x_section p -> 0 <= y < y_section p -> 0 <= b < bandCount g ->
  sample (default [] (run_pool g p img (section_coords p) (allocate g p) !! c))
    ((y * x_section p + x) * bandCount g + b)
  = band_of g
      (find_dominant g (tile_pixels g img (c.1 * x_section p + x) (c.2 * y_section p + y)))
      b.
Proof.
  intros Hxf Hyf Hw Hh Hbc Hsize Hpf Hc Hx Hy Hb.
  rewrite run_pool_lookup by apply section_coords_NoDup.
  rewrite bool_decide_eq_true_2 by exact Hc.
  rewrite (allocate_lookup g p c Hc). cbn [default].
  rewrite <- (section_tile g p img c x y) by (assumption || lia).
  destruct (section_rect_exact g (im_width img) (im_height img) p c
              ltac:(lia) ltac:(lia) Hw Hh Hpf Hc)
    as (Hrect & Hl & Hr & Ht & Hbt).
  destruct (grid_inside g (im_width img) (im_height img) p
              ltac:(lia) ltac:(lia) ltac:(lia) ltac:(lia) Hpf)
    as (_ & _ & Hgx & Hgy & _).
  pose proof Hpf as [].
  assert (Hxt : wrap (im_width (section_area p img c)) / wrap (x_factor g) = x_section p).
  { unfold section_area. rewrite Hrect. cbn [extract_area im_width].
    rewrite !wrap_small by (unfold in_range; lia).
    rewrite pf_x_size0. apply Z.div_mul. lia. }
  assert (Hyt : wrap (im_height (section_area p img c)) / wrap (y_factor g) = y_section p).
  { unfold section_area. rewrite Hrect. cbn [extract_area im_height].
    rewrite !wrap_small by (unfold in_range; lia).
    rewrite pf_y_size0. apply Z.div_mul. lia. }
  assert (Hle : x_section p * y_section p * bandCount g
                <= x_tiles p * y_tiles p * bandCount g).
  { apply Z.mul_le_mono_nonneg_r; [lia|]. apply Z.mul_le_mono_nonneg; lia. }
  assert (H0 : 0 <= x_section p * y_section p * bandCount g).
  { apply Z.mul_nonneg_nonneg; [apply Z.mul_nonneg_nonneg|]; lia. }
  pose proof (work_writes g (section_area p img c)
                (replicate (Z.to_nat (wrap (x_section p * y_section p * bandCount g))) 0)
                x y b) as Hwork.
  cbv zeta in Hwork. rewrite Hxt, Hyt in Hwork.
  apply Hwork; try lia.
  rewrite length_replicate, wrap_small by (unfold in_range; lia). lia.
Qed.

(** The image assembled from the section buffers: inside the section grid
    a pixel is the answer for the tile of the same coordinates, outside it
    is what the output buffer was filled with. *)
Lemma assembled_pixel g p img :
  1 <= x_factor g < modulus -> 1 <= y_factor g < modulus ->
  0 <= im_width img < modulus -> 0 <= im_height img < modulus ->
  0 <= bandCount g -> x_tiles p * y_tiles p * bandCount g < modulus ->
  plan_facts g (im_width img) (im_height img) p ->
  let out := assemble g p (run_pool g p img (section_coords p) (allocate g p)) in
  im_width out = x_tiles p /\ im_height out = y_tiles p
  /\ im_bands out = bandCount g
  /\ forall X Y b,
       0 <= X < x_tiles p -> 0 <= Y < y_tiles p -> 0 <= b < bandCount g ->
       pixel_sample out X Y b
       = if (X <? x_sectionCount p * x_section p) && (Y <? y_sectionCount p * y_section p)
         then band_of g (find_dominant g (tile_pixels g img X Y)) b
         else 0.
Proof.
  intros Hxf Hyf Hw Hh Hbands Hsize Hpf out. subst out.
  destruct (grid_inside g (im_width img) (im_height img) p
              ltac:(lia) ltac:(lia) ltac:(lia) ltac:(lia) Hpf)
    as (Hxc & Hyc & Hgx & Hgy & Hbx & Hby).
  set (res := run_pool g p img (section_coords p) (allocate g p)) in *.
  set (blk := fun c : Z * Z =>
                new_from_memory (default [] (res !! c)) (x_section p) (y_section p)
                  (bandCount g)).
  set (px := fun c : Z * Z => wrap (c.1 * x_section p)).
  set (py := fun c : Z * Z => wrap (c.2 * y_section p)).
  set (out0 := new_from_memory
                 (replicate (Z.to_nat (wrap (x_tiles p * y_tiles p * bandCount g))) 0)
                 (x_tiles p) (y_tiles p) (bandCount g)).
  assert (Hasm : assemble g p res
                 = fold_left (fun out c => insert_image out (blk c) (px c) (py c))
                     (section_coords p) out0) by reflexivity.
  destruct (insert_fold_shape blk px py (section_coords p) out0) as (Hsw & Hsh & Hsb).
  cbv zeta in Hsw, Hsh, Hsb. rewrite <- Hasm in Hsw, Hsh, Hsb.
  split; [exact Hsw|]. split; [exact Hsh|]. split; [exact Hsb|].
  intros X Y b HX HY Hb.
  pose proof Hpf as [].
  assert (Hxs : 1 <= x_section p) by nia.
  assert (Hys : 1 <= y_section p) by nia.
  assert (Hxtm : x_tiles p < modulus).
  { rewrite pf_x_tiles0. apply Z.le_lt_trans with (im_width img); [|lia].
    apply Z.div_le_upper_bound; nia. }
  assert (Hytm : y_tiles p < modulus).
  { rewrite pf_y_tiles0. apply Z.le_lt_trans with (im_height img); [|lia].
    apply Z.div_le_upper_bound; nia. }
  assert (Hcov : forall c, c ∈ section_coords p ->
            ((px c <=? X) && (X <? px c + im_width (blk c))
             && (py c <=? Y) && (Y <? py c + im_height (blk c)) = true
             <-> c = (X / x_section p, Y / y_section p))
            /\ px c = c.1 * x_section p /\ py c = c.2 * y_section p).
  { intros c Hc. apply elem_of_section_coords in Hc. destruct Hc as [Hc1 Hc2].
    assert (Hpx : px c = c.1 * x_section p)
      by (apply wrap_small; unfold in_range; nia).
    assert (Hpy : py c = c.2 * y_section p)
      by (apply wrap_small; unfold in_range; nia).
    split; [|split; assumption].
    rewrite Hpx, Hpy. cbn [blk new_from_memory im_width im_height].
    rewrite !andb_true_iff, !Z.leb_le, !Z.ltb_lt.
    destruct c as [c1 c2]. cbn [fst snd] in *. split.
    - intros [[[H1 H2] H3] H4]. f_equal.
      + apply (Z.div_unique_pos X (x_section p) c1 (X - c1 * x_section p)); lia.
      + apply (Z.div_unique_pos Y (y_section p) c2 (Y - c2 * y_section p)); lia.
    - intros Heq. injection Heq as -> ->.
      pose proof (Z.mul_div_le X (x_section p) ltac:(lia)).
      pose proof (Z.mul_succ_div_gt X (x_section p) ltac:(lia)).
      pose proof (Z.mul_div_le Y (y_section p) ltac:(lia)).
      pose proof (Z.mul_succ_div_gt Y (y_section p) ltac:(lia)).
      lia. }
  destruct (insert_fold_pixel blk px py (section_coords p) out0 X Y b) as [Hin Hout].
  { cbn [out0 new_from_memory im_width]. exact HX. }
  { cbn [out0 new_from_memory im_height]. exact HY. }
  { cbn [out0 new_from_memory im_bands]. exact Hb. }
  { intros c c' Hc Hc' H1 H2.
    apply (proj1 (Hcov c Hc)) in H1. apply (proj1 (Hcov c' Hc')) in H2. congruence. }
  cbv zeta in Hin, Hout. rewrite <- Hasm in Hin, Hout.
  destruct ((X <? x_sectionCount p * x_section p)
            && (Y <? y_sectionCount p * y_section p)) eqn:Hgrid.
  - apply andb_true_iff in Hgrid. destruct Hgrid as [HgX HgY].
    apply Z.ltb_lt in HgX, HgY.
    set (c := (X / x_section p, Y / y_section p)).
    assert (Hc : c ∈ section_coords p).
    { apply elem_of_section_coords. cbn [c fst snd]. split.
      - split; [apply Z.div_pos; lia|]. apply Z.div_lt_upper_bound; lia.
      - split; [apply Z.div_pos; lia|]. apply Z.div_lt_upper_bound; lia. }
    destruct (Hcov c Hc) as (Hiff & Hpx & Hpy).
    rewrite (Hin c Hc (proj2 Hiff eq_refl)), Hpx, Hpy.
    unfold pixel_sample. cbn [blk new_from_memory im_width im_bands im_data c fst snd].
    pose proof (Z.div_mod X (x_section p) ltac:(lia)) as HdX.
    pose proof (Z.div_mod Y (y_section p) ltac:(lia)) as HdY.
    pose proof (Z.mod_pos_bound X (x_section p) ltac:(lia)) as HmX.
    pose proof (Z.mod_pos_bound Y (y_section p) ltac:(lia)) as HmY.
    replace (X - X / x_section p * x_section p) with (X mod x_section p) by lia.
    replace (Y - Y / y_section p * y_section p) with (Y mod y_section p) by lia.
    unfold res.
    rewrite (section_buffer g p img c (X mod x_section p) (Y mod y_section p) b)
      by (assumption || lia).
    cbn [c fst snd]. do 3 f_equal; lia.
  - rewrite Hout.
    + unfold pixel_sample. cbn [out0 new_from_memory im_width im_bands im_data].
      unfold sample. destruct (_ <? 0); [reflexivity|].
      destruct (nth_in_or_default (Z.to_nat ((Y * x_tiles p + X) * bandCount g + b))
                  (replicate (Z.to_nat (wrap (x_tiles p * y_tiles p * bandCount g))) 0) 0)
        as [Hnth | Hnth]; [|exact Hnth].
      apply list_elem_of_In, elem_of_replicate in Hnth. apply Hnth.
    + intros c Hc. destruct (Hcov c Hc) as (Hiff & _ & _).
      apply not_true_is_false. intros Htrue. apply Hiff in Htrue.
      apply elem_of_section_coords in Hc. rewrite Htrue in Hc. cbn [fst snd] in Hc.
      apply andb_false_iff in Hgrid. destruct Hc as [Hc1 Hc2].
      pose proof (Z.mul_succ_div_gt X (x_section p) ltac:(lia)).
      pose proof (Z.mul_succ_div_gt Y (y_section p) ltac:(lia)).
      destruct Hgrid as [Hg | Hg]; apply Z.ltb_ge in Hg; nia.
Qed.

(** X17.  What is in the image [main] saves, for an image of at most four
    bands.  When the planner returns a plan and the size of the output buffer
    fits [unsigned int], the run ends with exit code 0 after saving an image
    of [x_tiles] by [y_tiles] pixels in which the pixel in column [X], row [Y]
    is the answer of the reducer for the tile in column [X], row [Y] of the
    source image if the tile lies in the section grid, and is 0 in all bands
    otherwise. *)
Theorem saved_pixel_is_tile_answer fuel env argv img p :
  reaches_planner env argv img ->
  atoi (arg argv 1) < modulus -> atoi (arg argv 2) < modulus ->
  0 <= im_width img < modulus -> 0 <= im_height img < modulus ->
  0 <= im_bands img <= 4 -> x_tiles p * y_tiles p * im_bands img < modulus ->
  planner fuel (globals_of argv img) (hardware_concurrency env)
    (im_width img) (im_height img) = Ok p ->
  let g := globals_of argv img in
  exists out,
    main fuel env argv
    = mkRun (Opened (arg argv 3) :: section_events p ++ [Saved (arg argv 4) out]) (Exit 0)
    /\ im_width out = x_tiles p /\ im_height out = y_tiles p
    /\ im_bands out = im_bands img
    /\ forall X Y b,
         0 <= X < x_tiles p -> 0 <= Y < y_tiles p -> 0 <= b < im_bands img ->
         pixel_sample out X Y b
         = if (X <? x_sectionCount p * x_section p) && (Y <? y_sectionCount p * y_section p)
           then band_of g (find_dominant g (tile_pixels g img X Y)) b
           else 0.
Proof.
  intros Hrp Hxm Hym Hw Hh [Hbands Hfour] Hsize Hplan g.
  pose proof (rp_x _ _ _ Hrp) as Hx1. pose proof (rp_y _ _ _ Hrp) as Hy1.
  assert (Hxf : 1 <= x_factor g < modulus) by (simpl; lia).
  assert (Hyf : 1 <= y_factor g < modulus) by (simpl; lia).
  fold g in Hplan.
  pose proof (planner_Ok_facts _ _ _ _ _ _ Hxf Hyf Hw Hh Hplan) as Hpf.
  pose proof (main_planned fuel env argv img Hrp) as Hmain.
  fold g in Hmain. rewrite Hplan in Hmain. cbv zeta in Hmain.
  exists (assemble g p (run_pool g p img (section_coords p) (allocate g p))).
  split; [exact Hmain|].
  exact (assembled_pixel g p img Hxf Hyf Hw Hh Hbands Hsize Hpf).
Qed.

(** The 10 x 2 run: of the five tiles of a row the sections cover four; the
    fifth pixel of the saved row is 0. *)
Lemma saved_pixel_is_tile_answer_witness :
  reaches_planner env_10x2 (argv_of "2" "1") img_10x2
  /\ x_tiles plan_10x2 * y_tiles plan_10x2 * im_bands img_10x2 < modulus
  /\ planner 40 (globals_of (argv_of "2" "1") img_10x2) (hardware_concurrency env_10x2)
       (im_width img_10x2) (im_height img_10x2) = Ok plan_10x2
  /\ exists out,
       main 40 env_10x2 (argv_of "2" "1")
       = mkRun (Opened "in.png" :: section_events plan_10x2 ++ [Saved "out.png" out])
           (Exit 0)
       /\ pixel_sample out 3 1 0
          = band_of (globals_of (argv_of "2" "1") img_10x2)
              (find_dominant (globals_of (argv_of "2" "1") img_10x2)
                 (tile_pixels (globals_of (argv_of "2" "1") img_10x2) img_10x2 3 1)) 0
       /\ pixel_sample out 4 1 0 = 0.
Proof.
  assert (Hrp : reaches_planner env_10x2 (argv_of "2" "1") img_10x2)
    by prove_reaches_planner.
  assert (Hx : atoi (arg (argv_of "2" "1") 1) < modulus) by (vm_compute; reflexivity).
  assert (Hy : atoi (arg (argv_of "2" "1") 2) < modulus) by (vm_compute; reflexivity).
  assert (Hw : 0 <= im_width img_10x2 < modulus)
    by (vm_compute; split; [discriminate | reflexivity]).
  assert (Hh : 0 <= im_height img_10x2 < modulus)
    by (vm_compute; split; [discriminate | reflexivity]).
  assert (Hb : 0 <= im_bands img_10x2 <= 4) by (vm_compute; split; discriminate).
  assert (Hsize : x_tiles plan_10x2 * y_tiles plan_10x2 * im_bands img_10x2 < modulus)
    by (vm_compute; reflexivity).
  pose proof (proj1 run_10x2) as Hplan.
  split; [exact Hrp|]. split; [exact Hsize|]. split; [exact Hplan|].
  destruct (saved_pixel_is_tile_answer 40 env_10x2 (argv_of "2" "1") img_10x2 plan_10x2
              Hrp Hx Hy Hw Hh Hb Hsize Hplan) as (out & Hmain & _ & _ & _ & Hpix).
  assert (Hin : (3 <? x_sectionCount plan_10x2 * x_section plan_10x2)
                && (1 <? y_sectionCount plan_10x2 * y_section plan_10x2) = true)
    by reflexivity.
  assert (Hout : (4 <? x_sectionCount plan_10x2 * x_section plan_10x2)
                 && (1 <? y_sectionCount plan_10x2 * y_section plan_10x2) = false)
    by reflexivity.
  exists out. split; [exact Hmain|]. split.
  - rewrite (Hpix 3 1 0) by (vm_compute; split; (discriminate || reflexivity)).
    rewrite Hin. reflexivity.
  - rewrite (Hpix 4 1 0) by (vm_compute; split; (discriminate || reflexivity)).
    rewrite Hout. reflexivity.
Defined.

(** ** Factors 1 x 1 *)

(** X4.  With both factors equal to 1 every tile is one pixel and [work]
    copies it: the output buffer holds the samples of the image, pixel by
    pixel.  The shortcut [main] takes for these factors saves the image it
    opened, and this is what the reduction would have produced: the code
    after the shortcut, run on the same image with these factors, makes a
    plan and assembles an image of the same size with the same sample in
    every band of every pixel (for at most four bands of byte samples). *)
Theorem work_unit_factors_copy :
  (forall g img out x y b,
     x_factor g = 1 -> y_factor g = 1 ->
     bandCount g = im_bands img -> bandCount g <= 4 -> Forall is_byte (im_data img) ->
     0 <= im_width img < modulus -> 0 <= im_height img < modulus ->
     0 <= x < im_width img -> 0 <= y < im_height img -> 0 <= b < bandCount g ->
     im_width img * im_height img * bandCount g <= Z.of_nat (length out) ->
     im_width img * im_height img * bandCount g <= modulus ->
     sample (work g img out) ((y * im_width img + x) * bandCount g + b)
     = pixel_sample img x y b)
  /\ (forall fuel env argv img,
        vips_init_fails env = false ->
        (5 <= length argv)%nat ->
        atoi (arg argv 1) = 1 -> atoi (arg argv 2) = 1 ->
        files env (arg argv 3) = Some img ->
        0 <= im_bands img <= 4 -> Forall is_byte (im_data img) ->
        1 <= im_width img < modulus -> 1 <= im_height img < modulus ->
        im_width img * im_height img * im_bands img < modulus ->
        (rounds (hardware_concurrency env) <= fuel)%nat ->
        let g := globals_of argv img in
        main fuel env argv = mkRun [Opened (arg argv 3); Saved (arg argv 4) img] (Exit 0)
        /\ exists p,
             planner fuel g (hardware_concurrency env) (im_width img) (im_height img) = Ok p
             /\ let out := assemble g p
                             (run_pool g p img (section_coords p) (allocate g p)) in
                im_width out = im_width img /\ im_height out = im_height img
                /\ im_bands out = im_bands img
                /\ forall X Y b,
                     0 <= X < im_width img -> 0 <= Y < im_height img ->
                     0 <= b < im_bands img ->
                     pixel_sample out X Y b = pixel_sample img X Y b).
Proof.
  split.
  - intros g img out x y b Hxf Hyf Hbands Hbc Hbytes Hw Hh Hx Hy Hb Hlen Hmod.
    assert (Hxt : wrap (im_width img) / wrap (x_factor g) = im_width img).
    { rewrite Hxf, (wrap_small (im_width img)) by exact Hw.
      change (wrap 1) with 1. apply Z.div_1_r. }
    assert (Hyt : wrap (im_height img) / wrap (y_factor g) = im_height img).
    { rewrite Hyf, (wrap_small (im_height img)) by exact Hh.
      change (wrap 1) with 1. apply Z.div_1_r. }
    pose proof (work_writes g img out x y b) as Hwork. cbv zeta in Hwork.
    rewrite Hxt, Hyt in Hwork. rewrite Hwork by assumption.
    apply unit_tile_answer; try assumption; lia.
  - intros fuel env argv img Hinit Hargc Hx Hy Hopen [Hb0 Hb4] Hbytes Hw Hh Harea Hfuel g.
    split.
    { unfold main. rewrite Hinit, Hx, Hy, Hopen.
      destruct (Z.ltb_spec (Z.of_nat (length argv)) 5); [lia|]. reflexivity. }
    assert (Hxf : x_factor g = 1) by exact Hx.
    assert (Hyf : y_factor g = 1) by exact Hy.
    assert (Hbc : bandCount g = im_bands img) by reflexivity.
    assert (Hxf' : 1 <= x_factor g < modulus) by (rewrite Hxf; unfold modulus; lia).
    assert (Hyf' : 1 <= y_factor g < modulus) by (rewrite Hyf; unfold modulus; lia).
    assert (Hw' : 0 <= im_width img < modulus) by lia.
    assert (Hh' : 0 <= im_height img < modulus) by lia.
    assert (Hfits : exists p, planner fuel g (hardware_concurrency env)
                                (im_width img) (im_height img) = Ok p).
    { apply planner_fits; try assumption; rewrite ?Hxf, ?Hyf; unfold modulus; lia. }
    destruct Hfits as [p Hplan].
    exists p. split; [exact Hplan|].
    pose proof (planner_Ok_facts _ _ _ _ _ _ Hxf' Hyf' Hw' Hh' Hplan) as Hpf.
    destruct (planner_Ok_steps _ _ _ _ _ _ Hxf' Hyf' Hw' Hh' Hplan)
      as (_ & _ & _ & Hxmax & Hymax).
    pose proof Hpf as [].
    rewrite Hxf in Hxmax, pf_x_tiles0, pf_x_size0.
    rewrite Hyf in Hymax, pf_y_tiles0, pf_y_size0.
    change (wrap (1 * 1)) with 1 in Hxmax, Hymax.
    rewrite Z.div_1_r in pf_x_tiles0, pf_y_tiles0.
    assert (Hxs : x_section p = 1) by lia.
    assert (Hys : y_section p = 1) by lia.
    assert (Hxss : x_sectionSize p = 1) by lia.
    assert (Hyss : y_sectionSize p = 1) by lia.
    rewrite Hxss, Z.div_1_r in pf_x_count0.
    rewrite Hyss, Z.div_1_r in pf_y_count0.
    destruct (assembled_pixel g p img Hxf' Hyf' Hw' Hh') as (Hsw & Hsh & Hsb & Hpix);
      [lia | rewrite pf_x_tiles0, pf_y_tiles0, Hbc; exact Harea | exact Hpf |].
    cbv zeta. rewrite Hsw, Hsh, Hsb, pf_x_tiles0, pf_y_tiles0.
    split; [reflexivity|]. split; [reflexivity|]. split; [exact Hbc|].
    intros X Y b HX HY Hb.
    rewrite Hpix by (rewrite ?pf_x_tiles0, ?pf_y_tiles0, ?Hbc; assumption).
    rewrite Hxs, Hys, pf_x_count0, pf_y_count0, !Z.mul_1_r.
    destruct (Z.ltb_spec X (im_width img)); [|lia].
    destruct (Z.ltb_spec Y (im_height img)); [|lia].
    cbn [andb]. apply unit_tile_answer; try assumption; lia.
Qed.

(** The 4 x 4 image with factors 1 x 1: [work] copies it, and so does the
    code after the shortcut. *)
Lemma work_unit_factors_copy_witness :
  sample (work (mkGlobals 1 1 1) img44 (replicate 16 0)) ((2 * im_width img44 + 3) * 1 + 0)
  = pixel_sample img44 3 2 0
  /\ main 40 (env44 8) (argv_of "1" "1")
     = mkRun [Opened "in.png"; Saved "out.png" img44] (Exit 0)
  /\ exists p,
       planner 40 (globals_of (argv_of "1" "1") img44) 8 (im_width img44) (im_height img44)
       = Ok p
       /\ pixel_sample
            (assemble (globals_of (argv_of "1" "1") img44) p
               (run_pool (globals_of (argv_of "1" "1") img44) p img44
                  (section_coords p) (allocate (globals_of (argv_of "1" "1") img44) p)))
            3 2 0
          = pixel_sample img44 3 2 0.
Proof.
  assert (Hbytes : Forall is_byte (im_data img44))
    by (repeat constructor; unfold is_byte; lia).
  split.
  - apply (proj1 work_unit_factors_copy (mkGlobals 1 1 1) img44 (replicate 16 0) 3 2 0);
      try reflexivity; try (vm_compute; split; [discriminate | reflexivity]);
      try (vm_compute; discriminate).
    exact Hbytes.
  - assert (Hinit : vips_init_fails (env44 8) = false) by reflexivity.
    assert (Hargc : (5 <= length (argv_of "1" "1"))%nat) by (simpl; lia).
    assert (Hx : atoi (arg (argv_of "1" "1") 1) = 1) by reflexivity.
    assert (Hy : atoi (arg (argv_of "1" "1") 2) = 1) by reflexivity.
    assert (Hopen : files (env44 8) (arg (argv_of "1" "1") 3) = Some img44) by reflexivity.
    assert (Hbands : 0 <= im_bands img44 <= 4) by (vm_compute; split; discriminate).
    assert (Hw : 1 <= im_width img44 < modulus)
      by (vm_compute; split; [discriminate | reflexivity]).
    assert (Hh : 1 <= im_height img44 < modulus)
      by (vm_compute; split; [discriminate | reflexivity]).
    assert (Harea : im_width img44 * im_height img44 * im_bands img44 < modulus)
      by (vm_compute; reflexivity).
    assert (Hfuel : (rounds (hardware_concurrency (env44 8)) <= 40)%nat)
      by (vm_compute; lia).
    destruct (proj2 work_unit_factors_copy 40%nat (env44 8) (argv_of "1" "1") img44
                Hinit Hargc Hx Hy Hopen Hbands Hbytes Hw Hh Harea Hfuel)
      as (Hmain & p & Hplan & _ & _ & _ & Hpix).
    split; [exact Hmain|]. exists p. split; [exact Hplan|].
    apply Hpix; vm_compute; split; (discriminate || reflexivity).
Defined.


(** ** When a run saves an image *)




(** ** "Worker ready" and "Worker done" *)

Lemma count_lines_app P log log' :
  count_lines P (log ++ log') = (count_lines P log + count_lines P log')%nat.
Proof. unfold count_lines. rewrite List.filter_app, length_app. reflexivity. Qed.

Lemma count_ready_ready {R : Type} (was : worker R) w v :
  wants_mutex was = true ->
  count_lines (is_ready v) (ready was w)
  = if decide (w = v) then (1 - readies (Some was))%nat else 0%nat.
Proof.
  intros Hidle. destruct was; try discriminate; unfold count_lines; cbn;
    destruct (decide (w = v)) as [-> | Hne]; try reflexivity.
  - rewrite Nat.eqb_refl. reflexivity.
  - apply Nat.eqb_neq in Hne. rewrite Hne. reflexivity.
Qed.

Lemma count_done_ready {R : Type} (was : worker R) w v :
  count_lines (is_done v) (ready was w) = 0%nat.
Proof. destruct was; reflexivity. Qed.

Lemma console_worker_lines {R : Type} (E : report_env) workerCount
    (tasks : list (R -> R)) mem stamps0 k (st : pool_state R) (v : nat) :
  nsteps (pool_step E) k (spawn workerCount tasks mem stamps0) st ->
  count_lines (is_ready v) (console st) = readies (threads st !! v)
  /\ count_lines (is_done v) (console st) = dones (threads st !! v).
Proof.
  revert st. induction k as [|k IH]; intros st Hrun.
  - inversion Hrun; subst. cbn [spawn console threads].
    destruct (replicate workerCount Spawned !! v) as [s|] eqn:Hs; [|split; reflexivity].
    apply lookup_replicate in Hs. destruct Hs as [-> _]. split; reflexivity.
  - apply nsteps_inv_r in Hrun. destruct Hrun as (mid & Hrun & Hstep).
    destruct (IH mid Hrun) as [IHr IHd]. clear IH.
    destruct Hstep as [w was task rest clock mid Hw Hidle Hq | w was mid Hw Hidle Hq
                      | w task mid Hw];
      cbn [take_task leave finish_task console threads];
      pose proof (lookup_lt_Some _ _ _ Hw) as Hlt.
    + rewrite !count_lines_app, (count_ready_ready was w v Hidle), count_done_ready, IHr, IHd.
      destruct (decide (w = v)) as [<- | Hne].
      * rewrite list_lookup_insert_eq by exact Hlt. rewrite Hw.
        destruct was; try discriminate; split; reflexivity.
      * rewrite list_lookup_insert_ne by exact Hne.
        unfold count_lines. cbn. split; lia.
    + rewrite !count_lines_app, (count_ready_ready was w v Hidle), count_done_ready, IHr, IHd.
      destruct (decide (w = v)) as [<- | Hne].
      * rewrite list_lookup_insert_eq by exact Hlt. rewrite Hw.
        unfold count_lines. cbn. rewrite Nat.eqb_refl.
        destruct was; try discriminate; split; reflexivity.
      * rewrite list_lookup_insert_ne by exact Hne.
        unfold count_lines. cbn. apply Nat.eqb_neq in Hne. rewrite Hne. cbn. split; lia.
    + rewrite IHr, IHd.
      destruct (decide (w = v)) as [<- | Hne].
      * rewrite list_lookup_insert_eq by exact Hlt. rewrite Hw. split; reflexivity.
      * rewrite list_lookup_insert_ne by exact Hne. split; reflexivity.
Qed.

(** X19.  What the threads print.  At every moment of a run a thread has
    printed "Worker ready" at most once and "Worker done" at most once, and
    "Worker done" only if it has printed "Worker ready"; when all threads
    have returned,
    each of them has printed both lines exactly once, no other thread id
    appears, and there is one "Pixels left" line for each task. *)
Theorem worker_lines_once {R : Type} (E : report_env) (workerCount : nat)
    (tasks : list (R -> R)) (mem : R) (stamps0 : timers) (k : nat) (st : pool_state R) :
  nsteps (pool_step E) k (spawn workerCount tasks mem stamps0) st ->
  (forall w : nat,
     (count_lines (is_done w) (console st) <= count_lines (is_ready w) (console st) <= 1)%nat)
  /\ (all_returned st ->
      (forall w : nat,
         count_lines (is_ready w) (console st) = (if decide (w < workerCount)%nat then 1 else 0)%nat
         /\ count_lines (is_done w) (console st)
            = (if decide (w < workerCount)%nat then 1 else 0)%nat)
      /\ ((1 <= workerCount)%nat ->
          length (pixels_left_lines (console st)) = length tasks)).
Proof.
  intros Hrun. split.
  - intros w. destruct (console_worker_lines E _ _ _ _ _ _ w Hrun) as [-> ->].
    destruct (threads st !! w) as [[| | |]|]; cbn; lia.
  - intros Hall. destruct (run_inv E _ _ _ _ _ _ Hrun) as [[Hfifo _ _ Hlen Hempty] _].
    split.
    + intros w. destruct (console_worker_lines E _ _ _ _ _ _ w Hrun) as [-> ->].
      destruct (decide (w < workerCount)%nat) as [Hlt | Hge].
      * destruct (lookup_lt_is_Some_2 (threads st) w ltac:(lia)) as [s Hs].
        rewrite Hs. unfold all_returned in Hall.
        rewrite List.Forall_forall in Hall.
        apply list_elem_of_lookup_2, list_elem_of_In, Hall in Hs. subst s.
        split; reflexivity.
      * rewrite (lookup_ge_None_2 (threads st) w) by lia. split; reflexivity.
    + intros Hwc. rewrite (console_pixels_left E _ _ _ _ _ _ Hrun).
      rewrite length_fmap, length_seqZ, Nat2Z.id.
      assert (Hq : m_tasks st = []).
      { apply Hempty. exists 0%nat.
        destruct (threads st) as [|s ws] eqn:Hts; [simpl in Hlen; lia|].
        unfold all_returned in Hall. rewrite Hts in Hall.
        apply Forall_cons in Hall. destruct Hall as [-> _]. reflexivity. }
      rewrite Hq, app_nil_r in Hfifo. rewrite Hfifo. reflexivity.
Qed.

(** Two threads and one task: the second thread finds the queue empty and
    prints its two lines without having run a task. *)
Lemma worker_lines_once_witness :
  let E := mkReportEnv 4 8 (fun _ _ _ => 0) in
  let start := spawn 2 [Z.succ] 3 (mkTimers 0 0 0) in
  exists st,
    nsteps (pool_step E) 4 start st /\ all_returned st
    /\ count_lines (is_ready 1) (console st) = 1%nat
    /\ count_lines (is_done 1) (console st) = 1%nat
    /\ length (pixels_left_lines (console st)) = 1%nat.
Proof.
  intros E start.
  set (s1 := take_task E 0 Spawned Z.succ [] (1, 1, 1, 1) start).
  set (s2 := leave 1 Spawned s1).
  set (s3 := finish_task 0 Z.succ s2).
  set (s4 := leave 0 Waiting s3).
  assert (Hrun : nsteps (pool_step E) 4 start s4).
  { eapply nsteps_l; [apply (step_take E 0 Spawned Z.succ [] (1, 1, 1, 1) start);
                      reflexivity|].
    eapply nsteps_l; [apply (step_leave E 1 Spawned s1); reflexivity|].
    eapply nsteps_l; [apply (step_finish E 0 Z.succ s2); reflexivity|].
    eapply nsteps_l; [apply (step_leave E 0 Waiting s3); reflexivity|].
    apply nsteps_O. }
  assert (Hall : all_returned s4) by (repeat constructor).
  exists s4. split; [exact Hrun|]. split; [exact Hall|].
  destruct (worker_lines_once E 2 [Z.succ] 3 (mkTimers 0 0 0) 4 s4 Hrun)
    as (_ & Hend).
  destruct (Hend Hall) as (Hlines & Hpix).
  destruct (Hlines 1%nat) as [Hr Hd].
  split; [exact Hr|]. split; [exact Hd|]. apply Hpix. lia.
Defined.
(** ** Tasks stay inside their area and their buffer *)

Lemma work_length g img out :
  let xt := wrap (im_width img) / wrap (x_factor g) in
  let yt := wrap (im_height img) / wrap (y_factor g) in
  0 <= bandCount g ->
  xt * yt * bandCount g <= Z.of_nat (length out) ->
  xt * yt * bandCount g <= modulus ->
  length (work g img out) = length out.
Proof.
  intros xt yt Hbc Hlen Hmod.
  destruct (work_buffer g img out 0
              (fun t => ((t.2 * xt + t.1) * bandCount g <=? 0)
                        && (0 <? (t.2 * xt + t.1) * bandCount g + bandCount g))
              ltac:(lia) Hbc Hlen Hmod ltac:(reflexivity)) as [Hl _].
  exact Hl.
Qed.

(** X20.  For a plan whose output buffer size fits [unsigned int], the task
    of a section never leaves what it was given: the buffer allocated for the
    section has exactly one entry per band of each tile of the section's
    area, every index that [work] writes lies inside the buffer, every tile
    that [work] extracts lies inside the area, and the buffer that [main]
    wraps into an image afterwards has [x_section * y_section * bandCount]
    entries. *)
Theorem section_work_in_bounds (fuel : nat) (g : globals) (H : Z) (img : VImage)
    (p : plan) (c : Z * Z) :
  1 <= x_factor g < modulus -> 1 <= y_factor g < modulus ->
  0 <= im_width img < modulus -> 0 <= im_height img < modulus ->
  0 <= bandCount g -> x_tiles p * y_tiles p * bandCount g < modulus ->
  planner fuel g H (im_width img) (im_height img) = Ok p ->
  c ∈ section_coords p ->
  let area := section_area p img c in
  let xt := wrap (im_width area) / wrap (x_factor g) in
  let yt := wrap (im_height area) / wrap (y_factor g) in
  xt = x_section p /\ yt = y_section p
  /\ (exists buf, allocate g p !! c = Some buf
                  /\ Z.of_nat (length buf) = xt * yt * bandCount g)
  /\ (forall x y b, 0 <= x < xt -> 0 <= y < yt -> 0 <= b < bandCount g ->
        0 <= wrap ((y * xt + x) * bandCount g + b) < xt * yt * bandCount g
        /\ 0 <= wrap (x * x_factor g)
        /\ wrap (x * x_factor g) + x_factor g <= im_width area
        /\ 0 <= wrap (y * y_factor g)
        /\ wrap (y * y_factor g) + y_factor g <= im_height area)
  /\ (exists buf, run_pool g p img (section_coords p) (allocate g p) !! c = Some buf
                  /\ Z.of_nat (length buf) = x_section p * y_section p * bandCount g).
Proof.
  intros Hxf Hyf Hw Hh Hbc Hsize Hplan Hc area xt yt.
  pose proof (planner_Ok_facts _ _ _ _ _ _ Hxf Hyf Hw Hh Hplan) as Hpf.
  destruct (section_rect_exact g (im_width img) (im_height img) p c
              ltac:(lia) ltac:(lia) Hw Hh Hpf Hc) as (Hrect & Hl & Hr & Ht & Hbt).
  destruct (grid_inside g (im_width img) (im_height img) p
              ltac:(lia) ltac:(lia) ltac:(lia) ltac:(lia) Hpf)
    as (_ & _ & Hgx & Hgy & _).
  pose proof Hpf as [].
  assert (Haw : im_width area = x_sectionSize p)
    by (unfold area, section_area; rewrite Hrect; reflexivity).
  assert (Hah : im_height area = y_sectionSize p)
    by (unfold area, section_area; rewrite Hrect; reflexivity).
  assert (Hxt : xt = x_section p).
  { unfold xt. rewrite Haw, !wrap_small by (unfold in_range; lia).
    rewrite pf_x_size0. apply Z.div_mul. lia. }
  assert (Hyt : yt = y_section p).
  { unfold yt. rewrite Hah, !wrap_small by (unfold in_range; lia).
    rewrite pf_y_size0. apply Z.div_mul. lia. }
  assert (Hle : x_section p * y_section p * bandCount g
                <= x_tiles p * y_tiles p * bandCount g).
  { apply Z.mul_le_mono_nonneg_r; [lia|]. apply Z.mul_le_mono_nonneg; lia. }
  assert (H0 : 0 <= x_section p * y_section p * bandCount g).
  { apply Z.mul_nonneg_nonneg; [apply Z.mul_nonneg_nonneg|]; lia. }
  assert (Hbuf : Z.of_nat (length (replicate
                   (Z.to_nat (wrap (x_section p * y_section p * bandCount g))) 0))
                 = x_section p * y_section p * bandCount g).
  { rewrite length_replicate, wrap_small by (unfold in_range; lia). lia. }
  split; [exact Hxt|]. split; [exact Hyt|]. split; [|split].
  - eexists. split; [apply (allocate_lookup g p c Hc)|]. rewrite Hxt, Hyt. exact Hbuf.
  - intros x y b Hx Hy Hb. rewrite Haw, Hah, Hxt, Hyt in *.
    destruct (tile_index_bounds (x_section p) (y_section p) (bandCount g) x y Hx Hy Hbc)
      as [Hi0 Hi1].
    rewrite (wrap_small ((y * x_section p + x) * bandCount g + b))
      by (unfold in_range; lia).
    rewrite (wrap_small (x * x_factor g)), (wrap_small (y * y_factor g))
      by (unfold in_range; nia).
    split; [lia|]. nia.
  - rewrite run_pool_lookup by apply section_coords_NoDup.
    rewrite bool_decide_eq_true_2 by exact Hc.
    rewrite (allocate_lookup g p c Hc). cbn [default]. unfold id.
    eexists. split; [reflexivity|].
    fold area. rewrite work_length; [exact Hbuf | exact Hbc | |];
      fold xt yt; rewrite Hxt, Hyt, ?Hbuf; lia.
Qed.

(** The second section of the first row of the 10 x 2 image: two tiles and
    a buffer of two entries. *)
Lemma section_work_in_bounds_witness :
  let g := mkGlobals 2 1 1 in
  planner 40 g 2 (im_width img_10x2) (im_height img_10x2) = Ok plan_10x2
  /\ (1, 0) ∈ section_coords plan_10x2
  /\ x_tiles plan_10x2 * y_tiles plan_10x2 * bandCount g < modulus
  /\ (exists buf, run_pool g plan_10x2 img_10x2 (section_coords plan_10x2)
                    (allocate g plan_10x2) !! (1, 0) = Some buf
                  /\ Z.of_nat (length buf)
                     = x_section plan_10x2 * y_section plan_10x2 * bandCount g).
Proof.
  intros g.
  assert (Hplan : planner 40 g 2 (im_width img_10x2) (im_height img_10x2) = Ok plan_10x2)
    by (vm_compute; reflexivity).
  assert (Hc : (1, 0) ∈ section_coords plan_10x2).
  { apply elem_of_section_coords. vm_compute.
    split; split; (discriminate || reflexivity). }
  assert (Hsize : x_tiles plan_10x2 * y_tiles plan_10x2 * bandCount g < modulus)
    by (vm_compute; reflexivity).
  split; [exact Hplan|]. split; [exact Hc|]. split; [exact Hsize|].
  apply (section_work_in_bounds 40 g 2 img_10x2 plan_10x2 (1, 0));
    try exact Hplan; try exact Hc; try exact Hsize;
    vm_compute; try discriminate; split; (discriminate || reflexivity).
Defined.
